(** * Optimal mouse grouping

    A shallow embedding of the group-size planner ([compute_group_sizes]),
    the input loader, the MILP model builder and the post-solve validation of
    the optimal-mouse-grouping program, with the properties its specification
    states about them, and of the main program around them (the saving of the
    model, the frame with the grouping, the number formats of the output
    file) with further properties of the code.

    Modelling conventions.
    - Python exceptions are values of [exn]; a function that can raise returns
      a [result].  [assert] statements are executed.
    - numpy's [int64] scalars and arrays are integers of [Z] and lists of [Z].
      For arguments below [2^62] in magnitude no operation of the planner
      leaves the signed 64-bit range, so no wrap-around is written out;
      Python integers outside that range take numpy's object path, which is
      not modelled.
    - [a / b] on two numpy integers is IEEE-754 binary64 division of the two
      converted operands; [Float64] models the conversion and the division
      with round-to-nearest-even on a 53-bit significand, in exact integer
      arithmetic.
    - The floating-point arithmetic of the model builder and of the solution
      validation (means, sums, [np.isclose]) is kept abstract in a class of
      operations, [Float64Ops]; the rationals give an executable instance.
    - The MILP solver and the file system are outside the program: the solver
      is a function from the model to the status and values it leaves, the
      Excel reader a function from a path to the frame it loads,
      [os.path.isdir] a function from a path to a Boolean.
    - A data frame is the list of its columns.  The models of [df.pop],
      [df.insert], [df[name] = column] and [get_loc] are those of a frame
      with distinct column names, the only frames that the properties of
      these operations are stated for.
    - The main program is modelled up to the frame that holds the grouping
      in its first column; of the tables, files and plot made from this frame
      only the number formats of the Excel sheets are modelled.
    - The meaning of a model ([feasible]) is that of a mixed-integer program,
      over the rationals. *)

From Stdlib Require Import ZArith Lia Lqa Bool String DecimalString QArith Qabs
  List Permutation.
Import ListNotations.
Local Open Scope Z_scope.

(** ** Python exceptions and results *)

Inductive exn : Type :=
| AssertionError
| AttributeError (msg : string)
| FileNotFoundError (msg : string)
| KeyError (msg : string)
| OverflowError (msg : string)
| TypeError (msg : string)
| ValueError (msg : string).

Inductive result (A : Type) : Type :=
| Ok (a : A)
| Raise (e : exn).

Arguments Ok {A} a.
Arguments Raise {A} e.

Definition bind {A B : Type} (r : result A) (k : A -> result B) : result B :=
  match r with
  | Ok a => k a
  | Raise e => Raise e
  end.

Notation "x <- r ;; k" := (bind r (fun x => k))
  (at level 61, r at next level, right associativity).
Notation "r ;;; k" := (bind r (fun _ => k))
  (at level 61, right associativity).

(** [assert b] *)
Definition py_assert (b : bool) : result unit :=
  if b then Ok tt else Raise AssertionError.

(** [if b: raise e] *)
Definition raise_if (b : bool) (e : exn) : result unit :=
  if b then Raise e else Ok tt.

Definition is_ok {A : Type} (r : result A) : bool :=
  match r with Ok _ => true | Raise _ => false end.

(** ** Binary64 arithmetic on converted integers *)

Module Float64.

(** A finite value is [m * 2^e]; the sign of zero is not tracked (it is
    observable neither through [floor] nor through [int]). *)
Inductive t : Type :=
| Finite (m e : Z)
| PosInf
| NegInf
| NaN.

(** Nearest integer to [P / Q] for [0 <= P] and [0 < Q], ties to even. *)
Definition round_half_even (P Q : Z) : Z :=
  let f := P / Q in
  match 2 * (P mod Q) ?= Q with
  | Lt => f
  | Gt => f + 1
  | Eq => if Z.even f then f else f + 1
  end.

(** The exponent [t] with [2^t <= p / q < 2^(t+1)], for [0 < p], [0 < q]. *)
Definition binade (p q : Z) : Z :=
  let e0 := Z.log2 p - Z.log2 q in
  if q * 2 ^ Z.max 0 e0 <=? p * 2 ^ Z.max 0 (- e0) then e0 else e0 - 1.

(** The binary64 number nearest to [p / q] for [0 < p], [0 < q], as a
    significand of 53 bits and an exponent.  Operands are converted 64-bit
    integers and their quotients, whose magnitudes lie between [2^-64] and
    [2^64]: the exponent range of binary64 is never left. *)
Definition round_pos (p q : Z) : Z * Z :=
  let e := binade p q - 52 in
  (round_half_even (p * 2 ^ Z.max 0 (- e)) (q * 2 ^ Z.max 0 e), e).

(** The binary64 number nearest to [p / q], for [0 < q]. *)
Definition round_frac (p q : Z) : t :=
  if p =? 0 then Finite 0 0
  else let '(m, e) := round_pos (Z.abs p) q in Finite (Z.sgn p * m) e.

(** Conversion of an [int64] to [float64]. *)
Definition of_int64 (a : Z) : t := round_frac a 1.

Definition sign (x : t) : Z :=
  match x with
  | Finite m _ => Z.sgn m
  | PosInf => 1
  | NegInf => -1
  | NaN => 0
  end.

Definition inf_of_sign (s : Z) : t := if 0 <=? s then PosInf else NegInf.

(** [x / y]; numpy warns on a zero divisor and returns an infinity or NaN. *)
Definition div (x y : t) : t :=
  match x, y with
  | NaN, _ | _, NaN => NaN
  | Finite m1 e1, Finite m2 e2 =>
      if m2 =? 0 then
        if m1 =? 0 then NaN else inf_of_sign m1
      else
        round_frac (Z.sgn m2 * m1 * 2 ^ Z.max 0 (e1 - e2))
                   (Z.abs m2 * 2 ^ Z.max 0 (e2 - e1))
  | Finite _ _, _ => Finite 0 0
  | _, Finite m2 _ => inf_of_sign (sign x * (if m2 =? 0 then 1 else Z.sgn m2))
  | _, _ => NaN
  end.

(** [np.floor] *)
Definition floor (x : t) : t :=
  match x with
  | Finite m e => Finite (Z.shiftl m e) 0
  | _ => x
  end.

(** Python's [int(x)]: truncation toward zero, or an exception. *)
Definition to_int (x : t) : result Z :=
  match x with
  | Finite m e =>
      Ok (if 0 <=? e then m * 2 ^ e else Z.quot m (2 ^ (- e)))
  | PosInf | NegInf =>
      Raise (OverflowError "cannot convert float infinity to integer")
  | NaN => Raise (ValueError "cannot convert float NaN to integer")
  end.

End Float64.

(** ** mouse_grouping_utils.py: the group-size planner *)

(** [np.divmod] on integers: floor division and its remainder; a zero divisor
    gives [(0, 0)] with a warning. *)
Definition np_divmod (a b : Z) : Z * Z :=
  if b =? 0 then (0, 0) else (a / b, a mod b).

(** [np.repeat(v, repeats=n)] for a scalar [v]. *)
Definition np_repeat (v n : Z) : result (list Z) :=
  if n <? 0 then Raise (ValueError "repeats may not contain negative values.")
  else Ok (repeat v (Z.to_nat n)).

(** [arr.sum()] of an integer array. *)
Definition np_sum (l : list Z) : Z := fold_right Z.add 0 l.

(** [int(np.floor(a / b))] for numpy integers [a] and [b]. *)
Definition floor_true_divide (a b : Z) : result Z :=
  Float64.to_int
    (Float64.floor (Float64.div (Float64.of_int64 a) (Float64.of_int64 b))).

(** The number of elements selected by the slice [[:stop]] of an array of
    length [len]; a negative [stop] counts from the end. *)
Definition slice_stop (len : nat) (stop : Z) : nat :=
  if stop <? 0 then Z.to_nat (Z.of_nat len + stop)
  else Nat.min (Z.to_nat stop) len.

(** [arr[:stop] += 1] *)
Definition incr_prefix (stop : Z) (arr : list Z) : list Z :=
  let c := slice_stop (length arr) stop in
  map (fun g => g + 1) (firstn c arr) ++ skipn c arr.

Definition compute_group_sizes (num_mice min_group_size : Z)
  : result (list Z) :=
  let '(num_groups, num_remainders) := np_divmod num_mice min_group_size in
  group_sizes <- np_repeat min_group_size num_groups ;;
  num_remainders_per_group <- floor_true_divide num_remainders num_groups ;;
  let group_sizes := map (fun g => g + num_remainders_per_group) group_sizes in
  let num_final_remainders :=
    num_remainders - num_groups * num_remainders_per_group in
  py_assert (num_final_remainders =? num_mice - np_sum group_sizes) ;;;
  py_assert (num_final_remainders <? num_groups) ;;;
  let group_sizes := incr_prefix num_final_remainders group_sizes in
  py_assert (np_sum group_sizes =? num_mice) ;;;
  py_assert (forallb (fun g => min_group_size <=? g) group_sizes) ;;;
  Ok group_sizes.

(** The sizes planned when every step is exact: with [k] groups and [r] mice
    left over, [r mod k] groups of [min_group_size + r / k + 1] followed by
    groups of [min_group_size + r / k]. *)
Definition planned_sizes (num_mice min_group_size : Z) : list Z :=
  let k := num_mice / min_group_size in
  let r := num_mice mod min_group_size in
  repeat (min_group_size + r / k + 1) (Z.to_nat (r mod k)) ++
  repeat (min_group_size + r / k) (Z.to_nat (k - r mod k)).

(** The exceptions that the planner's own operations raise. *)
Definition planner_failure (e : exn) : Prop :=
  e = AssertionError \/
  e = OverflowError "cannot convert float infinity to integer" \/
  e = ValueError "cannot convert float NaN to integer" \/
  e = ValueError "repeats may not contain negative values.".

(** ** mouse_grouping_utils.py: the input loader *)

(** A cell of a numeric column; [None] is a missing value (NaN). *)
Definition cell : Type := option Q.

(** A data frame: its columns in order, each with its name and its cells.
    [pd.read_excel] makes the column names distinct. *)
Definition data_frame : Type := list (string * list cell).

Definition columns (df : data_frame) : list string := map fst df.

(** [name in df.columns.to_list()] *)
Definition has_column (df : data_frame) (name : string) : bool :=
  existsb (String.eqb name) (columns df).

(** [df[name]] *)
Fixpoint get_column (df : data_frame) (name : string) : result (list cell) :=
  match df with
  | [] => Raise (KeyError name)
  | (n, c) :: df' => if String.eqb n name then Ok c else get_column df' name
  end.

Definition cell_eqb (a b : cell) : bool :=
  match a, b with
  | None, None => true
  | Some x, Some y => Qeq_bool x y
  | _, _ => false
  end.

(** [series.unique()]: the distinct values in order of first appearance;
    missing values count as one value. *)
Fixpoint unique (l : list cell) : list cell :=
  match l with
  | [] => []
  | a :: l' => a :: filter (fun b => negb (cell_eqb a b)) (unique l')
  end.

(** [series.isna().sum()] *)
Definition isna_sum (l : list cell) : nat :=
  List.length (filter (fun c => match c with None => true | Some _ => false end) l).

(** [(series >= 0).all()]; a comparison with NaN is false. *)
Definition all_ge0 (l : list cell) : bool :=
  forallb (fun c => match c with Some q => Qle_bool 0 q | None => false end) l.

(** [df.rename(columns={k1: v1, k2: v2})] *)
Definition rename (df : data_frame) (k1 v1 k2 v2 : string) : data_frame :=
  map (fun '(n, c) =>
         (if String.eqb n k1 then v1 else if String.eqb n k2 then v2 else n, c))
      df.

(** A name between double quotes, as the messages show it. *)
Definition quoted (s : string) : string :=
  String (Ascii.ascii_of_nat 34) (s ++ String (Ascii.ascii_of_nat 34) EmptyString).

Definition column_msg (name rest : string) : string :=
  ("Column " ++ quoted name ++ rest)%string.

(** [read_excel path] is [None] when [path] is not a file and otherwise the
    data frame that [pd.read_excel] loads from it.  The message of the
    [FileNotFoundError] leaves out the resolved full path. *)
Definition load_and_verify_mouse_id_and_tumor_size_data_frame
    (read_excel : string -> option data_frame)
    (excel_file_path orig_id_column_name orig_tumor_size_column_name
       id_column_name tumor_size_column_name : string)
  : result data_frame :=
  match read_excel excel_file_path with
  | None =>
      Raise (FileNotFoundError
               ("Excel file not found: " ++ quoted excel_file_path)%string)
  | Some df =>
      raise_if (negb (has_column df orig_id_column_name))
        (ValueError (column_msg orig_id_column_name
                       " not found in input Excel file. Please fix.")) ;;;
      raise_if (negb (has_column df orig_tumor_size_column_name))
        (ValueError (column_msg orig_tumor_size_column_name
                       " not found in input Excel file. Please fix.")) ;;;
      raise_if (String.eqb orig_id_column_name orig_tumor_size_column_name)
        (ValueError ("ID and Tumor Size column names cannot be the same: "
                       ++ quoted orig_id_column_name ++ ". Please fix.")%string) ;;;
      (* Check that all IDs are unique *)
      sizes <- get_column df orig_tumor_size_column_name ;;
      raise_if (negb (List.length (unique sizes) =? List.length sizes)%nat)
        (ValueError "Not all Mouse IDs in the input Excel file are unique! Please fix.") ;;;
      (* Check that there are no missing values *)
      ids <- get_column df orig_id_column_name ;;
      raise_if (negb (isna_sum ids =? 0)%nat)
        (ValueError (column_msg orig_id_column_name
                       " contains missing values. Please fix.")) ;;;
      raise_if (negb (isna_sum sizes =? 0)%nat)
        (ValueError (column_msg orig_tumor_size_column_name
                       " contains missing values. Please fix.")) ;;;
      (* Check that all tumor sizes are non-negative *)
      raise_if (negb (all_ge0 sizes))
        (ValueError "All tumor sizes must be non-negative. Please fix.") ;;;
      Ok (rename df orig_id_column_name id_column_name
                 orig_tumor_size_column_name tumor_size_column_name)
  end.

(** No value occurs twice in the column. *)
Fixpoint distinct_cells (l : list cell) : bool :=
  match l with
  | [] => true
  | a :: l' => negb (existsb (cell_eqb a) l') && distinct_cells l'
  end.

(** ** mouse_grouping_mip.py: the MILP model *)

(** The float64 operations that the model builder and the validation of a
    solution use on tumor sizes and variable values. *)
Class Float64Ops (num : Type) : Type := {
  (** conversion of an integer *)
  num_of_int : Z -> num;
  num_add : num -> num -> num;
  num_sub : num -> num -> num;
  (** [abs(a)] *)
  num_abs : num -> num;
  (** [np.mean(arr)] *)
  num_mean : list num -> num;
  (** [arr.sum(axis=...)] along one row or one column *)
  num_sum : list num -> num;
  (** [a >= 0] *)
  num_ge0 : num -> bool;
  (** [np.isclose(a, b)] with the default tolerances *)
  num_isclose : num -> num -> bool;
  (** the truth value of [a], as [np.where] reads it *)
  num_nonzero : num -> bool
}.

(** The decision variables, by the indices in their names. *)
Inductive var : Type :=
| x_var (i j : nat)
| y_pos_var (j : nat)
| y_neg_var (j : nat).

Inductive var_type : Type := BINARY | CONTINUOUS | INTEGER.

(** What [model.add_var] records; a binary variable ranges over 0 and 1,
    the upper bound of a continuous one is left at infinity. *)
Record var_decl : Type := {
  decl_var : var;
  decl_type : var_type;
  decl_lb : Z;
  decl_name : string
}.

Inductive sense : Type := MINIMIZE | MAXIMIZE.

Definition string_of_nat (n : nat) : string :=
  DecimalString.NilZero.string_of_uint (Nat.to_uint n).

Definition var_name (v : var) : string :=
  match v with
  | x_var i j => "x_" ++ string_of_nat i ++ "_" ++ string_of_nat j
  | y_pos_var j => "y_pos_" ++ string_of_nat j
  | y_neg_var j => "y_neg_" ++ string_of_nat j
  end%string.

Section Model.

Context {num : Type} `{Float64Ops num}.

(** A linear expression: its terms in the order they were added and its
    integer constant. *)
Record lin_expr : Type := {
  terms : list (num * var);
  const : Z
}.

(** A constraint [lhs == rhs] with its name. *)
Record constr : Type := {
  lhs : lin_expr;
  rhs : lin_expr;
  constr_name : string
}.

Record model : Type := {
  model_name : string;
  model_sense : sense;
  solver_name : string;
  vars : list var_decl;
  constrs : list constr;
  objective : lin_expr
}.

(** A variable used as an expression. *)
Definition term_of (v : var) : num * var := (num_of_int 1, v).

(** [mip.xsum] of terms *)
Definition xsum (ts : list (num * var)) : lin_expr :=
  {| terms := ts; const := 0 |}.

Definition constant (c : Z) : lin_expr := {| terms := []; const := c |}.

Definition add_var (t : var_type) (lb : Z) (v : var) : var_decl :=
  {| decl_var := v; decl_type := t; decl_lb := lb; decl_name := var_name v |}.

(** [np.all(np.asarray(tumor_sizes) >= 0)] *)
Definition all_non_negative (tumor_sizes : list num) : bool :=
  forallb num_ge0 tumor_sizes.

(** [np.all(np.asarray(group_sizes) > 0)] *)
Definition all_positive (group_sizes : list Z) : bool :=
  forallb (fun g => 0 <? g) group_sizes.

(** [list(np.asarray(tumor_sizes) - np.mean(tumor_sizes))] *)
Definition tumor_size_differences (tumor_sizes : list num) : list num :=
  map (fun v => num_sub v (num_mean tumor_sizes)) tumor_sizes.

(** The model with its variables; the lists [x], [y_pos] and [y_neg] and the
    ranges [all_mice] and [all_groups] of the source are determined by
    the two counts returned with it. *)
Definition construct_mouse_grouping_model
    (tumor_sizes : list num) (group_sizes : list Z)
  : result (model * nat * nat) :=
  (* Verify input: [not a >= 3 and b] is [(not a >= 3) and b] *)
  raise_if (negb (3 <=? List.length tumor_sizes)%nat
            && all_non_negative tumor_sizes)
    (AttributeError "There must be at least three tumor sizes and they must all be non-negative.") ;;;
  raise_if (negb (2 <=? List.length group_sizes)%nat
            && all_positive group_sizes)
    (AttributeError "There must be at least two groups and none of them can be empty.") ;;;
  raise_if (negb (Z.of_nat (List.length tumor_sizes) =? np_sum group_sizes))
    (ValueError "Lenght of tumor_sizes list must equal the sum of the number of mice in the groups.") ;;;
  (* Construct model *)
  let num_mice := List.length tumor_sizes in
  let num_groups := List.length group_sizes in
  let all_mice := seq 0 num_mice in
  let all_groups := seq 0 num_groups in
  let g := fun j => nth j group_sizes 0 in
  let d := fun i =>
    nth i (tumor_size_differences tumor_sizes) (num_of_int 0) in
  let x :=
    flat_map (fun i => map (fun j => add_var BINARY 0 (x_var i j)) all_groups)
             all_mice in
  let y_pos := map (fun j => add_var CONTINUOUS 0 (y_pos_var j)) all_groups in
  let y_neg := map (fun j => add_var CONTINUOUS 0 (y_neg_var j)) all_groups in
  let mice_in_group :=
    map (fun j =>
           {| lhs := xsum (map (fun i => term_of (x_var i j)) all_mice);
              rhs := constant (g j);
              constr_name := ("Mice_in_group_" ++ string_of_nat j)%string |})
        all_groups in
  let mouse_in_one_group :=
    map (fun i =>
           {| lhs := xsum (map (fun j => term_of (x_var i j)) all_groups);
              rhs := constant 1;
              constr_name :=
                ("Mouse_" ++ string_of_nat i ++ "_in_one_group")%string |})
        all_mice in
  let mean_tumor_diff_in_group :=
    map (fun j =>
           {| lhs := xsum (map (fun i => (d i, x_var i j)) all_mice);
              rhs := xsum [term_of (y_pos_var j);
                           (num_of_int (-1), y_neg_var j)];
              constr_name :=
                ("Mean_tumor_diff_in_group_" ++ string_of_nat j)%string |})
        all_groups in
  Ok ({| model_name := "mouse_grouping";
         model_sense := MINIMIZE;
         solver_name := "CBC";
         vars := x ++ y_pos ++ y_neg;
         constrs :=
           mice_in_group ++ mouse_in_one_group ++ mean_tumor_diff_in_group;
         objective :=
           xsum (flat_map (fun j => [term_of (y_pos_var j);
                                     term_of (y_neg_var j)])
                          all_groups) |},
      num_mice, num_groups).

End Model.

Arguments lin_expr num : clear implicits.
Arguments constr num : clear implicits.
Arguments model num : clear implicits.

(** ** mouse_grouping_mip.py: solving and validating *)

(** [mip.OptimizationStatus] *)
Inductive OptimizationStatus : Type :=
| ERROR
| OPTIMAL
| INFEASIBLE
| UNBOUNDED
| FEASIBLE
| INT_INFEASIBLE
| NO_SOLUTION_FOUND.

(** The values that the solver leaves in the model: [x[i][j].x], [y_pos[j].x],
    [y_neg[j].x] and [model.objective_value]. *)
Record solution (num : Type) : Type := {
  x_val : nat -> nat -> num;
  y_pos_val : nat -> num;
  y_neg_val : nat -> num;
  objective_value : num
}.

Arguments x_val {num} s i j.
Arguments y_pos_val {num} s j.
Arguments y_neg_val {num} s j.
Arguments objective_value {num} s.

(** What [model.optimize] leaves behind: the status it returns and, when it
    found a solution, the values; without a solution every [.x] is [None]. *)
Record solver_output (num : Type) : Type := {
  status : OptimizationStatus;
  values : option (solution num)
}.

Arguments status {num} s.
Arguments values {num} s.

Definition axis1_msg : string :=
  "The assignment matrix was invalid (axis=1). Please investigate.".
Definition axis0_msg : string :=
  "The assignment matrix was invalid (axis=0). Please investigate.".
Definition objective_msg : string :=
  "Objective value and sum of absolute group deviations differ. Please investigate.".

Section Solve.

Context {num : Type} `{Float64Ops num}.

(** [x_arr]: one row per mouse, one column per group. *)
Definition x_arr (s : solution num) (num_mice num_groups : nat)
  : list (list num) :=
  map (fun i => map (fun j => x_val s i j) (seq 0 num_groups))
      (seq 0 num_mice).

(** [x_arr.sum(axis=1)] *)
Definition sum_axis1 (a : list (list num)) : list num := map num_sum a.

(** [x_arr.sum(axis=0)] for an array with [num_groups] columns *)
Definition sum_axis0 (a : list (list num)) (num_groups : nat) : list num :=
  map (fun j => num_sum (map (fun row => nth j row (num_of_int 0)) a))
      (seq 0 num_groups).

(** [np.all(np.isclose(a, b))] for two arrays of one length *)
Definition all_isclose (a b : list num) : bool :=
  forallb (fun p => num_isclose (fst p) (snd p)) (combine a b).

(** [np.where(a)[1]]: the column index of every entry with a true value,
    row by row. *)
Definition where_columns (a : list (list num)) : list Z :=
  flat_map
    (fun row =>
       map (fun p => Z.of_nat (fst p))
           (filter (fun p => num_nonzero (snd p))
                   (combine (seq 0 (List.length row)) row)))
    a.

(** [sum(abs(group_deviations))] with Python's [sum], which starts from the
    integer 0 and adds from the left. *)
Definition sum_abs (devs : list num) : num :=
  fold_left num_add (map num_abs devs) (num_of_int 0).

(** The part of [construct_and_solve_mouse_grouping_model] that follows
    [model.optimize]: it reads the values, verifies them and extracts the
    grouping.  The model has at least one mouse and two groups, so summing
    a matrix of [None] raises. *)
Definition extract_solution
    (group_sizes : list Z) (num_mice num_groups : nat)
    (out : solver_output num)
  : result (list Z * num * list num) :=
  match values out with
  | None =>
      Raise (TypeError
               "unsupported operand type(s) for +: 'NoneType' and 'NoneType'")
  | Some s =>
      (* Convert solution to numpy array *)
      let x_arr := x_arr s num_mice num_groups in
      (* Verify solution *)
      raise_if (negb (all_isclose (sum_axis1 x_arr)
                                  (repeat (num_of_int 1) num_mice)))
        (ValueError axis1_msg) ;;;
      raise_if (negb (all_isclose (sum_axis0 x_arr num_groups)
                                  (map num_of_int group_sizes)))
        (ValueError axis0_msg) ;;;
      (* Extract grouping from solution *)
      let mouse_grouping := where_columns x_arr in
      (* Make sure the first group is group 1 rather than group 0 *)
      let mouse_grouping := map (fun c => c + 1) mouse_grouping in
      (* Compute group deviations *)
      let y_pos_arr := map (y_pos_val s) (seq 0 num_groups) in
      let y_neg_arr := map (y_neg_val s) (seq 0 num_groups) in
      let group_deviations :=
        map (fun p => num_sub (fst p) (snd p)) (combine y_pos_arr y_neg_arr) in
      (* Extract objective value *)
      let objective_value := objective_value s in
      (* Verify objective value against group deviations *)
      raise_if (negb (num_isclose objective_value (sum_abs group_deviations)))
        (ValueError objective_msg) ;;;
      Ok (mouse_grouping, objective_value, group_deviations)
  end.

(** [optimize m max_seconds] stands for [model.optimize(max_seconds)] of the
    external solver.  The model is neither printed nor saved:
    [print_model_stats] is false and [model_save_path] is [None]. *)
Definition construct_and_solve_mouse_grouping_model
    (optimize : model num -> Z -> solver_output num)
    (tumor_sizes : list num) (group_sizes : list Z) (max_seconds : Z)
  : result (list Z * num * list num) :=
  (* Verify input *)
  raise_if (max_seconds <? 1)
    (AttributeError "The optimization must run for at least one second.") ;;;
  (* Construct model *)
  mdl <- construct_mouse_grouping_model tumor_sizes group_sizes ;;
  let '(m, num_mice, num_groups) := mdl in
  (* Search for a good solution *)
  let out := optimize m max_seconds in
  extract_solution group_sizes num_mice num_groups out.

(** What the validation checks, entry by entry: every row of the matrix
    sums to 1, every column to the size of its group, and the objective
    value is the sum of the absolute group deviations, each as
    [np.isclose] judges it. *)
Definition rows_sum_to_one (s : solution num) (num_mice num_groups : nat)
  : Prop :=
  forall i, (i < num_mice)%nat ->
    num_isclose (num_sum (map (fun j => x_val s i j) (seq 0 num_groups)))
                (num_of_int 1) = true.

Definition columns_sum_to_sizes
    (s : solution num) (group_sizes : list Z) (num_mice num_groups : nat)
  : Prop :=
  forall j, (j < num_groups)%nat ->
    num_isclose (num_sum (map (fun i => x_val s i j) (seq 0 num_mice)))
                (num_of_int (nth j group_sizes 0)) = true.

Definition objective_matches (s : solution num) (num_groups : nat) : Prop :=
  num_isclose
    (objective_value s)
    (sum_abs (map (fun j => num_sub (y_pos_val s j) (y_neg_val s j))
                  (seq 0 num_groups))) = true.

End Solve.

(** ** The rationals as an instance of the float64 operations

    Values that binary64 represents and sums that it computes exactly (small
    integers, halves and quarters) behave in this instance as in numpy. *)

Definition Qsum (l : list Q) : Q := fold_left Qplus l 0%Q.

Definition Qmean (l : list Q) : Q :=
  (Qsum l / inject_Z (Z.of_nat (List.length l)))%Q.

(** [np.isclose(a, b)]: [|a - b| <= atol + rtol * |b|] with [rtol = 1e-05] and
    [atol = 1e-08]. *)
Definition Qisclose (a b : Q) : bool :=
  Qle_bool (Qabs (a - b)) ((1 # 100000000) + (1 # 100000) * Qabs b)%Q.

#[export] Instance Q_ops : Float64Ops Q := {
  num_of_int := inject_Z;
  num_add := Qplus;
  num_sub := Qminus;
  num_abs := Qabs;
  num_mean := Qmean;
  num_sum := Qsum;
  num_ge0 := Qle_bool 0;
  num_isclose := Qisclose;
  num_nonzero := fun q => negb (Qeq_bool q 0)
}.

(** ** The meaning of a model *)

(** A point of the space of a model: a value for every variable. *)
Definition point : Type := var -> Q.

(** The value of a linear expression at a point. *)
Definition eval (p : point) (e : lin_expr Q) : Q :=
  (Qsum (map (fun t => fst t * p (snd t)) (terms e)) + inject_Z (const e))%Q.

(** The value of a variable is within its declared range: at or above the
    lower bound, and 0 or 1 for a binary variable, whole for an integer
    one. *)
Definition in_range (p : point) (d : var_decl) : Prop :=
  (inject_Z (decl_lb d) <= p (decl_var d))%Q /\
  match decl_type d with
  | BINARY => (p (decl_var d) == 0 \/ p (decl_var d) == 1)%Q
  | CONTINUOUS => True
  | INTEGER => exists z, (p (decl_var d) == inject_Z z)%Q
  end.

(** The point satisfies a model: every variable is in range and every
    constraint holds. *)
Definition feasible (p : point) (m : model Q) : Prop :=
  Forall (in_range p) (vars m) /\
  Forall (fun c => (eval p (lhs c) == eval p (rhs c))%Q) (constrs m).

(** The name that [rename] gives to a column. *)
Definition renamed (k1 v1 k2 v2 n : string) : string :=
  if String.eqb n k1 then v1 else if String.eqb n k2 then v2 else n.

(** ** Exceptions of the remaining functions *)

(** The exceptions above, and those that only pandas and the main program
    raise. *)
Inductive py_exn : Type :=
| Builtin (e : exn)
| IndexError (msg : string)
| NotADirectoryError (msg : string).

(** ** mouse_grouping_utils.py: moving a column *)

(** [df.pop(name)]: the cells of the column and the frame without it, or
    nothing when no column has this name.  The model is that of a frame
    whose column names are distinct. *)
Fixpoint pop (df : data_frame) (name : string)
  : option (list cell * data_frame) :=
  match df with
  | [] => None
  | (n, c) :: df' =>
      if String.eqb n name then Some (c, df')
      else match pop df' name with
           | Some (col, rest) => Some (col, (n, c) :: rest)
           | None => None
           end
  end.

(** [df.insert(loc, name, column)] for [0 <= loc]: the frame with the column
    at position [loc], or the exception for a name that exists already or a
    position beyond the last column. *)
Definition insert (df : data_frame) (loc : nat) (name : string)
    (column : list cell) : py_exn + data_frame :=
  if has_column df name then
    inl (Builtin (ValueError ("cannot insert " ++ name ++ ", already exists")))
  else if (loc <=? List.length df)%nat then
    inr (firstn loc df ++ (name, column) :: skipn loc df)
  else
    inl (IndexError ("index " ++ string_of_nat loc
                     ++ " is out of bounds for axis 0 with size "
                     ++ string_of_nat (List.length df))).

(** The frame is changed in place: the result is the frame after the call and
    the exception that ended it, if any.  [pos] is not negative. *)
Definition move_column_inplace (df : data_frame) (col_name : string) (pos : nat)
  : data_frame * option py_exn :=
  match pop df col_name with
  | None => (df, Some (Builtin (KeyError col_name)))
  | Some (column, df) =>
      match insert df pos col_name column with
      | inl e => (df, Some e)
      | inr df => (df, None)
      end
  end.

(** ** mouse_grouping_mip.py: saving the model *)

Definition slash : Ascii.ascii := Ascii.ascii_of_nat 47.

Fixpoint starts_with (p l : list Ascii.ascii) : bool :=
  match p, l with
  | [], _ => true
  | _ :: _, [] => false
  | a :: p', b :: l' => Ascii.eqb a b && starts_with p' l'
  end.

(** [s.endswith(suffix)] *)
Definition endswith (s suffix : string) : bool :=
  starts_with (rev (list_ascii_of_string suffix)) (rev (list_ascii_of_string s)).

(** The characters before the first slash, and the rest from that slash on. *)
Fixpoint span_slash (l : list Ascii.ascii)
  : list Ascii.ascii * list Ascii.ascii :=
  match l with
  | [] => ([], [])
  | a :: l' =>
      if Ascii.eqb a slash then ([], l)
      else let '(before, rest) := span_slash l' in (a :: before, rest)
  end.

Fixpoint drop_slashes (l : list Ascii.ascii) : list Ascii.ascii :=
  match l with
  | [] => []
  | a :: l' => if Ascii.eqb a slash then drop_slashes l' else l
  end.

(** [os.path.split(p)] on POSIX: the part up to the last slash, without its
    trailing slashes unless it consists of slashes, and the part after it. *)
Definition os_path_split (p : string) : string * string :=
  let '(rtail, rhead) := span_slash (rev (list_ascii_of_string p)) in
  let stripped := drop_slashes rhead in
  let rhead := match stripped with [] => rhead | _ :: _ => stripped end in
  (string_of_list_ascii (rev rhead), string_of_list_ascii (rev rtail)).

(** [isdir] stands for [os.path.isdir]; writing the file and printing are
    left out. *)
Definition save_optimization_model_to_file
    (isdir : string -> bool) (model_save_path : string) : result unit :=
  (* Verify that the model path ends with ".lp" or ".mps" *)
  raise_if (negb (endswith model_save_path ".lp"
                  || endswith model_save_path ".mps"))
    (ValueError ("Model save path must end with " ++ quoted ".lp" ++ " or "
                 ++ quoted ".mps" ++ " to save the model to a file.")) ;;;
  (* Verify that the model save folder exists *)
  let model_save_folder := fst (os_path_split model_save_path) in
  raise_if (negb (isdir model_save_folder))
    (ValueError ("Invalid model save folder: " ++ quoted model_save_folder)) ;;;
  (* Save model *)
  Ok tt.

Section SolveSaving.

Context {num : Type} `{Float64Ops num}.

(** [construct_and_solve_mouse_grouping_model] with its last two arguments:
    [print_model_stats], a Boolean, passes the test [not in [True, False]]
    and only prints; a [model_save_path] that is neither [None] nor empty has
    the model saved before the search starts. *)
Definition construct_and_solve_mouse_grouping_model_saving
    (isdir : string -> bool)
    (optimize : model num -> Z -> solver_output num)
    (tumor_sizes : list num) (group_sizes : list Z) (max_seconds : Z)
    (print_model_stats : bool) (model_save_path : option string)
  : result (list Z * num * list num) :=
  (* Verify input *)
  raise_if (max_seconds <? 1)
    (AttributeError "The optimization must run for at least one second.") ;;;
  (* Construct model *)
  mdl <- construct_mouse_grouping_model tumor_sizes group_sizes ;;
  let '(m, num_mice, num_groups) := mdl in
  (* Save the model to a file (if a valid model_save_path is given) *)
  match model_save_path with
  | Some path =>
      if String.eqb path EmptyString then Ok tt
      else save_optimization_model_to_file isdir path
  | None => Ok tt
  end ;;;
  (* Search for a good solution *)
  let out := optimize m max_seconds in
  extract_solution group_sizes num_mice num_groups out.

End SolveSaving.

(** ** mouse_grouping_utils.py: the table of groups *)

(** A key put in its place among increasing keys; a key that is there
    already is not put twice. *)
Fixpoint insert_key (k : Q) (keys : list Q) : list Q :=
  match keys with
  | [] => [k]
  | k' :: keys' =>
      if Qeq_bool k k' then keys
      else if Qle_bool k k' then k :: keys
      else k' :: insert_key k keys'
  end.

(** The keys of [df.groupby(name)] for the column [groups]: its distinct
    values in increasing order; rows with a missing value are dropped. *)
Definition groupby_keys (groups : list cell) : list Q :=
  fold_right (fun c keys => match c with
                            | Some k => insert_key k keys
                            | None => keys
                            end)
             [] groups.

(** [df.groupby(name)[column]] at the key [k]: the cells of [values] in the
    rows whose cell of [groups] is [k]. *)
Definition group_cells (groups values : list cell) (k : Q) : list cell :=
  map snd (filter (fun p => cell_eqb (fst p) (Some k)) (combine groups values)).

(** In [construct_mouse_groups_data_frame]:
    [df.groupby(group_column_name)[id_column_name].unique()] *)
Definition mouse_ids_in_group (groups ids : list cell) : list (list cell) :=
  map (fun k => unique (group_cells groups ids k)) (groupby_keys groups).

(** [[len(lst) for lst in mouse_ids_in_group]] *)
Definition num_mice_in_group (groups ids : list cell) : list nat :=
  map (fun lst => List.length lst) (mouse_ids_in_group groups ids).

(** ** mouse_grouping_utils.py: the cell formats of the output file *)

(** An Excel cell format: a dictionary of properties. *)
Definition cell_format : Type := list (string * string).

(** [d[key]] for a dictionary with string keys, in insertion order. *)
Fixpoint dict_get {V : Type} (d : list (string * V)) (key : string)
  : result V :=
  match d with
  | [] => Raise (KeyError key)
  | (k, v) :: d' => if String.eqb k key then Ok v else dict_get d' key
  end.

Definition get_column_formats_by_sheet_name
  : list (string * list (string * cell_format)) :=
  (* Cell formats *)
  let format_str : cell_format := [] in
  let format_int : cell_format := [("num_format", "#0")]%string in
  let format_float2 : cell_format := [("num_format", "#,##0.00")]%string in
  let format_float4 : cell_format := [("num_format", "#,####0.0000")]%string in
  (* Column formats by sheet name *)
  [("mouse_grouping",
    [("group", format_int);
     ("mouse_id", format_int);
     ("tumor_size", format_float2)]);
   ("group_statistics",
    [("group", format_int);
     ("num_mice_in_group", format_int);
     ("mouse_ids_in_group", format_str);
     ("tumor_size_mean", format_float2);
     ("overall_mean_diff", format_float4)])]%string.

(** [df.columns.get_loc(name)] for distinct column names *)
Fixpoint get_loc (columns : list string) (name : string) : result nat :=
  match columns with
  | [] => Raise (KeyError name)
  | c :: columns' =>
      if String.eqb c name then Ok 0%nat
      else idx <- get_loc columns' name ;; Ok (S idx)
  end.

(** [_modify_column_number_formats] on a frame with the given column names:
    the calls of [set_column] made on the sheet, each with the index of the
    column and the format, when every column is found. *)
Fixpoint modify_column_number_formats
    (columns : list string)
    (column_formats_by_colum_name : list (string * cell_format))
  : result (list (nat * cell_format)) :=
  match column_formats_by_colum_name with
  | [] => Ok []
  | (col_name, col_format) :: rest =>
      col_idx <- get_loc columns col_name ;;
      calls <- modify_column_number_formats columns rest ;;
      Ok ((col_idx, col_format) :: calls)
  end.

(** ** mouse_grouping_core.py: the main program *)

Record MouseGroupingConfig : Type := {
  input_file_path : string;
  output_folder_path : string;
  min_group_size : Z;
  max_seconds : Z;
  print_model_stats : bool;
  save_model : bool;
  xlsx_file_name : string;
  plot_file_name : string;
  model_file_name : string;
  orig_id_column_name : string;
  orig_tumor_size_column_name : string;
  id_column_name : string;
  tumor_size_column_name : string;
  group_column_name : string
}.

(** [MouseGroupingConfig(input_file_path, output_folder_path)]: the other
    fields at their default values. *)
Definition default_config (input_file_path output_folder_path : string)
  : MouseGroupingConfig :=
  {| input_file_path := input_file_path;
     output_folder_path := output_folder_path;
     min_group_size := 5;
     max_seconds := 10;
     print_model_stats := false;
     save_model := false;
     xlsx_file_name := "mouse_grouping.xlsx";
     plot_file_name := "mouse_grouping.png";
     model_file_name := "mouse_grouping.lp";
     orig_id_column_name := "Mouse ID";
     orig_tumor_size_column_name := "Tumor size";
     id_column_name := "mouse_id";
     tumor_size_column_name := "tumor_size";
     group_column_name := "group" |}.

(** [cfg.save_model = b] *)
Definition set_save_model (b : bool) (cfg : MouseGroupingConfig)
  : MouseGroupingConfig :=
  {| input_file_path := input_file_path cfg;
     output_folder_path := output_folder_path cfg;
     min_group_size := min_group_size cfg;
     max_seconds := max_seconds cfg;
     print_model_stats := print_model_stats cfg;
     save_model := b;
     xlsx_file_name := xlsx_file_name cfg;
     plot_file_name := plot_file_name cfg;
     model_file_name := model_file_name cfg;
     orig_id_column_name := orig_id_column_name cfg;
     orig_tumor_size_column_name := orig_tumor_size_column_name cfg;
     id_column_name := id_column_name cfg;
     tumor_size_column_name := tumor_size_column_name cfg;
     group_column_name := group_column_name cfg |}.

(** [cfg.min_group_size = n] *)
Definition set_min_group_size (n : Z) (cfg : MouseGroupingConfig)
  : MouseGroupingConfig :=
  {| input_file_path := input_file_path cfg;
     output_folder_path := output_folder_path cfg;
     min_group_size := n;
     max_seconds := max_seconds cfg;
     print_model_stats := print_model_stats cfg;
     save_model := save_model cfg;
     xlsx_file_name := xlsx_file_name cfg;
     plot_file_name := plot_file_name cfg;
     model_file_name := model_file_name cfg;
     orig_id_column_name := orig_id_column_name cfg;
     orig_tumor_size_column_name := orig_tumor_size_column_name cfg;
     id_column_name := id_column_name cfg;
     tumor_size_column_name := tumor_size_column_name cfg;
     group_column_name := group_column_name cfg |}.

(** [os.path.join(a, b)] on POSIX *)
Definition os_path_join (a b : string) : string :=
  if starts_with [slash] (list_ascii_of_string b) then b
  else if String.eqb a EmptyString || endswith a "/" then (a ++ b)%string
  else (a ++ String slash b)%string.

(** [df.shape[0]]: the number of rows, read off the first column. *)
Definition shape0 (df : data_frame) : nat :=
  match df with
  | [] => 0
  | (_, c) :: _ => List.length c
  end.

(** The frame with the cells of the first column named [name] replaced, or
    nothing when no column has this name. *)
Fixpoint replace_column (df : data_frame) (name : string) (column : list cell)
  : option data_frame :=
  match df with
  | [] => None
  | (n, c) :: df' =>
      if String.eqb n name then Some ((n, column) :: df')
      else option_map (cons (n, c)) (replace_column df' name column)
  end.

(** [df[name] = column] for an array [column]: the column takes the place of
    the one of that name, or comes last when there is none. *)
Definition set_column (df : data_frame) (name : string) (column : list cell)
  : result data_frame :=
  raise_if (negb (List.length column =? shape0 df)%nat)
    (ValueError ("Length of values (" ++ string_of_nat (List.length column)
                 ++ ") does not match length of index ("
                 ++ string_of_nat (shape0 df) ++ ")")) ;;;
  match replace_column df name column with
  | Some df' => Ok df'
  | None => Ok (df ++ [(name, column)])
  end.

Section Core.

Context {num : Type} `{Float64Ops num}.

(** [find_optimal_mouse_grouping] up to the frame that holds the grouping in
    its first column; the tables, the files and the plot that are made from
    this frame, and all printing, are left out.  [num_of_cell] reads a cell
    as a float; [read_excel], [isdir] and [optimize] stand for the file
    system and the solver. *)
Definition find_optimal_mouse_grouping
    (num_of_cell : cell -> num)
    (read_excel : string -> option data_frame)
    (isdir : string -> bool)
    (optimize : model num -> Z -> solver_output num)
    (cfg : MouseGroupingConfig) : py_exn + data_frame :=
  (* Load and verify input data *)
  match load_and_verify_mouse_id_and_tumor_size_data_frame read_excel
          (input_file_path cfg) (orig_id_column_name cfg)
          (orig_tumor_size_column_name cfg)
          (id_column_name cfg) (tumor_size_column_name cfg) with
  | Raise e => inl (Builtin e)
  | Ok df =>
      (* Verify output folder *)
      if negb (isdir (output_folder_path cfg)) then
        inl (NotADirectoryError
               ("Output folder not found: " ++ quoted (output_folder_path cfg)))
      else
        let grouped :=
          (* Define group sizes *)
          let num_mice := Z.of_nat (shape0 df) in
          group_sizes <- compute_group_sizes num_mice (min_group_size cfg) ;;
          (* Extract tumor sizes *)
          column <- get_column df (tumor_size_column_name cfg) ;;
          let tumor_sizes := map num_of_cell column in
          let model_save_path :=
            if save_model cfg
            then Some (os_path_join (output_folder_path cfg)
                                    (model_file_name cfg))
            else None in
          (* Construct and run optimization model *)
          solved <- construct_and_solve_mouse_grouping_model_saving
                      isdir optimize tumor_sizes group_sizes (max_seconds cfg)
                      (print_model_stats cfg) model_save_path ;;
          let '(mouse_grouping, _, _) := solved in
          (* Add computed grouping to the data frame *)
          set_column df (group_column_name cfg)
            (map (fun label => Some (inject_Z label)) mouse_grouping) in
        match grouped with
        | Raise e => inl (Builtin e)
        | Ok df =>
            match move_column_inplace df (group_column_name cfg) 0 with
            | (df, None) => inr df
            | (_, Some e) => inl e
            end
        end
  end.

End Core.

(** ** Example inputs *)

(** A solver that stops with the given status and leaves the given values. *)
Definition solver_leaving (st : OptimizationStatus) (v : option (solution Q))
  : model Q -> Z -> solver_output Q :=
  fun _ _ => {| status := st; values := v |}.

(** Mice 0 and 2 in the first group, mouse 1 in the second. *)
Definition binary_solution : solution Q :=
  {| x_val := fun i j => if Bool.eqb (Nat.even i) (j =? 0)%nat then 1%Q else 0%Q;
     y_pos_val := fun _ => 0%Q;
     y_neg_val := fun _ => 0%Q;
     objective_value := 0%Q |}.




(** Two mice, each a quarter in one group and three quarters in the other. *)
Definition fractional_solution : solution Q :=
  {| x_val := fun i j => if (i =? j)%nat then (1 # 4)%Q else (3 # 4)%Q;
     y_pos_val := fun _ => 0%Q;
     y_neg_val := fun _ => 0%Q;
     objective_value := 0%Q |}.

(** Two rows with the same mouse ID and different tumor sizes. *)
Definition duplicate_ids : data_frame :=
  [("Mouse ID"%string, [Some (1 # 1); Some (1 # 1)]);
   ("Tumor size"%string, [Some (10 # 1); Some (20 # 1)])]%Q.

(** Two mice with different IDs and the same tumor size. *)
Definition equal_sizes : data_frame :=
  [("Mouse ID"%string, [Some (1 # 1); Some (2 # 1)]);
   ("Tumor size"%string, [Some (10 # 1); Some (10 # 1)])]%Q.

(** The point at the values that a solver leaves. *)
Definition point_of (s : solution Q) : point :=
  fun v =>
    match v with
    | x_var i j => x_val s i j
    | y_pos_var j => y_pos_val s j
    | y_neg_var j => y_neg_val s j
    end.

(** Five mice with tumor sizes from 10 to 50. *)
Definition five_mice : data_frame :=
  [("Mouse ID"%string,
    [Some (1 # 1); Some (2 # 1); Some (3 # 1); Some (4 # 1); Some (5 # 1)]);
   ("Tumor size"%string,
    [Some (10 # 1); Some (20 # 1); Some (30 # 1); Some (40 # 1);
     Some (50 # 1)])]%Q.

(** A cell without a missing value, read as a rational number. *)
Definition Q_of_cell (c : cell) : Q :=
  match c with
  | Some q => q
  | None => 0%Q
  end.

(** * Properties *)

(** ** Rounding to binary64 *)

Module Float64Facts.
Import Float64.

Lemma round_half_even_ge (P Q : Z) :
  0 < Q -> P / Q <= round_half_even P Q.
Proof.
  intros HQ. unfold round_half_even.
  destruct (2 * (P mod Q) ?= Q); try lia.
  destruct (Z.even (P / Q)); lia.
Qed.

Lemma round_half_even_le (P Q : Z) :
  round_half_even P Q <= P / Q + 1.
Proof.
  unfold round_half_even.
  destruct (2 * (P mod Q) ?= Q); try lia.
  destruct (Z.even (P / Q)); lia.
Qed.

Lemma round_half_even_down (P Q : Z) :
  2 * (P mod Q) < Q -> round_half_even P Q = P / Q.
Proof.
  intros Hlt. unfold round_half_even.
  apply Z.compare_lt_iff in Hlt. now rewrite Hlt.
Qed.

Lemma round_half_even_scale (P Q c : Z) :
  0 < Q -> 0 < c -> round_half_even (P * c) (Q * c) = round_half_even P Q.
Proof.
  intros HQ Hc. unfold round_half_even.
  rewrite Z.div_mul_cancel_r by lia.
  rewrite Z.mul_mod_distr_r by lia.
  replace (2 * (P mod Q * c)) with (2 * (P mod Q) * c) by ring.
  destruct (Z.compare_spec (2 * (P mod Q) * c) (Q * c)),
    (Z.compare_spec (2 * (P mod Q)) Q); try reflexivity; nia.
Qed.

(** The rounded value is within half a unit of [P / Q]. *)
Lemma round_half_even_nearest (P Q : Z) :
  0 < Q -> 2 * Z.abs (round_half_even P Q * Q - P) <= Q.
Proof.
  intros HQ. unfold round_half_even.
  pose proof (Z.div_mod P Q ltac:(lia)) as Hdm.
  pose proof (Z.mod_pos_bound P Q HQ) as Hr.
  destruct (Z.compare_spec (2 * (P mod Q)) Q); [| nia | nia].
  destruct (Z.even (P / Q)); nia.
Qed.

(** [binade p q] is at most the exponent of [p / q]. *)
Lemma binade_lower (p q : Z) :
  0 < p -> 0 < q ->
  q * 2 ^ Z.max 0 (binade p q) <= p * 2 ^ Z.max 0 (- binade p q).
Proof.
  intros Hp Hq. unfold binade.
  destruct (Z.leb_spec (q * 2 ^ Z.max 0 (Z.log2 p - Z.log2 q))
              (p * 2 ^ Z.max 0 (- (Z.log2 p - Z.log2 q)))) as [Hle | Hgt];
    [exact Hle | clear Hgt].
  pose proof (Z.log2_spec p Hp) as [Hp1 _].
  pose proof (Z.log2_spec q Hq) as [_ Hq2].
  pose proof (Z.log2_nonneg p) as Hlp.
  pose proof (Z.log2_nonneg q) as Hlq.
  set (lp := Z.log2 p) in *. set (lq := Z.log2 q) in *.
  replace (Z.succ lq) with (lq + 1) in Hq2 by lia.
  destruct (Z.le_gt_cases 0 (lp - lq - 1)) as [Hs | Hs].
  - rewrite (Z.max_r 0 (lp - lq - 1)), (Z.max_l 0 (- (lp - lq - 1))) by lia.
    rewrite Z.pow_0_r, Z.mul_1_r.
    assert (2 ^ lp = 2 ^ (lq + 1) * 2 ^ (lp - lq - 1)) as E.
    { rewrite <- Z.pow_add_r by lia. f_equal. lia. }
    assert (0 < 2 ^ (lp - lq - 1)) by (apply Z.pow_pos_nonneg; lia).
    nia.
  - rewrite (Z.max_l 0 (lp - lq - 1)), (Z.max_r 0 (- (lp - lq - 1))) by lia.
    rewrite Z.pow_0_r, Z.mul_1_r.
    assert (2 ^ (lq + 1) = 2 ^ lp * 2 ^ (- (lp - lq - 1))) as E.
    { rewrite <- Z.pow_add_r by lia. f_equal. lia. }
    assert (0 < 2 ^ (- (lp - lq - 1))) by (apply Z.pow_pos_nonneg; lia).
    nia.
Qed.

(** [binade p q + 1] is above the exponent of [p / q]. *)
Lemma binade_upper (p q : Z) :
  0 < p -> 0 < q ->
  p * 2 ^ Z.max 0 (- (binade p q + 1)) < q * 2 ^ Z.max 0 (binade p q + 1).
Proof.
  intros Hp Hq. unfold binade.
  pose proof (Z.log2_spec p Hp) as [_ Hp2].
  pose proof (Z.log2_spec q Hq) as [Hq1 _].
  pose proof (Z.log2_nonneg p) as Hlp.
  pose proof (Z.log2_nonneg q) as Hlq.
  set (lp := Z.log2 p) in *. set (lq := Z.log2 q) in *.
  replace (Z.succ lp) with (lp + 1) in Hp2 by lia.
  destruct (Z.leb_spec (q * 2 ^ Z.max 0 (lp - lq))
              (p * 2 ^ Z.max 0 (- (lp - lq)))) as [_ | Hgt].
  - destruct (Z.le_gt_cases 0 (lp - lq + 1)) as [Hs | Hs].
    + rewrite (Z.max_r 0 (lp - lq + 1)), (Z.max_l 0 (- (lp - lq + 1))) by lia.
      rewrite Z.pow_0_r, Z.mul_1_r.
      assert (2 ^ (lp + 1) = 2 ^ lq * 2 ^ (lp - lq + 1)) as E.
      { rewrite <- Z.pow_add_r by lia. f_equal. lia. }
      assert (0 < 2 ^ (lp - lq + 1)) by (apply Z.pow_pos_nonneg; lia).
      nia.
    + rewrite (Z.max_l 0 (lp - lq + 1)), (Z.max_r 0 (- (lp - lq + 1))) by lia.
      rewrite Z.pow_0_r, Z.mul_1_r.
      assert (2 ^ lq = 2 ^ (lp + 1) * 2 ^ (- (lp - lq + 1))) as E.
      { rewrite <- Z.pow_add_r by lia. f_equal. lia. }
      assert (0 < 2 ^ (- (lp - lq + 1))) by (apply Z.pow_pos_nonneg; lia).
      nia.
  - replace (lp - lq - 1 + 1) with (lp - lq) by lia. exact Hgt.
Qed.

(** The same bound for the exponent of the significand. *)
Lemma binade_lower_52 (p q e : Z) :
  0 < p -> 0 < q -> e = binade p q - 52 ->
  2 ^ 52 * (q * 2 ^ Z.max 0 e) <= p * 2 ^ Z.max 0 (- e).
Proof.
  intros Hp Hq ->. pose proof (binade_lower p q Hp Hq) as Hb.
  set (t := binade p q) in *.
  destruct (Z.le_gt_cases 0 t) as [Ht | Ht].
  - rewrite (Z.max_r 0 t), (Z.max_l 0 (- t)), Z.pow_0_r, Z.mul_1_r in Hb by lia.
    destruct (Z.le_gt_cases 52 t) as [Ht' | Ht'].
    + rewrite (Z.max_r 0 (t - 52)), (Z.max_l 0 (- (t - 52))), Z.pow_0_r,
        Z.mul_1_r by lia.
      replace (2 ^ t) with (2 ^ 52 * 2 ^ (t - 52)) in Hb
        by (rewrite <- Z.pow_add_r by lia; f_equal; lia).
      lia.
    + rewrite (Z.max_l 0 (t - 52)), (Z.max_r 0 (- (t - 52))), Z.pow_0_r,
        Z.mul_1_r by lia.
      replace (2 ^ 52) with (2 ^ t * 2 ^ (- (t - 52)))
        by (rewrite <- Z.pow_add_r by lia; f_equal; lia).
      assert (0 < 2 ^ (- (t - 52))) by (apply Z.pow_pos_nonneg; lia).
      nia.
  - rewrite (Z.max_l 0 t), (Z.max_r 0 (- t)), Z.pow_0_r, Z.mul_1_r in Hb by lia.
    rewrite (Z.max_l 0 (t - 52)), (Z.max_r 0 (- (t - 52))), Z.pow_0_r,
      Z.mul_1_r by lia.
    replace (2 ^ (- (t - 52))) with (2 ^ (- t) * 2 ^ 52)
      by (rewrite <- Z.pow_add_r by lia; f_equal; lia).
    nia.
Qed.

(** The significand of a rounded positive quotient has its leading bit. *)
Lemma round_pos_significand (p q : Z) :
  0 < p -> 0 < q -> 2 ^ 52 <= fst (round_pos p q).
Proof.
  intros Hp Hq. unfold round_pos. cbn [fst].
  set (e := binade p q - 52).
  pose proof (binade_lower_52 p q e Hp Hq eq_refl) as Hb.
  assert (0 < 2 ^ Z.max 0 e) by (apply Z.pow_pos_nonneg; lia).
  assert (0 < q * 2 ^ Z.max 0 e) as HQ by nia.
  eapply Z.le_trans; [| apply round_half_even_ge; exact HQ].
  apply Z.div_le_lower_bound; [exact HQ | lia].
Qed.

(** Known binary64 values: 2^53 + 1 lies halfway between its two neighbours
    and goes to the even one, 2^53 + 3 goes up to 2^53 + 4; one third and one
    tenth are the doubles 0x3FD5555555555555 and 0x3FB999999999999A. *)
Example of_int64_tie_to_even :
  of_int64 (2 ^ 53 + 1) = Finite (2 ^ 52) 1 /\
  of_int64 (2 ^ 53 + 3) = Finite (2 ^ 52 + 2) 1.
Proof. split; reflexivity. Qed.

Example div_one_third :
  div (of_int64 1) (of_int64 3) = Finite 0x15555555555555 (-54).
Proof. reflexivity. Qed.

Example div_one_tenth :
  div (of_int64 1) (of_int64 10) = Finite 0x1999999999999A (-56).
Proof. reflexivity. Qed.

(** Conversion of a non-zero integer keeps its sign. *)
Lemma of_int64_sign (a : Z) :
  a <> 0 -> exists m e, of_int64 a = Finite (Z.sgn a * m) e /\ 0 < m.
Proof.
  intros Ha. unfold of_int64, round_frac.
  destruct (Z.eqb_spec a 0) as [? | _]; [contradiction |].
  pose proof (round_pos_significand (Z.abs a) 1 ltac:(lia) ltac:(lia)) as Hs.
  destruct (round_pos (Z.abs a) 1) as [m e]. cbn [fst] in Hs.
  exists m, e. split; [reflexivity |].
  assert (0 < 2 ^ 52) by (apply Z.pow_pos_nonneg; lia). lia.
Qed.

Lemma of_int64_zero : of_int64 0 = Finite 0 0.
Proof. reflexivity. Qed.

(** Integers below [2^53] are converted exactly. *)
Lemma of_int64_exact (a : Z) :
  0 < a < 2 ^ 53 ->
  of_int64 a = Finite (a * 2 ^ (52 - Z.log2 a)) (Z.log2 a - 52).
Proof.
  intros [Ha Hlt]. unfold of_int64, round_frac.
  destruct (Z.eqb_spec a 0) as [? | _]; [lia |].
  rewrite Z.abs_eq, Z.sgn_pos by lia.
  pose proof (Z.log2_spec a Ha) as [Hl _].
  pose proof (Z.log2_nonneg a) as Hn.
  assert (Z.log2 a < 53) as Hl53 by (apply Z.log2_lt_pow2; lia).
  unfold round_pos, binade.
  change (Z.log2 1) with 0. rewrite Z.sub_0_r.
  rewrite (Z.max_r 0 (Z.log2 a)), (Z.max_l 0 (- Z.log2 a)) by lia.
  rewrite Z.pow_0_r, Z.mul_1_r.
  replace (1 * 2 ^ Z.log2 a <=? a) with true
    by (symmetry; apply Z.leb_le; lia).
  rewrite (Z.max_l 0 (Z.log2 a - 52)), (Z.max_r 0 (- (Z.log2 a - 52))) by lia.
  rewrite Z.pow_0_r, Z.mul_1_l.
  rewrite round_half_even_down
    by (rewrite Z.mod_1_r; lia).
  change (1 * 1) with 1. rewrite Z.div_1_r.
  replace (- (Z.log2 a - 52)) with (52 - Z.log2 a) by lia. reflexivity.
Qed.

(** The floor of the rounded quotient of [a * c] by [b * c] is the integer
    quotient of [a] by [b], as long as [a] has at most 53 bits. *)
Lemma floor_round_frac (a b c : Z) :
  0 < a < 2 ^ 53 -> 0 < b -> 0 < c ->
  to_int (floor (round_frac (a * c) (b * c))) = Ok (a / b).
Proof.
  intros [Ha Ha53] Hb Hc. unfold round_frac.
  assert (0 < a * c) as Hac by nia.
  assert (0 < b * c) as Hbc by nia.
  destruct (Z.eqb_spec (a * c) 0) as [? | _]; [lia |].
  rewrite Z.abs_eq, Z.sgn_pos by lia.
  unfold round_pos. set (e := binade (a * c) (b * c) - 52).
  pose proof (binade_lower_52 (a * c) (b * c) e Hac Hbc eq_refl) as Hlow.
  assert (0 < 2 ^ 52) as H52 by (apply Z.pow_pos_nonneg; lia).
  assert (2 ^ 53 = 2 * 2 ^ 52) as E53 by reflexivity.
  assert (e <= 0) as He.
  { destruct (Z.le_gt_cases e 0) as [? | Hpos]; [assumption | exfalso].
    rewrite (Z.max_r 0 e), (Z.max_l 0 (- e)), Z.pow_0_r, Z.mul_1_r in Hlow
      by lia.
    assert (2 <= 2 ^ e).
    { change 2 with (2 ^ 1) at 1. apply Z.pow_le_mono_r; lia. }
    assert (2 ^ 52 * (b * 2 ^ e) <= a) by nia.
    nia. }
  rewrite (Z.max_l 0 e), (Z.max_r 0 (- e)), Z.pow_0_r, Z.mul_1_r in Hlow |- *
    by lia.
  set (T := 2 ^ (- e)) in *.
  assert (0 < T) as HT by (apply Z.pow_pos_nonneg; lia).
  replace (a * c * T) with (a * T * c) in Hlow |- * by ring.
  rewrite round_half_even_scale by lia.
  rewrite Z.mul_1_l. cbn [floor to_int].
  rewrite Z.leb_refl, Z.pow_0_r, Z.mul_1_r.
  rewrite Z.shiftl_div_pow2 by lia. fold T.
  assert (2 ^ 52 * b <= a * T) as Hlow' by nia.
  assert (b < 2 * T) as HbT by nia.
  f_equal.
  pose proof (Z.div_mod a b ltac:(lia)) as Hdm.
  pose proof (Z.mod_pos_bound a b Hb) as Hr.
  set (k := a / b) in *. set (r := a mod b) in *.
  pose proof (Z.div_mod (r * T) b ltac:(lia)) as Hdm'.
  pose proof (Z.mod_pos_bound (r * T) b Hb) as Hw.
  set (u := r * T / b) in *. set (w := (r * T) mod b) in *.
  assert (0 <= u < T) as Hu.
  { split.
    - apply Z.div_pos; nia.
    - apply Z.div_lt_upper_bound; nia. }
  assert (a * T = b * (k * T + u) + w) as Hsplit by nia.
  assert (a * T / b = k * T + u) as Hfl.
  { symmetry. apply (Z.div_unique_pos _ _ _ w); lia. }
  assert ((a * T) mod b = w) as Hmod.
  { symmetry. apply (Z.mod_unique_pos _ _ (k * T + u)); lia. }
  pose proof (round_half_even_ge (a * T) b Hb) as Hge.
  pose proof (round_half_even_le (a * T) b) as Hle.
  rewrite Hfl in Hge, Hle.
  symmetry. apply (Z.div_unique_pos _ _ _ (round_half_even (a * T) b - k * T)).
  - split; [lia |].
    destruct (Z.eq_dec u (T - 1)) as [Eu | Nu]; [| lia].
    rewrite round_half_even_down, Hfl; [lia |].
    rewrite Hmod. nia.
  - ring.
Qed.

End Float64Facts.

(** ** [int(np.floor(a / b))] *)

Section FloorTrueDivide.
Import Float64 Float64Facts.

(** Operands below [2^53]: the floor of the float quotient is the integer
    quotient. *)
Lemma floor_true_divide_exact (a b : Z) :
  0 <= a < 2 ^ 53 -> 0 < b < 2 ^ 53 ->
  floor_true_divide a b = Ok (a / b).
Proof.
  intros [Ha Ha53] [Hb Hb53]. unfold floor_true_divide.
  rewrite (of_int64_exact b) by lia.
  assert (0 < 2 ^ (52 - Z.log2 b)) as Hcb.
  { apply Z.pow_pos_nonneg; [lia |].
    assert (Z.log2 b < 53) by (apply Z.log2_lt_pow2; lia). lia. }
  destruct (Z.eq_dec a 0) as [-> | Hnz].
  - rewrite of_int64_zero. cbn [div].
    destruct (Z.eqb_spec (b * 2 ^ (52 - Z.log2 b)) 0) as [E | _]; [nia |].
    rewrite Z.mul_0_r, Z.mul_0_l. reflexivity.
  - rewrite (of_int64_exact a) by lia.
    assert (Z.log2 a < 53) by (apply Z.log2_lt_pow2; lia).
    assert (Z.log2 b < 53) by (apply Z.log2_lt_pow2; lia).
    pose proof (Z.log2_nonneg a). pose proof (Z.log2_nonneg b).
    cbn [div].
    destruct (Z.eqb_spec (b * 2 ^ (52 - Z.log2 b)) 0) as [E | _]; [nia |].
    rewrite Z.sgn_pos, Z.abs_eq, Z.mul_1_l by nia.
    set (la := Z.log2 a) in *. set (lb := Z.log2 b) in *.
    replace (a * 2 ^ (52 - la) * 2 ^ Z.max 0 (la - 52 - (lb - 52)))
      with (a * 2 ^ (52 - la + Z.max 0 (la - lb)))
      by (rewrite Z.pow_add_r by lia; replace (la - 52 - (lb - 52))
            with (la - lb) by lia; ring).
    replace (b * 2 ^ (52 - lb) * 2 ^ Z.max 0 (lb - 52 - (la - 52)))
      with (b * 2 ^ (52 - la + Z.max 0 (la - lb)))
      by (rewrite <- Z.mul_assoc, <- Z.pow_add_r by lia;
          f_equal; f_equal; lia).
    apply floor_round_frac; try lia; apply Z.pow_pos_nonneg; lia.
Qed.


(** A zero divisor gives an infinity or NaN, which [int] refuses. *)
Lemma floor_true_divide_by_zero (a : Z) :
  floor_true_divide a 0 =
    Raise (if a =? 0
           then ValueError "cannot convert float NaN to integer"
           else OverflowError "cannot convert float infinity to integer").
Proof.
  unfold floor_true_divide. rewrite of_int64_zero.
  destruct (Z.eqb_spec a 0) as [-> | Ha]; [reflexivity |].
  destruct (of_int64_sign a Ha) as (m & e & -> & Hm). cbn [div Z.eqb].
  destruct (Z.eqb_spec (Z.sgn a * m) 0) as [E | _]; [nia |].
  unfold inf_of_sign. destruct (0 <=? Z.sgn a * m); reflexivity.
Qed.


End FloorTrueDivide.

(** ** The group-size planner *)

Section Planner.

Lemma np_sum_app (l1 l2 : list Z) :
  np_sum (l1 ++ l2) = np_sum l1 + np_sum l2.
Proof.
  unfold np_sum. induction l1 as [| a l1 IH]; cbn; [reflexivity | lia].
Qed.

Lemma np_sum_repeat (x : Z) (n : nat) :
  np_sum (repeat x n) = x * Z.of_nat n.
Proof.
  unfold np_sum. induction n as [| n IH]; [cbn; lia |].
  cbn [repeat fold_right]. rewrite IH. lia.
Qed.

Lemma firstn_skipn_repeat (x : Z) (c n : nat) :
  (c <= n)%nat ->
  firstn c (repeat x n) = repeat x c /\
  skipn c (repeat x n) = repeat x (n - c).
Proof.
  revert n. induction c as [| c IH]; intros n Hc.
  - rewrite Nat.sub_0_r. split; reflexivity.
  - destruct n as [| n]; [lia |].
    destruct (IH n ltac:(lia)) as [E1 E2]. cbn. rewrite E1, E2.
    split; reflexivity.
Qed.

Lemma slice_stop_le (len : nat) (stop : Z) : (slice_stop len stop <= len)%nat.
Proof. unfold slice_stop. destruct (Z.ltb_spec stop 0); lia. Qed.

Lemma incr_prefix_repeat (x : Z) (n : nat) (stop : Z) :
  incr_prefix stop (repeat x n) =
    repeat (x + 1) (slice_stop n stop) ++ repeat x (n - slice_stop n stop).
Proof.
  unfold incr_prefix. rewrite repeat_length.
  destruct (firstn_skipn_repeat x _ n (slice_stop_le n stop)) as [-> ->].
  now rewrite map_repeat.
Qed.

Lemma forallb_repeat (f : Z -> bool) (x : Z) (n : nat) :
  forallb f (repeat x n) = (n =? 0)%nat || f x.
Proof.
  induction n as [| n IH]; [reflexivity |].
  cbn [repeat forallb]. rewrite IH. cbn. destruct (f x), (n =? 0)%nat; reflexivity.
Qed.

(** The run of the planner once the number of groups is known to be
    non-negative and the float division has produced [q]. *)
Lemma compute_group_sizes_run (n m q : Z) :
  m <> 0 -> 0 <= n / m ->
  floor_true_divide (n mod m) (n / m) = Ok q ->
  compute_group_sizes n m =
    (py_assert (n mod m - n / m * q <? n / m) ;;;
     let c := slice_stop (Z.to_nat (n / m)) (n mod m - n / m * q) in
     let l := repeat (m + q + 1) c ++ repeat (m + q) (Z.to_nat (n / m) - c) in
     py_assert (np_sum l =? n) ;;;
     py_assert (forallb (fun g => m <=? g) l) ;;;
     Ok l).
Proof.
  intros Hm Hk Hq. unfold compute_group_sizes, np_divmod.
  destruct (Z.eqb_spec m 0) as [? | _]; [contradiction |].
  unfold np_repeat. destruct (Z.ltb_spec (n / m) 0) as [? | _]; [lia |].
  cbn [bind]. rewrite Hq. cbn [bind].
  rewrite map_repeat, np_sum_repeat, Z2Nat.id by exact Hk.
  pose proof (Z.div_mod n m Hm) as Hdm.
  replace (n mod m - n / m * q =? n - (m + q) * (n / m)) with true
    by (symmetry; apply Z.eqb_eq; lia).
  cbn [py_assert bind].
  rewrite incr_prefix_repeat. reflexivity.
Qed.

(** With an exact quotient every assertion passes. *)
Lemma compute_group_sizes_exact (n m : Z) :
  1 <= m <= n ->
  floor_true_divide (n mod m) (n / m) = Ok (n mod m / (n / m)) ->
  compute_group_sizes n m = Ok (planned_sizes n m).
Proof.
  intros [Hm Hn] Hq.
  assert (0 < n / m) as Hk by (apply Z.div_str_pos; lia).
  rewrite (compute_group_sizes_run n m _ ltac:(lia) ltac:(lia) Hq).
  pose proof (Z.mod_pos_bound n m ltac:(lia)) as Hr.
  pose proof (Z.div_mod n m ltac:(lia)) as Hdm.
  set (k := n / m) in *. set (r := n mod m) in *.
  pose proof (Z.div_mod r k ltac:(lia)) as Hdm'.
  pose proof (Z.mod_pos_bound r k Hk) as Hf.
  assert (r - k * (r / k) = r mod k) as -> by lia.
  destruct (Z.ltb_spec (r mod k) k) as [_ | ?]; [| lia].
  cbn [py_assert bind].
  assert (slice_stop (Z.to_nat k) (r mod k) = Z.to_nat (r mod k)) as Hc.
  { unfold slice_stop. destruct (Z.ltb_spec (r mod k) 0); lia. }
  cbv zeta. rewrite Hc.
  replace (Z.to_nat k - Z.to_nat (r mod k))%nat with (Z.to_nat (k - r mod k))
    by lia.
  unfold planned_sizes. fold k r.
  rewrite np_sum_app, !np_sum_repeat, forallb_app, !forallb_repeat.
  rewrite !Z2Nat.id by lia.
  replace ((m + r / k + 1) * (r mod k) + (m + r / k) * (k - r mod k) =? n)
    with true by (symmetry; apply Z.eqb_eq; nia).
  assert (0 <= r / k) by (apply Z.div_pos; lia).
  replace (m <=? m + r / k + 1) with true by (symmetry; apply Z.leb_le; lia).
  replace (m <=? m + r / k) with true by (symmetry; apply Z.leb_le; lia).
  rewrite !orb_true_r. reflexivity.
Qed.

(** Whatever the float division produced, a run that passes the assertions
    returns the planned sizes. *)
Lemma compute_group_sizes_sound (n m : Z) (l : list Z) :
  1 <= m <= n -> compute_group_sizes n m = Ok l -> l = planned_sizes n m.
Proof.
  intros [Hm Hn] Hrun.
  assert (0 < n / m) as Hk by (apply Z.div_str_pos; lia).
  destruct (floor_true_divide (n mod m) (n / m)) as [q | e] eqn:Hq.
  2:{ unfold compute_group_sizes, np_divmod, np_repeat in Hrun.
      destruct (Z.eqb_spec m 0) as [? | _]; [lia |].
      destruct (Z.ltb_spec (n / m) 0) as [? | _]; [lia |].
      cbn [bind] in Hrun. rewrite Hq in Hrun. discriminate. }
  rewrite (compute_group_sizes_run n m q ltac:(lia) ltac:(lia) Hq) in Hrun.
  pose proof (Z.mod_pos_bound n m ltac:(lia)) as Hr.
  pose proof (Z.div_mod n m ltac:(lia)) as Hdm.
  set (k := n / m) in *. set (r := n mod m) in *.
  destruct (Z.ltb_spec (r - k * q) k) as [Hlt | ?]; [| discriminate].
  cbn [py_assert bind] in Hrun. cbv zeta in Hrun.
  pose proof (slice_stop_le (Z.to_nat k) (r - k * q)) as Hle.
  set (c := slice_stop (Z.to_nat k) (r - k * q)) in *.
  rewrite np_sum_app, !np_sum_repeat, forallb_app, !forallb_repeat in Hrun.
  destruct (Z.eqb_spec ((m + q + 1) * Z.of_nat c
                        + (m + q) * Z.of_nat (Z.to_nat k - c)) n)
    as [Hsum | ?]; [| discriminate].
  cbn [py_assert bind] in Hrun.
  assert (Z.of_nat c = r - k * q) as Hc by nia.
  assert (0 <= r - k * q) as Hnn by lia.
  assert (c < Z.to_nat k)%nat as Hck by lia.
  replace (Z.to_nat k - c =? 0)%nat with false in Hrun
    by (symmetry; apply Nat.eqb_neq; lia).
  rewrite orb_false_l in Hrun.
  destruct (Z.leb_spec m (m + q)) as [Hq0 | ?];
    [| rewrite andb_false_r in Hrun; discriminate].
  assert (q = r / k) as Eq by (apply Z.div_unique_pos with (r - k * q); lia).
  assert (r - k * q = r mod k) as Ef.
  { apply Z.mod_unique_pos with q; lia. }
  destruct ((c =? 0)%nat || (m <=? m + q + 1)); [| discriminate].
  injection Hrun as <-. unfold planned_sizes. fold k r.
  rewrite <- Eq, <- Ef. f_equal; f_equal; lia.
Qed.

(** The planned sizes sum to the number of mice, respect the minimum, differ
    by at most one, stay below twice the minimum and never increase. *)
Lemma planned_sizes_spec (n m : Z) :
  1 <= m <= n ->
  np_sum (planned_sizes n m) = n /\
  Forall (fun g => m <= g <= 2 * m - 1) (planned_sizes n m) /\
  (forall g h, In g (planned_sizes n m) -> In h (planned_sizes n m) ->
               g - h <= 1) /\
  (forall i j d, (i <= j < List.length (planned_sizes n m))%nat ->
                 nth j (planned_sizes n m) d <= nth i (planned_sizes n m) d).
Proof.
  intros [Hm Hn].
  assert (0 < n / m) as Hk by (apply Z.div_str_pos; lia).
  pose proof (Z.mod_pos_bound n m ltac:(lia)) as Hr.
  pose proof (Z.div_mod n m ltac:(lia)) as Hdm.
  unfold planned_sizes.
  set (k := n / m) in *. set (r := n mod m) in *.
  pose proof (Z.div_mod r k ltac:(lia)) as Hdm'.
  pose proof (Z.mod_pos_bound r k Hk) as Hf.
  assert (0 <= r / k) as Hq by (apply Z.div_pos; lia).
  set (q := r / k) in *. set (f := r mod k) in *.
  assert (forall g, In g (repeat (m + q + 1) (Z.to_nat f) ++
                          repeat (m + q) (Z.to_nat (k - f))) ->
                    (g = m + q + 1 /\ 0 < f) \/ g = m + q) as Hin.
  { intros g Hg. apply in_app_or in Hg as [Hg | Hg];
      pose proof (repeat_spec _ _ _ Hg) as ->; [left | right; reflexivity].
    split; [reflexivity |]. destruct (Z.to_nat f) eqn:E; [destruct Hg | lia]. }
  repeat split.
  - rewrite np_sum_app, !np_sum_repeat, !Z2Nat.id by lia. nia.
  - apply Forall_forall. intros g Hg.
    destruct (Hin g Hg) as [[-> Hpos] | ->]; nia.
  - intros g h Hg Hh.
    destruct (Hin g Hg) as [[-> _] | ->], (Hin h Hh) as [[-> _] | ->]; lia.
  - intros i j d. rewrite length_app, !repeat_length. intros Hij.
    destruct (Nat.lt_ge_cases j (Z.to_nat f)) as [Hj | Hj].
    + rewrite !app_nth1 by (rewrite repeat_length; lia).
      rewrite !nth_repeat_lt by lia. lia.
    + rewrite (app_nth2 _ _ d (n := j)) by (rewrite repeat_length; lia).
      rewrite repeat_length, nth_repeat_lt by lia.
      destruct (Nat.lt_ge_cases i (Z.to_nat f)) as [Hi | Hi].
      * rewrite app_nth1 by (rewrite repeat_length; lia).
        rewrite nth_repeat_lt by lia. lia.
      * rewrite app_nth2 by (rewrite repeat_length; lia).
        rewrite repeat_length, nth_repeat_lt by lia. lia.
Qed.





End Planner.

(** ** The model builder *)

Section Lists.

Context {A B : Type}.

Lemma NoDup_flat_map (f : A -> list B) (l : list A) :
  NoDup l ->
  (forall a, In a l -> NoDup (f a)) ->
  (forall a a' b, In a l -> In a' l -> In b (f a) -> In b (f a') -> a = a') ->
  NoDup (flat_map f l).
Proof.
  intros Hl. induction Hl as [| a l Hnotin Hl IH]; intros Hf Hdisj.
  - constructor.
  - cbn [flat_map]. apply NoDup_app.
    + apply Hf. now left.
    + apply IH.
      * intros a' Ha'. apply Hf. now right.
      * intros a1 a2 b H1 H2. apply Hdisj; now right.
    + intros b Hb Hb'. apply in_flat_map in Hb' as (a' & Ha' & Hb').
      apply Hnotin.
      rewrite (Hdisj a a' b); [assumption | now left | now right | | ];
        assumption.
Qed.

Lemma NoDup_map_injective (f : A -> B) (l : list A) :
  (forall a a', f a = f a' -> a = a') -> NoDup l -> NoDup (map f l).
Proof.
  intros Hinj Hl. apply NoDup_map_NoDup_ForallPairs; [| exact Hl].
  intros a a' _ _. apply Hinj.
Qed.

Lemma combine_map_r (f : A -> B) (l : list A) :
  combine l (map f l) = map (fun a => (a, f a)) l.
Proof.
  induction l as [| a l IH]; [reflexivity |]. cbn. now rewrite IH.
Qed.

Lemma filter_none (p : A -> bool) (l : list A) :
  (forall a, In a l -> p a = false) -> filter p l = [].
Proof.
  induction l as [| a l IH]; intros Hp; [reflexivity |].
  cbn. rewrite (Hp a) by now left. apply IH. intros a' Ha'. apply Hp.
  now right.
Qed.

End Lists.

Section Builder.

Context {num : Type} `{Float64Ops num}.

(** The three checks decide alone whether a model is built. *)
Lemma construct_mouse_grouping_model_accepts
    (tumor_sizes : list num) (group_sizes : list Z) :
  is_ok (construct_mouse_grouping_model tumor_sizes group_sizes) =
    negb (negb (3 <=? List.length tumor_sizes)%nat
          && all_non_negative tumor_sizes)
    && negb (negb (2 <=? List.length group_sizes)%nat
             && all_positive group_sizes)
    && (Z.of_nat (List.length tumor_sizes) =? np_sum group_sizes).
Proof.
  unfold construct_mouse_grouping_model, raise_if.
  destruct (negb (3 <=? List.length tumor_sizes)%nat
            && all_non_negative tumor_sizes); [reflexivity |].
  destruct (negb (2 <=? List.length group_sizes)%nat
            && all_positive group_sizes); [reflexivity |].
  destruct (Z.of_nat (List.length tumor_sizes) =? np_sum group_sizes);
    reflexivity.
Qed.

(** What a model that was built says about its dimensions. *)
Lemma construct_mouse_grouping_model_dims
    (tumor_sizes : list num) (group_sizes : list Z)
    (m : model num) (num_mice num_groups : nat) :
  construct_mouse_grouping_model tumor_sizes group_sizes
    = Ok (m, num_mice, num_groups) ->
  num_mice = List.length tumor_sizes /\
  num_groups = List.length group_sizes.
Proof.
  unfold construct_mouse_grouping_model, raise_if.
  destruct (negb (3 <=? List.length tumor_sizes)%nat
            && all_non_negative tumor_sizes); [discriminate |].
  destruct (negb (2 <=? List.length group_sizes)%nat
            && all_positive group_sizes); [discriminate |].
  destruct (Z.of_nat (List.length tumor_sizes) =? np_sum group_sizes);
    [| discriminate].
  cbn [negb bind]. intros [= _ <- <-]. split; reflexivity.
Qed.

(** A model that was built has at least one mouse and two groups. *)
Lemma construct_mouse_grouping_model_sizes
    (tumor_sizes : list num) (group_sizes : list Z)
    (m : model num) (num_mice num_groups : nat) :
  construct_mouse_grouping_model tumor_sizes group_sizes
    = Ok (m, num_mice, num_groups) ->
  (1 <= num_mice)%nat /\ (2 <= num_groups)%nat.
Proof.
  intros Hok.
  destruct (construct_mouse_grouping_model_dims _ _ _ _ _ Hok) as [-> ->].
  pose proof (construct_mouse_grouping_model_accepts tumor_sizes group_sizes)
    as Hacc.
  rewrite Hok in Hacc. cbn [is_ok] in Hacc. symmetry in Hacc.
  apply andb_true_iff in Hacc as [Hacc Hsum].
  apply andb_true_iff in Hacc as [Hts Hgs]. apply Z.eqb_eq in Hsum.
  destruct tumor_sizes as [| t ts]; [discriminate Hts |].
  split; [cbn; lia |].
  destruct group_sizes as [| g [| g' gs]]; [discriminate Hgs | | cbn; lia].
  cbn in Hgs, Hsum. destruct (Z.ltb_spec 0 g); [discriminate Hgs | lia].
Qed.

Lemma x_decls_NoDup (num_mice num_groups : nat) :
  NoDup (flat_map
           (fun i => map (fun j => add_var BINARY 0 (x_var i j))
                         (seq 0 num_groups))
           (seq 0 num_mice)).
Proof.
  apply NoDup_flat_map.
  - apply seq_NoDup.
  - intros i _. apply NoDup_map_injective; [| apply seq_NoDup].
    intros j j' [= E]. exact E.
  - intros i i' d _ _ Hd Hd'.
    apply in_map_iff in Hd as (j & <- & _).
    apply in_map_iff in Hd' as (j' & [= E _] & _). now symmetry.
Qed.

Lemma nth_error_map_seq {X : Type} (f : nat -> X) (n i : nat) :
  (i < n)%nat -> nth_error (map f (seq 0 n)) i = Some (f i).
Proof.
  intros Hi. rewrite nth_error_map, nth_error_seq.
  destruct (Nat.ltb_spec i n); [reflexivity | lia].
Qed.

(** The centered value of mouse [i]. *)
Lemma tumor_size_differences_nth (tumor_sizes : list num) (i : nat) (d : num) :
  (i < List.length tumor_sizes)%nat ->
  nth i (tumor_size_differences tumor_sizes) d =
    num_sub (nth i tumor_sizes d) (num_mean tumor_sizes).
Proof.
  intros Hi. unfold tumor_size_differences.
  rewrite (nth_indep _ d (num_sub d (num_mean tumor_sizes)))
    by (rewrite length_map; exact Hi).
  apply (map_nth (fun v => num_sub v (num_mean tumor_sizes))).
Qed.

End Builder.

(** ** The validation of a solution *)

Section Validation.

Context {num : Type} `{Float64Ops num}.

Lemma forallb_combine_nth {X Y : Type} (P : X -> Y -> bool)
    (l1 : list X) (l2 : list Y) (dx : X) (dy : Y) :
  List.length l1 = List.length l2 ->
  (forallb (fun p => P (fst p) (snd p)) (combine l1 l2) = true <->
   forall i, (i < List.length l1)%nat -> P (nth i l1 dx) (nth i l2 dy) = true).
Proof.
  revert l2. induction l1 as [| a l1 IH]; intros [| b l2] Hlen;
    try discriminate.
  - cbn. split; [intros _ i Hi; lia | reflexivity].
  - cbn [combine forallb fst snd List.length]. rewrite andb_true_iff.
    rewrite (IH l2) by (cbn in Hlen; lia). split.
    + intros [Hab Hrest] [| i] Hi; [exact Hab |].
      cbn [nth]. apply Hrest. lia.
    + intros Hall. split.
      * apply (Hall 0%nat). lia.
      * intros i Hi. apply (Hall (S i)). lia.
Qed.

Lemma nth_map_seq {X : Type} (f : nat -> X) (n i : nat) (d : X) :
  (i < n)%nat -> nth i (map f (seq 0 n)) d = f i.
Proof.
  intros Hi. apply nth_error_nth.
  rewrite nth_error_map, nth_error_seq.
  destruct (Nat.ltb_spec i n); [reflexivity | lia].
Qed.

(** The row check of the source is the check of every row. *)
Lemma rows_check (s : solution num) (num_mice num_groups : nat) :
  all_isclose (sum_axis1 (x_arr s num_mice num_groups))
              (repeat (num_of_int 1) num_mice) = true <->
  rows_sum_to_one s num_mice num_groups.
Proof.
  unfold all_isclose, sum_axis1, x_arr, rows_sum_to_one.
  rewrite map_map.
  rewrite (forallb_combine_nth _ _ _ (num_of_int 0) (num_of_int 0))
    by now rewrite length_map, length_seq, repeat_length.
  rewrite length_map, length_seq.
  split; intros Hall i Hi; specialize (Hall i Hi);
    rewrite nth_map_seq, nth_repeat_lt in * by exact Hi; exact Hall.
Qed.

(** The column check of the source is the check of every column. *)
Lemma columns_check
    (s : solution num) (group_sizes : list Z) (num_mice num_groups : nat) :
  List.length group_sizes = num_groups ->
  all_isclose (sum_axis0 (x_arr s num_mice num_groups) num_groups)
              (map num_of_int group_sizes) = true <->
  columns_sum_to_sizes s group_sizes num_mice num_groups.
Proof.
  intros Hlen. unfold all_isclose, sum_axis0, x_arr, columns_sum_to_sizes.
  rewrite (forallb_combine_nth _ _ _ (num_of_int 0) (num_of_int 0))
    by now rewrite !length_map, length_seq.
  rewrite length_map, length_seq.
  assert (forall j, (j < num_groups)%nat ->
            map (fun row => nth j row (num_of_int 0))
                (map (fun i => map (fun j' => x_val s i j') (seq 0 num_groups))
                     (seq 0 num_mice))
            = map (fun i => x_val s i j) (seq 0 num_mice)) as Hcol.
  { intros j Hj. rewrite map_map. apply map_ext. intros i.
    now apply nth_map_seq. }
  split; intros Hall j Hj; specialize (Hall j Hj);
    rewrite nth_map_seq, (map_nth num_of_int), Hcol in * by exact Hj;
    exact Hall.
Qed.

Lemma combine_map_map {X Y Z' : Type} (f : X -> Y) (g : X -> Z') (l : list X) :
  combine (map f l) (map g l) = map (fun a => (f a, g a)) l.
Proof.
  induction l as [| a l IH]; [reflexivity |]. cbn. now rewrite IH.
Qed.

(** The group deviations, group by group. *)
Lemma group_deviations_eq (s : solution num) (num_groups : nat) :
  map (fun p => num_sub (fst p) (snd p))
      (combine (map (y_pos_val s) (seq 0 num_groups))
               (map (y_neg_val s) (seq 0 num_groups)))
  = map (fun j => num_sub (y_pos_val s j) (y_neg_val s j)) (seq 0 num_groups).
Proof. now rewrite combine_map_map, map_map. Qed.

(** The indices read off one row. *)
Lemma where_row (f : nat -> num) (l : list nat) :
  map (fun p => Z.of_nat (fst p) + 1)
      (filter (fun p => num_nonzero (snd p)) (map (fun a => (a, f a)) l))
  = map (fun j => Z.of_nat j + 1) (filter (fun j => num_nonzero (f j)) l).
Proof.
  induction l as [| j l IH]; [reflexivity |].
  cbn [map filter snd]. destruct (num_nonzero (f j)); cbn [map fst];
    now rewrite IH.
Qed.

(** The labels read off the matrix: for every row in turn, the indices of
    its entries with a true value, counted from 1. *)
Lemma mouse_grouping_eq (s : solution num) (num_mice num_groups : nat) :
  map (fun c => c + 1) (where_columns (x_arr s num_mice num_groups))
  = flat_map
      (fun i => map (fun j => Z.of_nat j + 1)
                    (filter (fun j => num_nonzero (x_val s i j))
                            (seq 0 num_groups)))
      (seq 0 num_mice).
Proof.
  unfold where_columns, x_arr.
  generalize (seq 0 num_mice) as rows.
  induction rows as [| i rows IH]; [reflexivity |].
  cbn [map flat_map]. rewrite map_app, IH. f_equal.
  rewrite length_map, length_seq, combine_map_r, !map_map.
  apply where_row.
Qed.

(** The run of the validation on the values of a solution. *)
Lemma extract_solution_run
    (group_sizes : list Z) (num_mice num_groups : nat)
    (st : OptimizationStatus) (s : solution num) :
  extract_solution group_sizes num_mice num_groups
    {| status := st; values := Some s |} =
  (raise_if (negb (all_isclose (sum_axis1 (x_arr s num_mice num_groups))
                               (repeat (num_of_int 1) num_mice)))
     (ValueError axis1_msg) ;;;
   raise_if (negb (all_isclose (sum_axis0 (x_arr s num_mice num_groups)
                                          num_groups)
                               (map num_of_int group_sizes)))
     (ValueError axis0_msg) ;;;
   raise_if (negb (num_isclose
                     (objective_value s)
                     (sum_abs (map (fun j => num_sub (y_pos_val s j)
                                                     (y_neg_val s j))
                                   (seq 0 num_groups)))))
     (ValueError objective_msg) ;;;
   Ok (flat_map
         (fun i => map (fun j => Z.of_nat j + 1)
                       (filter (fun j => num_nonzero (x_val s i j))
                               (seq 0 num_groups)))
         (seq 0 num_mice),
       objective_value s,
       map (fun j => num_sub (y_pos_val s j) (y_neg_val s j))
           (seq 0 num_groups))).
Proof.
  unfold extract_solution. cbn [values].
  now rewrite group_deviations_eq, mouse_grouping_eq.
Qed.

(** The row with a single true entry, at [a]. *)
Lemma filter_single (p : nat -> bool) (n a : nat) :
  (a < n)%nat ->
  (forall j, (j < n)%nat -> (p j = true <-> j = a)) ->
  filter p (seq 0 n) = [a].
Proof.
  intros Ha Hp.
  replace n with (a + (1 + (n - a - 1)))%nat by lia.
  rewrite seq_app, (seq_app 1), !filter_app. cbn [seq filter Nat.add].
  replace (p a) with true by (symmetry; apply Hp; [lia | reflexivity]).
  rewrite !filter_none; [reflexivity | |].
  - intros j Hj. apply in_seq in Hj.
    destruct (p j) eqn:E; [| reflexivity]. apply Hp in E; lia.
  - intros j Hj. apply in_seq in Hj.
    destruct (p j) eqn:E; [| reflexivity]. apply Hp in E; lia.
Qed.

(** Once the time limit is accepted and the model is built, the whole run is
    the validation of what the solver leaves, on a model whose number of
    groups is the number of group sizes. *)
Lemma construct_and_solve_run
    (optimize : model num -> Z -> solver_output num)
    (tumor_sizes : list num) (group_sizes : list Z) (max_seconds : Z)
    (m : model num) (num_mice num_groups : nat) :
  1 <= max_seconds ->
  construct_mouse_grouping_model tumor_sizes group_sizes
    = Ok (m, num_mice, num_groups) ->
  construct_and_solve_mouse_grouping_model
    optimize tumor_sizes group_sizes max_seconds
  = extract_solution group_sizes num_mice num_groups (optimize m max_seconds)
  /\ List.length group_sizes = num_groups
  /\ (1 <= num_mice)%nat /\ (2 <= num_groups)%nat.
Proof.
  intros Hsec Hbuilt. unfold construct_and_solve_mouse_grouping_model.
  replace (max_seconds <? 1) with false by (symmetry; apply Z.ltb_ge; lia).
  cbn [raise_if bind]. rewrite Hbuilt. cbn [bind].
  split; [reflexivity |].
  destruct (construct_mouse_grouping_model_dims _ _ _ _ _ Hbuilt) as [_ ->].
  split; [reflexivity |].
  exact (construct_mouse_grouping_model_sizes _ _ _ _ _ Hbuilt).
Qed.

(** Rows with a single true entry give one label per mouse. *)
Lemma single_labels
    (p : nat -> nat -> bool) (group_of : nat -> nat) (n : nat) (l : list nat) :
  (forall i, In i l -> filter (p i) (seq 0 n) = [group_of i]) ->
  flat_map (fun i => map (fun j => Z.of_nat j + 1) (filter (p i) (seq 0 n))) l
  = map (fun i => Z.of_nat (group_of i) + 1) l.
Proof.
  induction l as [| i l IH]; intros Hl; [reflexivity |].
  cbn [flat_map map]. rewrite (Hl i (or_introl eq_refl)).
  cbn [map app]. f_equal. apply IH. intros i' Hi'. apply Hl. now right.
Qed.

End Validation.

(** ** Exact binaries in the rational instance *)

Section ExactBinaries.

(** The sum of entries that are 0 or 1 counts the entries that are 1. *)
Lemma Qsum_binary (l : list Q) (acc : Q) :
  (forall q, In q l -> q = 0%Q \/ q = 1%Q) ->
  (fold_left Qplus l acc ==
   acc + inject_Z (Z.of_nat (List.length (filter (fun q => num_nonzero q) l))))%Q.
Proof.
  revert acc. induction l as [| q l IH]; intros acc Hbin.
  - cbn. ring.
  - cbn [fold_left filter].
    rewrite IH by (intros q' Hq'; apply Hbin; now right).
    destruct (Hbin q (or_introl eq_refl)) as [-> | ->]; cbn [num_nonzero Q_ops].
    + change (Qeq_bool 0 0) with true. cbn [negb]. ring.
    + change (Qeq_bool 1 0) with false. cbn [negb List.length].
      rewrite Nat2Z.inj_succ, <- Z.add_1_r, inject_Z_plus. ring.
Qed.

(** A count that [np.isclose] takes for 1 is 1. *)
Lemma Qisclose_count (a : Q) (c : nat) :
  (a == inject_Z (Z.of_nat c))%Q -> Qisclose a 1 = true -> c = 1%nat.
Proof.
  intros Ha Hclose. unfold Qisclose in Hclose.
  apply Qle_bool_iff in Hclose. rewrite Ha in Hclose.
  apply Qabs_Qle_condition in Hclose as [Hlo Hhi].
  change (Qabs 1) with 1%Q in Hlo, Hhi.
  unfold Qle, Qminus, Qplus, Qopp, Qmult, inject_Z in Hlo, Hhi.
  cbn in Hlo, Hhi. lia.
Qed.

(** A row of zeros and ones that sums to 1 has its 1 in a single place. *)
Lemma binary_row_single (f : nat -> Q) (n : nat) :
  (forall j, (j < n)%nat -> f j = 0%Q \/ f j = 1%Q) ->
  Qisclose (Qsum (map f (seq 0 n))) 1 = true ->
  exists a,
    filter (fun j => num_nonzero (f j)) (seq 0 n) = [a] /\
    (a < n)%nat /\ f a = 1%Q /\
    forall j, (j < n)%nat -> j <> a -> f j = 0%Q.
Proof.
  intros Hbin Hclose.
  assert (forall q, In q (map f (seq 0 n)) -> q = 0%Q \/ q = 1%Q) as Hbin'.
  { intros q Hq. apply in_map_iff in Hq as (j & <- & Hj).
    apply in_seq in Hj. apply Hbin. lia. }
  pose proof (Qsum_binary _ 0%Q Hbin') as Hsum.
  rewrite Qplus_0_l in Hsum.
  pose proof (Qisclose_count _ _ Hsum Hclose) as Hone.
  assert (filter (fun q => num_nonzero q) (map f (seq 0 n))
          = map f (filter (fun j => num_nonzero (f j)) (seq 0 n))) as Efilter.
  { generalize (seq 0 n) as l. induction l as [| j l IH]; [reflexivity |].
    cbn [map filter]. destruct (num_nonzero (f j)); cbn [map]; now rewrite IH. }
  rewrite Efilter, length_map in Hone.
  destruct (filter (fun j => num_nonzero (f j)) (seq 0 n)) as [| a [| b l]] eqn:E;
    try discriminate Hone.
  exists a. split; [reflexivity |].
  assert (In a (filter (fun j => num_nonzero (f j)) (seq 0 n))) as Ha
    by (rewrite E; now left).
  apply filter_In in Ha as [Ha Hnz]. apply in_seq in Ha.
  split; [lia |]. split.
  - destruct (Hbin a ltac:(lia)) as [E0 | E1]; [| exact E1].
    rewrite E0 in Hnz. discriminate Hnz.
  - intros j Hj Hne. destruct (Hbin j Hj) as [E0 | E1]; [exact E0 |].
    assert (In j (filter (fun j => num_nonzero (f j)) (seq 0 n))) as Hin.
    { apply filter_In. split; [apply in_seq; lia |]. now rewrite E1. }
    rewrite E in Hin. destruct Hin as [-> | []]. contradiction.
Qed.

(** With entries that are exactly 0 or 1, a grouping that is returned has one
    label per mouse: the index, counted from 1, of the mouse's entry 1, which
    is the largest entry of its row. *)
Lemma extract_solution_exact_binaries
    (group_sizes : list Z) (num_mice num_groups : nat)
    (st : OptimizationStatus) (s : solution Q)
    (mouse_grouping : list Z) (objective : Q) (deviations : list Q) :
  extract_solution group_sizes num_mice num_groups
    {| status := st; values := Some s |}
    = Ok (mouse_grouping, objective, deviations) ->
  (forall i j, (i < num_mice)%nat -> (j < num_groups)%nat ->
               x_val s i j = 0%Q \/ x_val s i j = 1%Q) ->
  List.length mouse_grouping = num_mice /\
  forall i, (i < num_mice)%nat ->
    exists j,
      (j < num_groups)%nat /\
      nth i mouse_grouping 0 = Z.of_nat j + 1 /\
      x_val s i j = 1%Q /\
      forall j', (j' < num_groups)%nat -> j' <> j -> x_val s i j' = 0%Q.
Proof.
  rewrite extract_solution_run. unfold raise_if.
  destruct (all_isclose (sum_axis1 _) _) eqn:Er; [| discriminate].
  destruct (negb (all_isclose (sum_axis0 _ _) _)); [discriminate |].
  destruct (negb (num_isclose _ _)); [discriminate |].
  cbn [negb bind]. intros [= <- _ _] Hbin.
  apply rows_check in Er.
  set (group_of := fun i =>
         hd 0%nat (filter (fun j => num_nonzero (x_val s i j))
                          (seq 0 num_groups))).
  assert (forall i, (i < num_mice)%nat ->
            filter (fun j => num_nonzero (x_val s i j)) (seq 0 num_groups)
              = [group_of i] /\
            (group_of i < num_groups)%nat /\ x_val s i (group_of i) = 1%Q /\
            forall j, (j < num_groups)%nat -> j <> group_of i ->
                      x_val s i j = 0%Q) as Hrow.
  { intros i Hi.
    destruct (binary_row_single (fun j => x_val s i j) num_groups
                (fun j Hj => Hbin i j Hi Hj) (Er i Hi)) as (a & E & Ha).
    unfold group_of. rewrite E. cbn [hd]. split; [reflexivity | exact Ha]. }
  rewrite (single_labels (fun i j => negb (Qeq_bool (x_val s i j) 0)) group_of)
    by (intros i Hi; apply in_seq in Hi; apply (Hrow i); lia).
  split; [now rewrite length_map, length_seq |].
  intros i Hi. exists (group_of i).
  destruct (Hrow i Hi) as (_ & Hlt & H1 & H0).
  repeat split; try assumption.
  rewrite (nth_indep _ 0 (Z.of_nat (group_of 0%nat) + 1))
    by (rewrite length_map, length_seq; exact Hi).
  rewrite (map_nth (fun i => Z.of_nat (group_of i) + 1)), seq_nth by exact Hi.
  reflexivity.
Qed.

End ExactBinaries.

(** ** The input loader *)

Section Loader.

Lemma cell_eqb_refl (a : cell) : cell_eqb a a = true.
Proof. destruct a as [q |]; [apply Qeq_bool_refl | reflexivity]. Qed.

Lemma cell_eqb_sym (a b : cell) : cell_eqb a b = true -> cell_eqb b a = true.
Proof.
  destruct a as [q |], b as [q' |]; cbn; try discriminate; try reflexivity.
  apply Qeq_bool_sym.
Qed.

Lemma cell_eqb_trans (a b c : cell) :
  cell_eqb a b = true -> cell_eqb b c = true -> cell_eqb a c = true.
Proof.
  destruct a as [q |], b as [q' |], c as [q'' |]; cbn;
    try discriminate; try reflexivity.
  apply Qeq_bool_trans.
Qed.

Lemma unique_length_le (l : list cell) :
  (List.length (unique l) <= List.length l)%nat.
Proof.
  induction l as [| a l IH]; [reflexivity |]. cbn [unique List.length].
  pose proof (filter_length_le (fun b => negb (cell_eqb a b)) (unique l)).
  lia.
Qed.

Lemma existsb_filter_other (a b : cell) (l : list cell) :
  cell_eqb a b = false ->
  existsb (cell_eqb a) (filter (fun c => negb (cell_eqb b c)) l)
  = existsb (cell_eqb a) l.
Proof.
  intros Hab. induction l as [| c l IH]; [reflexivity |]. cbn [filter existsb].
  destruct (cell_eqb b c) eqn:Ebc; cbn [negb existsb]; rewrite IH.
  - destruct (cell_eqb a c) eqn:Eac; [| reflexivity].
    rewrite (cell_eqb_trans a c b Eac (cell_eqb_sym _ _ Ebc)) in Hab.
    discriminate.
  - reflexivity.
Qed.

(** [unique] keeps a representative of every value. *)
Lemma existsb_unique (a : cell) (l : list cell) :
  existsb (cell_eqb a) (unique l) = existsb (cell_eqb a) l.
Proof.
  induction l as [| b l IH]; [reflexivity |]. cbn [unique existsb].
  destruct (cell_eqb a b) eqn:Eab; [reflexivity |]. cbn [orb].
  now rewrite existsb_filter_other.
Qed.

(** As many distinct values as cells: no value occurs twice. *)
Lemma unique_length_distinct (l : list cell) :
  List.length (unique l) = List.length l -> distinct_cells l = true.
Proof.
  induction l as [| a l IH]; [reflexivity |].
  cbn [unique List.length distinct_cells]. intros Hlen.
  pose proof (filter_length_le (fun b => negb (cell_eqb a b)) (unique l)) as Hf.
  pose proof (unique_length_le l) as Hu.
  rewrite IH by lia. rewrite andb_true_r.
  rewrite <- existsb_unique.
  assert (forallb (fun b => negb (cell_eqb a b)) (unique l) = true) as Hall
    by (apply filter_length_forallb; lia).
  destruct (existsb (cell_eqb a) (unique l)) eqn:E; [| reflexivity].
  apply existsb_exists in E as (b & Hb & Hab).
  rewrite forallb_forall in Hall. specialize (Hall b Hb).
  rewrite Hab in Hall. discriminate.
Qed.

Lemma filter_absent (a : cell) (l : list cell) :
  existsb (cell_eqb a) l = false ->
  filter (fun b => negb (cell_eqb a b)) l = l.
Proof.
  induction l as [| b l IH]; [reflexivity |]. cbn [existsb filter].
  intros [Hab Hl]%orb_false_iff. rewrite Hab. cbn [negb]. f_equal.
  exact (IH Hl).
Qed.

(** Without a repeated value nothing is dropped. *)
Lemma distinct_unique (l : list cell) :
  distinct_cells l = true -> unique l = l.
Proof.
  induction l as [| a l IH]; [reflexivity |].
  cbn [unique distinct_cells]. intros [Ha Hl]%andb_true_iff.
  rewrite IH by exact Hl. f_equal.
  apply filter_absent. now apply negb_true_iff.
Qed.

(** What the loader has checked of a frame that it returns: the tumor sizes
    are pairwise different, present and non-negative, and no ID is missing;
    the IDs themselves are not compared. *)
Lemma load_and_verify_checks
    (read_excel : string -> option data_frame)
    (path orig_id orig_size id size : string) (loaded : data_frame) :
  load_and_verify_mouse_id_and_tumor_size_data_frame
    read_excel path orig_id orig_size id size = Ok loaded ->
  exists df ids sizes,
    read_excel path = Some df /\
    get_column df orig_id = Ok ids /\
    get_column df orig_size = Ok sizes /\
    distinct_cells sizes = true /\
    isna_sum ids = 0%nat /\
    isna_sum sizes = 0%nat /\
    all_ge0 sizes = true /\
    loaded = rename df orig_id id orig_size size.
Proof.
  unfold load_and_verify_mouse_id_and_tumor_size_data_frame, raise_if.
  destruct (read_excel path) as [df |] eqn:Hread; [| discriminate].
  destruct (negb (has_column df orig_id)); [discriminate |].
  destruct (negb (has_column df orig_size)); [discriminate |].
  destruct (String.eqb orig_id orig_size); [discriminate |].
  cbn [bind].
  destruct (get_column df orig_size) as [sizes |] eqn:Hsizes; [| discriminate].
  cbn [bind].
  destruct (Nat.eqb_spec (List.length (unique sizes)) (List.length sizes))
    as [Hu | _]; [| discriminate].
  cbn [negb bind].
  destruct (get_column df orig_id) as [ids |] eqn:Hids; [| discriminate].
  cbn [bind].
  destruct (Nat.eqb_spec (isna_sum ids) 0) as [Hi | _]; [| discriminate].
  destruct (Nat.eqb_spec (isna_sum sizes) 0) as [Hs | _]; [| discriminate].
  cbn [negb bind].
  destruct (all_ge0 sizes) eqn:Hge; [| discriminate].
  cbn [negb bind]. intros [= <-].
  exists df, ids, sizes. repeat split; try assumption; try reflexivity.
  now apply unique_length_distinct.
Qed.

End Loader.

(** * The statements of the specification *)

(** Below [2^53] the planner returns the planned sizes: they sum to the number
    of mice, none is below the minimum and two of them differ by at most
    one. *)
Theorem compute_group_sizes_correct (n m : Z) :
  1 <= m <= n -> n < 2 ^ 53 ->
  exists l,
    compute_group_sizes n m = Ok l /\
    np_sum l = n /\
    Forall (fun g => m <= g) l /\
    (forall g h, In g l -> In h l -> g - h <= 1).
Proof.
  intros Hmn Hn.
  assert (0 < n / m) as Hk by (apply Z.div_str_pos; lia).
  pose proof (Z.mod_pos_bound n m ltac:(lia)) as Hr.
  pose proof (Z.div_mod n m ltac:(lia)) as Hdm.
  assert (n / m <= n) by nia.
  exists (planned_sizes n m).
  destruct (planned_sizes_spec n m Hmn) as (Hsum & Hall & Hdiff & _).
  repeat split; try assumption.
  - apply compute_group_sizes_exact; [exact Hmn |].
    apply floor_true_divide_exact; lia.
  - eapply Forall_impl; [| exact Hall]. cbn. lia.
Qed.

Lemma compute_group_sizes_correct_witness :
  exists l,
    compute_group_sizes 44 5 = Ok l /\
    np_sum l = 44 /\
    Forall (fun g => 5 <= g) l /\
    (forall g h, In g l -> In h l -> g - h <= 1).
Proof.
  apply (compute_group_sizes_correct 44 5); [lia | reflexivity].
Defined.

(** C1. The sizes that the planner returns for [total_items >=
    min_group_size >= 1] sum to [total_items], are at least [min_group_size]
    and differ by at most one, and below [2^53] items the planner does return.
    It does not return for every such pair: with 2^54 + 2^53 + 1 mice and a
    minimum size of 2^54 there is one group and a remainder of 2^53 + 1, which
    binary64 rounds to 2^53; one mouse is left over and the assertion
    [num_final_remainders < num_groups] fails. *)
Theorem compute_group_sizes_inexact_quotient :
  (forall total_items min_group_size l,
     1 <= min_group_size <= total_items ->
     compute_group_sizes total_items min_group_size = Ok l ->
     np_sum l = total_items /\
     Forall (fun g => min_group_size <= g) l /\
     (forall g h, In g l -> In h l -> g - h <= 1)) /\
  (forall total_items min_group_size,
     1 <= min_group_size <= total_items -> total_items < 2 ^ 53 ->
     exists l, compute_group_sizes total_items min_group_size = Ok l) /\
  1 <= 2 ^ 54 <= 2 ^ 54 + 2 ^ 53 + 1 /\
  np_divmod (2 ^ 54 + 2 ^ 53 + 1) (2 ^ 54) = (1, 2 ^ 53 + 1) /\
  floor_true_divide (2 ^ 53 + 1) 1 = Ok (2 ^ 53) /\
  compute_group_sizes (2 ^ 54 + 2 ^ 53 + 1) (2 ^ 54) = Raise AssertionError.
Proof.
  split; [| split].
  - intros n m l Hmn Hrun.
    rewrite (compute_group_sizes_sound _ _ _ Hmn Hrun).
    destruct (planned_sizes_spec _ _ Hmn) as (Hsum & Hall & Hdiff & _).
    split; [exact Hsum |]. split; [| exact Hdiff].
    eapply Forall_impl; [| exact Hall]. cbn. lia.
  - intros n m Hmn Hlt.
    destruct (compute_group_sizes_correct _ _ Hmn Hlt) as (l & Hrun & _).
    exists l. exact Hrun.
  - repeat split; try (vm_compute; congruence).
Qed.

(** C8. The planner's examples: 44 mice with a minimum of 5 give four groups of
    6 and four of 5, 14 mice with a minimum of 5 give two groups of 7, and 199
    mice with a minimum of 50 give groups of 67, 66 and 66. *)
Theorem compute_group_sizes_examples :
  compute_group_sizes 44 5 = Ok [6; 6; 6; 6; 5; 5; 5; 5] /\
  compute_group_sizes 14 5 = Ok [7; 7] /\
  compute_group_sizes 199 50 = Ok [67; 66; 66].
Proof.
  repeat split; vm_compute; reflexivity.
Qed.

(** C10. For [num_mice >= min_group_size >= 1] every group size that
    [compute_group_sizes] returns is at most [2 * min_group_size - 1] and the
    returned sizes never increase along the sequence; below [2^53] mice a
    sequence is returned. *)
Theorem compute_group_sizes_bounded_and_ordered (num_mice min_group_size : Z) :
  1 <= min_group_size <= num_mice ->
  (forall l,
     compute_group_sizes num_mice min_group_size = Ok l ->
     Forall (fun g => g <= 2 * min_group_size - 1) l /\
     (forall i j d, (i <= j < List.length l)%nat -> nth j l d <= nth i l d)) /\
  (num_mice < 2 ^ 53 ->
   exists l, compute_group_sizes num_mice min_group_size = Ok l).
Proof.
  intros Hmn. split.
  - intros l Hrun.
    rewrite (compute_group_sizes_sound _ _ _ Hmn Hrun).
    destruct (planned_sizes_spec _ _ Hmn) as (_ & Hall & _ & Hord).
    split; [| exact Hord].
    eapply Forall_impl; [| exact Hall]. cbn. lia.
  - intros Hlt.
    destruct (compute_group_sizes_correct _ _ Hmn Hlt) as (l & Hrun & _).
    exists l. exact Hrun.
Qed.

Lemma compute_group_sizes_bounded_and_ordered_witness :
  (forall l,
     compute_group_sizes 44 5 = Ok l ->
     Forall (fun g => g <= 2 * 5 - 1) l /\
     (forall i j d, (i <= j < List.length l)%nat -> nth j l d <= nth i l d)) /\
  (44 < 2 ^ 53 -> exists l, compute_group_sizes 44 5 = Ok l).
Proof.
  apply (compute_group_sizes_bounded_and_ordered 44 5). lia.
Defined.




Section BuilderClaims.

Context {num : Type} `{Float64Ops num}.

(** C2. For at least three non-negative values and at least two positive
    group sizes that sum to the number of values, the builder returns a
    minimization model.  Its variables are, each declared once, a binary
    [x_i_j] for every mouse [i] and group [j] and continuous [y_pos_j] and
    [y_neg_j] with lower bound 0 for every group [j].  Its constraints are,
    for every group [j], the sum over [i] of [x_i_j] equal to [g_j]; for
    every mouse [i], the sum over [j] of [x_i_j] equal to 1; for every group
    [j], the sum over [i] of [d_i * x_i_j] equal to [y_pos_j - y_neg_j] with
    [d_i] the value of [i] minus the mean of all values.  Its objective is
    the sum over the groups of [y_pos_j + y_neg_j]. *)
Theorem construct_mouse_grouping_model_formulation
    (values : list num) (group_sizes : list Z) :
  (3 <= List.length values)%nat ->
  all_non_negative values = true ->
  (2 <= List.length group_sizes)%nat ->
  Forall (fun g => 0 < g) group_sizes ->
  np_sum group_sizes = Z.of_nat (List.length values) ->
  let N := List.length values in
  let K := List.length group_sizes in
  let one := num_of_int 1 in
  let d := fun i => num_sub (nth i values (num_of_int 0)) (num_mean values) in
  exists m,
    construct_mouse_grouping_model values group_sizes = Ok (m, N, K) /\
    model_sense m = MINIMIZE /\
    NoDup (vars m) /\
    (forall v,
       In v (vars m) <->
       (exists i j, (i < N)%nat /\ (j < K)%nat /\
                    v = add_var BINARY 0 (x_var i j)) \/
       (exists j, (j < K)%nat /\
                  (v = add_var CONTINUOUS 0 (y_pos_var j) \/
                   v = add_var CONTINUOUS 0 (y_neg_var j)))) /\
    List.length (constrs m) = (K + N + K)%nat /\
    (forall j, (j < K)%nat ->
       nth_error (constrs m) j =
         Some {| lhs := xsum (map (fun i => (one, x_var i j)) (seq 0 N));
                 rhs := constant (nth j group_sizes 0);
                 constr_name := "Mice_in_group_" ++ string_of_nat j |}) /\
    (forall i, (i < N)%nat ->
       nth_error (constrs m) (K + i) =
         Some {| lhs := xsum (map (fun j => (one, x_var i j)) (seq 0 K));
                 rhs := constant 1;
                 constr_name :=
                   "Mouse_" ++ string_of_nat i ++ "_in_one_group" |}) /\
    (forall j, (j < K)%nat ->
       nth_error (constrs m) (K + N + j) =
         Some {| lhs := xsum (map (fun i => (d i, x_var i j)) (seq 0 N));
                 rhs := xsum [(one, y_pos_var j);
                              (num_of_int (-1), y_neg_var j)];
                 constr_name :=
                   "Mean_tumor_diff_in_group_" ++ string_of_nat j |}) /\
    objective m =
      xsum (flat_map (fun j => [(one, y_pos_var j); (one, y_neg_var j)])
                     (seq 0 K)).
Proof.
  intros H3 _ H2 _ Hsum N K one d.
  unfold construct_mouse_grouping_model.
  replace (3 <=? List.length values)%nat with true
    by (symmetry; apply Nat.leb_le; exact H3).
  replace (2 <=? List.length group_sizes)%nat with true
    by (symmetry; apply Nat.leb_le; exact H2).
  replace (Z.of_nat (List.length values) =? np_sum group_sizes) with true
    by (symmetry; apply Z.eqb_eq; lia).
  cbn [negb andb raise_if bind]. fold N K.
  eexists. split; [reflexivity |].
  cbn [model_sense vars constrs objective].
  split; [reflexivity |]. split; [| split]; [| | split; [| repeat split]].
  - (* declared once *)
    apply NoDup_app; [apply x_decls_NoDup | |].
    + apply NoDup_app.
      * apply NoDup_map_injective; [| apply seq_NoDup].
        intros j j' [= E]. exact E.
      * apply NoDup_map_injective; [| apply seq_NoDup].
        intros j j' [= E]. exact E.
      * intros v Hv Hv'. apply in_map_iff in Hv as (j & <- & _).
        apply in_map_iff in Hv' as (j' & [=] & _).
    + intros v Hv Hv'.
      apply in_flat_map in Hv as (i & _ & Hv).
      apply in_map_iff in Hv as (j & <- & _).
      apply in_app_or in Hv' as [Hv' | Hv'];
        apply in_map_iff in Hv' as (j' & [=] & _).
  - (* the variables *)
    intros v. rewrite !in_app_iff, in_flat_map. split.
    + intros [(i & Hi & Hv) | [Hv | Hv]].
      * apply in_map_iff in Hv as (j & <- & Hj).
        apply in_seq in Hi, Hj. left. exists i, j. repeat split; lia.
      * apply in_map_iff in Hv as (j & <- & Hj). apply in_seq in Hj.
        right. exists j. split; [lia | now left].
      * apply in_map_iff in Hv as (j & <- & Hj). apply in_seq in Hj.
        right. exists j. split; [lia | now right].
    + intros [(i & j & Hi & Hj & ->) | (j & Hj & [-> | ->])].
      * left. exists i. split; [apply in_seq; lia |].
        apply in_map_iff. exists j.
        split; [reflexivity | apply in_seq; lia].
      * right. left. apply in_map_iff. exists j.
        split; [reflexivity | apply in_seq; lia].
      * right. right. apply in_map_iff. exists j.
        split; [reflexivity | apply in_seq; lia].
  - rewrite !length_app, !length_map, !length_seq. lia.
  - (* set A *)
    intros j Hj.
    rewrite nth_error_app1 by (rewrite length_map, length_seq; exact Hj).
    now rewrite nth_error_map_seq.
  - (* set B *)
    intros i Hi.
    rewrite nth_error_app2 by (rewrite length_map, length_seq; lia).
    rewrite length_map, length_seq.
    replace (K + i - K)%nat with i by lia.
    rewrite nth_error_app1 by (rewrite length_map, length_seq; exact Hi).
    now rewrite nth_error_map_seq.
  - (* set C *)
    intros j Hj.
    rewrite nth_error_app2 by (rewrite length_map, length_seq; lia).
    rewrite length_map, length_seq.
    rewrite nth_error_app2 by (rewrite length_map, length_seq; lia).
    rewrite length_map, length_seq.
    replace (K + N + j - K - N)%nat with j by lia.
    rewrite nth_error_map_seq by exact Hj.
    do 3 f_equal. apply map_ext_in. intros i Hi. apply in_seq in Hi.
    f_equal. apply tumor_size_differences_nth. fold N. lia.
Qed.

End BuilderClaims.

Lemma construct_mouse_grouping_model_formulation_witness :
  exists m,
    construct_mouse_grouping_model [1#1; 2#1; 3#1]%Q [2; 1]
      = Ok (m, 3%nat, 2%nat) /\
    model_sense m = MINIMIZE /\
    NoDup (vars m) /\
    List.length (constrs m) = 7%nat /\
    nth_error (constrs m) 1 =
      Some {| lhs := xsum [(1%Q, x_var 0 1); (1%Q, x_var 1 1);
                           (1%Q, x_var 2 1)];
              rhs := constant 1;
              constr_name := "Mice_in_group_1" |}.
Proof.
  destruct (construct_mouse_grouping_model_formulation
              (num := Q) [1#1; 2#1; 3#1]%Q [2; 1])
    as (m & Hm & Hsense & Hvars & _ & Hlen & HA & _);
    try (cbn; lia); try reflexivity.
  - repeat constructor.
  - exists m. repeat split; try assumption. apply (HA 1%nat). cbn. lia.
Defined.

(** C6. The builder does not refuse every input that violates a precondition:
    it builds a model for three values of which one is negative, for a group
    of size 0, and for two values of which one is negative.  In the two checks
    at fault, [not a and b] negates the length test alone. *)
Theorem construct_mouse_grouping_model_accepts_invalid :
  (all_non_negative [1 # 1; -1 # 1; 2 # 1]%Q = false /\
   is_ok (construct_mouse_grouping_model [1 # 1; -1 # 1; 2 # 1]%Q [2; 1])
     = true) /\
  (all_positive [3; 0] = false /\
   is_ok (construct_mouse_grouping_model [1 # 1; 1 # 1; 2 # 1]%Q [3; 0])
     = true) /\
  ((List.length [-1 # 1; 1 # 1]%Q < 3)%nat /\
   is_ok (construct_mouse_grouping_model [-1 # 1; 1 # 1]%Q [1; 1]) = true).
Proof.
  repeat split; try reflexivity. cbn. lia.
Qed.

Section ValidationClaims.

Context {num : Type} `{Float64Ops num}.

Lemma extract_solution_values
    (group_sizes : list Z) (num_mice num_groups : nat)
    (out out' : solver_output num) :
  values out = values out' ->
  extract_solution group_sizes num_mice num_groups out =
    extract_solution group_sizes num_mice num_groups out'.
Proof.
  intros E. unfold extract_solution. now rewrite E.
Qed.


(** C7, amended. When the validation returns, the grouping lists, mouse by
    mouse, the indices counted from 1 of the entries of [x] that are not
    zero; neither a threshold of 0.5 nor an argmax is applied.  Every label
    lies between 1 and the number of groups, and when the row of every mouse
    has exactly one entry that is not zero, every mouse has exactly one
    label, the index of that entry counted from 1. *)
Theorem extract_solution_grouping
    (group_sizes : list Z) (num_mice num_groups : nat)
    (out : solver_output num)
    (mouse_grouping : list Z) (objective : num) (deviations : list num) :
  extract_solution group_sizes num_mice num_groups out
    = Ok (mouse_grouping, objective, deviations) ->
  exists s,
    values out = Some s /\
    mouse_grouping =
      flat_map
        (fun i => map (fun j => Z.of_nat j + 1)
                      (filter (fun j => num_nonzero (x_val s i j))
                              (seq 0 num_groups)))
        (seq 0 num_mice) /\
    Forall (fun label => 1 <= label <= Z.of_nat num_groups) mouse_grouping /\
    (forall group_of : nat -> nat,
       (forall i, (i < num_mice)%nat ->
          (group_of i < num_groups)%nat /\
          forall j, (j < num_groups)%nat ->
            (num_nonzero (x_val s i j) = true <-> j = group_of i)) ->
       mouse_grouping =
         map (fun i => Z.of_nat (group_of i) + 1) (seq 0 num_mice)).
Proof.
  destruct out as [st [s |]]; [| discriminate].
  rewrite extract_solution_run. unfold raise_if.
  destruct (negb (all_isclose (sum_axis1 _) _)); [discriminate |].
  destruct (negb (all_isclose (sum_axis0 _ _) _)); [discriminate |].
  destruct (negb (num_isclose _ _)); [discriminate |].
  cbn [bind]. intros [= <- _ _]. exists s.
  split; [reflexivity |]. split; [reflexivity |]. split.
  - apply Forall_forall. intros label Hl.
    apply in_flat_map in Hl as (i & _ & Hl).
    apply in_map_iff in Hl as (j & <- & Hj).
    apply filter_In in Hj as [Hj _]. apply in_seq in Hj. lia.
  - intros group_of Hone.
    apply (single_labels (fun i j => num_nonzero (x_val s i j))).
    intros i Hi. apply in_seq in Hi.
    destruct (Hone i ltac:(lia)) as [Hlt Huniq].
    now apply filter_single.
Qed.

(** C4, amended. The termination status is not consulted: two solvers that
    leave the same values give the same outcome, whatever their statuses.
    When the solver leaves no values, as it does when it found no solution,
    the run fails with the [TypeError] of summing [None] entries. *)
Theorem construct_and_solve_ignores_status
    (optimize optimize' : model num -> Z -> solver_output num)
    (tumor_sizes : list num) (group_sizes : list Z) (max_seconds : Z) :
  (forall m t, values (optimize m t) = values (optimize' m t)) ->
  construct_and_solve_mouse_grouping_model
    optimize tumor_sizes group_sizes max_seconds =
  construct_and_solve_mouse_grouping_model
    optimize' tumor_sizes group_sizes max_seconds /\
  ((forall m t, values (optimize m t) = None) ->
   1 <= max_seconds ->
   is_ok (construct_mouse_grouping_model tumor_sizes group_sizes) = true ->
   construct_and_solve_mouse_grouping_model
     optimize tumor_sizes group_sizes max_seconds =
   Raise (TypeError
            "unsupported operand type(s) for +: 'NoneType' and 'NoneType'")).
Proof.
  intros Hsame. unfold construct_and_solve_mouse_grouping_model. split.
  - destruct (raise_if (max_seconds <? 1) _); [| reflexivity]. cbn [bind].
    destruct (construct_mouse_grouping_model tumor_sizes group_sizes)
      as [[[m N] K] | e]; [| reflexivity].
    cbn [bind]. apply extract_solution_values, Hsame.
  - intros Hnone Hsec Hok.
    replace (max_seconds <? 1) with false by (symmetry; apply Z.ltb_ge; lia).
    cbn [raise_if bind].
    destruct (construct_mouse_grouping_model tumor_sizes group_sizes)
      as [[[m N] K] | e]; [| discriminate].
    cbn [bind]. unfold extract_solution. now rewrite Hnone.
Qed.

End ValidationClaims.


(** C7, as the claim states it, fails: two mice whose rows hold a quarter and
    three quarters pass the validation and come back with four labels. *)
Lemma extract_solution_fractional_labels :
  extract_solution [1; 1] 2 2
    {| status := OPTIMAL; values := Some fractional_solution |}
  = Ok ([1; 2; 1; 2], 0%Q, [0%Q; 0%Q]).
Proof. reflexivity. Qed.

Lemma extract_solution_grouping_witness :
  Forall (fun label => 1 <= label <= 2) [1; 2; 1] /\
  [1; 2; 1] =
    map (fun i => Z.of_nat (if Nat.even i then 0 else 1) + 1) (seq 0 3).
Proof.
  assert (extract_solution [2; 1] 3 2
            {| status := OPTIMAL; values := Some binary_solution |}
          = Ok ([1; 2; 1], 0%Q, [0%Q; 0%Q])) as Hrun by reflexivity.
  destruct (extract_solution_grouping (num := Q) _ _ _ _ _ _ _ Hrun)
    as (s & [= <-] & _ & Hlabels & Hone).
  split; [exact Hlabels |].
  apply (Hone (fun i => if Nat.even i then 0%nat else 1%nat)).
  intros [| [| [| i]]] Hi; try lia; (split; [cbn; lia |]);
    intros [| [| j]] Hj; try lia; cbn; split; congruence.
Defined.

(** C4, as the claim states it, fails: a solver that stops with the status
    ERROR and leaves valid values gets its grouping returned. *)
Lemma construct_and_solve_accepts_error_status :
  construct_and_solve_mouse_grouping_model
    (solver_leaving ERROR (Some binary_solution))
    [1 # 1; 2 # 1; 3 # 1]%Q [2; 1] 10
  = Ok ([1; 2; 1], 0%Q, [0%Q; 0%Q]).
Proof. reflexivity. Qed.

Lemma construct_and_solve_ignores_status_witness :
  construct_and_solve_mouse_grouping_model
    (solver_leaving ERROR (Some binary_solution))
    [1 # 1; 2 # 1; 3 # 1]%Q [2; 1] 10 =
  construct_and_solve_mouse_grouping_model
    (solver_leaving OPTIMAL (Some binary_solution))
    [1 # 1; 2 # 1; 3 # 1]%Q [2; 1] 10 /\
  construct_and_solve_mouse_grouping_model
    (solver_leaving INFEASIBLE None) [1 # 1; 2 # 1; 3 # 1]%Q [2; 1] 10 =
  Raise (TypeError
           "unsupported operand type(s) for +: 'NoneType' and 'NoneType'").
Proof.
  split.
  - apply (construct_and_solve_ignores_status (num := Q)
             (solver_leaving ERROR (Some binary_solution))
             (solver_leaving OPTIMAL (Some binary_solution))).
    intros m t. reflexivity.
  - apply (construct_and_solve_ignores_status (num := Q)
             (solver_leaving INFEASIBLE None) (solver_leaving INFEASIBLE None)).
    + intros m t. reflexivity.
    + intros m t. reflexivity.
    + lia.
    + reflexivity.
Defined.

(** C9. The loader does not refuse duplicate mouse IDs: the uniqueness check
    reads the tumor-size column.  Two rows with one ID and different sizes are
    loaded, and two mice with different IDs and equal sizes are refused as
    duplicate IDs. *)
Theorem load_accepts_duplicate_ids :
  (exists df,
     load_and_verify_mouse_id_and_tumor_size_data_frame
       (fun _ => Some duplicate_ids)
       "input.xlsx" "Mouse ID" "Tumor size" "mouse_id" "tumor_size" = Ok df /\
     get_column df "mouse_id" = Ok [Some (1 # 1); Some (1 # 1)]%Q /\
     distinct_cells [Some (1 # 1); Some (1 # 1)]%Q = false) /\
  load_and_verify_mouse_id_and_tumor_size_data_frame
    (fun _ => Some equal_sizes)
    "input.xlsx" "Mouse ID" "Tumor size" "mouse_id" "tumor_size"
  = Raise (ValueError
             "Not all Mouse IDs in the input Excel file are unique! Please fix.").
Proof.
  split; [| reflexivity].
  eexists. split; [reflexivity |]. split; reflexivity.
Qed.

(** * Further properties of the code *)

(** ** The group-size planner *)

(** X1. Below [2^53] mice the planner makes [k = num_mice div
    min_group_size] groups and splits the mice over them as evenly as can be:
    [num_mice mod k] groups of [num_mice div k + 1] mice, then groups of
    [num_mice div k] mice. *)
Theorem compute_group_sizes_even_split (num_mice min_group_size : Z) :
  1 <= min_group_size <= num_mice -> num_mice < 2 ^ 53 ->
  let k := num_mice / min_group_size in
  exists l,
    compute_group_sizes num_mice min_group_size = Ok l /\
    l = repeat (num_mice / k + 1) (Z.to_nat (num_mice mod k)) ++
        repeat (num_mice / k) (Z.to_nat (k - num_mice mod k)) /\
    Z.of_nat (List.length l) = k.
Proof.
  intros Hmn Hlt k.
  assert (0 < k) as Hk by (apply Z.div_str_pos; lia).
  pose proof (Z.mod_pos_bound num_mice min_group_size ltac:(lia)) as Hr.
  pose proof (Z.div_mod num_mice min_group_size ltac:(lia)) as Hdm.
  fold k in Hdm. set (r := num_mice mod min_group_size) in *.
  assert (k <= num_mice) by nia.
  assert (num_mice / k = min_group_size + r / k) as Hq.
  { rewrite Hdm at 1. now rewrite Z.div_add_l by lia. }
  assert (num_mice mod k = r mod k) as Hf.
  { rewrite Hdm at 1. rewrite Z.add_comm. now rewrite Z.mod_add by lia. }
  pose proof (Z.mod_pos_bound r k Hk) as Hfb.
  eexists. split; [| split; [reflexivity |]].
  - rewrite (compute_group_sizes_exact _ _ Hmn)
      by (apply floor_true_divide_exact; lia).
    unfold planned_sizes. fold k r. rewrite Hq, Hf. reflexivity.
  - rewrite length_app, !repeat_length. lia.
Qed.

Lemma compute_group_sizes_even_split_witness :
  exists l,
    compute_group_sizes 199 50 = Ok l /\
    l = repeat (199 / 3 + 1) (Z.to_nat (199 mod 3)) ++
        repeat (199 / 3) (Z.to_nat (3 - 199 mod 3)) /\
    Z.of_nat (List.length l) = 3.
Proof.
  apply (compute_group_sizes_even_split 199 50); [lia | reflexivity].
Defined.

(** X2. For operands from 0 and below [2^53], [int(np.floor(a / b))] is the
    integer quotient [a div b]; a zero divisor raises, an [OverflowError] for
    a positive dividend and a [ValueError] for zero by zero. *)
Theorem floor_true_divide_floor_division (a b : Z) :
  0 <= a < 2 ^ 53 -> 0 <= b < 2 ^ 53 ->
  floor_true_divide a b =
    if b =? 0
    then Raise (if a =? 0
                then ValueError "cannot convert float NaN to integer"
                else OverflowError "cannot convert float infinity to integer")
    else Ok (a / b).
Proof.
  intros Ha Hb. destruct (Z.eqb_spec b 0) as [-> | Hnz].
  - apply floor_true_divide_by_zero.
  - apply floor_true_divide_exact; lia.
Qed.

Lemma floor_true_divide_floor_division_witness :
  floor_true_divide 49 3 = Ok 16 /\
  floor_true_divide 4 0 =
    Raise (OverflowError "cannot convert float infinity to integer").
Proof.
  split.
  - apply (floor_true_divide_floor_division 49 3); lia.
  - apply (floor_true_divide_floor_division 4 0); lia.
Defined.

(** ** Moving a column *)

Section MoveColumn.

Lemma has_column_In (df : data_frame) (name : string) :
  has_column df name = true <-> In name (columns df).
Proof.
  unfold has_column. rewrite existsb_exists. split.
  - intros (n & Hin & Heq). apply String.eqb_eq in Heq. now subst.
  - intros Hin. exists name. split; [assumption | apply String.eqb_refl].
Qed.

Lemma has_column_false (df : data_frame) (name : string) :
  has_column df name = false <-> ~ In name (columns df).
Proof.
  rewrite <- has_column_In. destruct (has_column df name); split; congruence.
Qed.

Lemma get_column_absent (df : data_frame) (name : string) :
  ~ In name (columns df) -> get_column df name = Raise (KeyError name).
Proof.
  induction df as [| [n c] df IH]; cbn; [reflexivity |].
  intros Hnin. destruct (String.eqb_spec n name) as [-> | _].
  - exfalso. apply Hnin. now left.
  - apply IH. intros Hin. apply Hnin. now right.
Qed.

Lemma get_column_present (df : data_frame) (name : string) (c : list cell) :
  NoDup (columns df) -> In (name, c) df -> get_column df name = Ok c.
Proof.
  induction df as [| [n c'] df IH]; cbn; [contradiction |].
  intros Hnd [Heq | Hin].
  - injection Heq as -> ->. now rewrite String.eqb_refl.
  - inversion Hnd as [| ? ? Hnin Hnd']; subst.
    destruct (String.eqb_spec n name) as [-> | _].
    + exfalso. apply Hnin. change name with (fst (name, c)).
      now apply in_map.
    + now apply IH.
Qed.

Lemma get_column_In (df : data_frame) (name : string) (c : list cell) :
  get_column df name = Ok c -> In (name, c) df.
Proof.
  induction df as [| [n c'] df IH]; cbn; [discriminate |].
  destruct (String.eqb_spec n name) as [-> | _].
  - intros [= ->]. now left.
  - intros Hget. right. now apply IH.
Qed.

(** On frames with distinct column names a lookup depends on the set of
    columns only. *)
Lemma get_column_Permutation (df df' : data_frame) (name : string) :
  NoDup (columns df) -> Permutation df df' ->
  get_column df' name = get_column df name.
Proof.
  intros Hnd Hperm.
  assert (NoDup (columns df')) as Hnd'.
  { apply (Permutation_NoDup (l := columns df)); [| assumption].
    now apply Permutation_map. }
  destruct (get_column df name) as [c | e] eqn:Hget.
  - apply get_column_present; [assumption |].
    apply (Permutation_in _ Hperm). now apply get_column_In.
  - assert (~ In name (columns df)) as Hnin.
    { intros Hin. apply in_map_iff in Hin as ([n c] & Hn & Hin).
      cbn in Hn. subst n.
      rewrite (get_column_present df name c Hnd Hin) in Hget. discriminate. }
    rewrite (get_column_absent df name Hnin) in Hget. rewrite <- Hget.
    apply get_column_absent. intros Hin. apply Hnin.
    apply (Permutation_in (l := columns df')); [| assumption].
    apply Permutation_map. now apply Permutation_sym.
Qed.

Lemma pop_absent (df : data_frame) (name : string) :
  pop df name = None <-> ~ In name (columns df).
Proof.
  induction df as [| [n c] df IH]; cbn.
  - split; [intros _ [] | reflexivity].
  - destruct (String.eqb_spec n name) as [-> | Hne].
    + split; [discriminate | intros Hnin; exfalso; apply Hnin; now left].
    + destruct (pop df name) as [[col rest] |].
      * split; [discriminate |]. intros Hnin. exfalso.
        destruct IH as [_ IH].
        assert (~ In name (columns df)) as Hnin'
          by (intros Hin; apply Hnin; now right).
        specialize (IH Hnin'). discriminate.
      * split; [| reflexivity]. intros _ [Heq | Hin]; [contradiction |].
        destruct IH as [IH _]. now apply IH.
Qed.

(** What [pop] returns: the first column of that name, cut out. *)
Lemma pop_split (df : data_frame) (name : string) (col : list cell)
    (rest : data_frame) :
  pop df name = Some (col, rest) ->
  exists before after,
    df = before ++ (name, col) :: after /\ rest = before ++ after /\
    ~ In name (columns before).
Proof.
  revert rest. induction df as [| [n c] df IH]; cbn; [discriminate |].
  intros rest. destruct (String.eqb_spec n name) as [-> | Hne].
  - intros [= <- <-]. exists [], df. repeat split. intros [].
  - destruct (pop df name) as [[col' rest'] |]; [| discriminate].
    intros [= -> <-].
    destruct (IH rest' eq_refl) as (before & after & -> & -> & Hnin).
    exists ((n, c) :: before), after. repeat split.
    cbn. intros [Heq | Hin]; [contradiction | now apply Hnin].
Qed.

Lemma pop_present (df : data_frame) (name : string) (col : list cell) :
  get_column df name = Ok col ->
  exists rest, pop df name = Some (col, rest).
Proof.
  induction df as [| [n c] df IH]; cbn; [discriminate |].
  destruct (String.eqb_spec n name) as [-> | Hne].
  - intros [= ->]. now exists df.
  - intros Hget. destruct (IH Hget) as (rest & ->). now eexists.
Qed.

Lemma columns_app (a b : data_frame) :
  columns (a ++ b) = columns a ++ columns b.
Proof. apply map_app. Qed.

Lemma insert_Permutation (rest : data_frame) (pos : nat) (p : string * list cell) :
  Permutation (p :: rest) (firstn pos rest ++ p :: skipn pos rest).
Proof.
  rewrite <- (firstn_skipn pos rest) at 1. apply Permutation_middle.
Qed.

Lemma filter_insert {A : Type} (f : A -> bool) (l : list A) (pos : nat) (a : A) :
  f a = false ->
  filter f (firstn pos l ++ a :: skipn pos l) = filter f l.
Proof.
  intros Hfa. rewrite filter_app. cbn. rewrite Hfa, <- filter_app.
  now rewrite firstn_skipn.
Qed.

End MoveColumn.

(** X3. Moving a column that the frame does not have raises [KeyError] and
    leaves the frame as it was; this is the only way for the call to raise
    [KeyError]. *)
Theorem move_column_inplace_missing_column
    (df : data_frame) (col_name : string) (pos : nat) :
  (has_column df col_name = false ->
   move_column_inplace df col_name pos =
     (df, Some (Builtin (KeyError col_name)))) /\
  (forall msg,
     snd (move_column_inplace df col_name pos) = Some (Builtin (KeyError msg)) ->
     has_column df col_name = false).
Proof.
  unfold move_column_inplace. split.
  - intros Hno. apply has_column_false, pop_absent in Hno. now rewrite Hno.
  - intros msg. destruct (pop df col_name) as [[col rest] |] eqn:Hpop.
    + unfold insert.
      destruct (has_column rest col_name); [discriminate |].
      destruct (pos <=? List.length rest)%nat; discriminate.
    + intros _. now apply has_column_false, pop_absent.
Qed.

Lemma move_column_inplace_missing_column_witness :
  move_column_inplace [("Mouse ID", [Some 1%Q]); ("Tumor size", [Some 2%Q])]%string
    "Group" 0 =
  ([("Mouse ID", [Some 1%Q]); ("Tumor size", [Some 2%Q])]%string,
   Some (Builtin (KeyError "Group"))).
Proof.
  apply (move_column_inplace_missing_column
           [("Mouse ID", [Some 1%Q]); ("Tumor size", [Some 2%Q])]%string
           "Group" 0).
  reflexivity.
Defined.

(** X4. In a frame with distinct column names, moving one of its columns to a
    position below the number of columns succeeds: the column stands at that
    position with its cells, the other columns keep their order, every lookup
    by name gives what it gave before, and the names are still distinct. *)
Theorem move_column_inplace_moves
    (df : data_frame) (col_name : string) (col : list cell) (pos : nat) :
  NoDup (columns df) ->
  get_column df col_name = Ok col ->
  (pos < List.length df)%nat ->
  exists df',
    move_column_inplace df col_name pos = (df', None) /\
    nth_error df' pos = Some (col_name, col) /\
    filter (fun p => negb (String.eqb (fst p) col_name)) df' =
      filter (fun p => negb (String.eqb (fst p) col_name)) df /\
    Permutation df df' /\
    (forall name, get_column df' name = get_column df name) /\
    NoDup (columns df').
Proof.
  intros Hnd Hget Hpos.
  destruct (pop_present df col_name col Hget) as (rest & Hpop).
  destruct (pop_split df col_name col rest Hpop)
    as (before & after & Hdf & Hrest & Hbefore).
  assert (Permutation df ((col_name, col) :: rest)) as Hperm.
  { rewrite Hdf, Hrest. apply Permutation_sym, Permutation_middle. }
  assert (NoDup (col_name :: columns rest)) as Hnd'.
  { apply (Permutation_NoDup (l := columns df)); [| assumption].
    change (col_name :: columns rest) with (columns ((col_name, col) :: rest)).
    now apply Permutation_map. }
  inversion Hnd' as [| ? ? Hnin Hndrest]; subst x l.
  assert (List.length df = S (List.length rest)) as Hlen.
  { rewrite (Permutation_length Hperm). reflexivity. }
  assert (pos <= List.length rest)%nat as Hle by lia.
  assert (forall A (a : A) l n, (n <= List.length l)%nat ->
            nth_error (firstn n l ++ a :: skipn n l) n = Some a) as Hnth.
  { intros A a l n Hn. rewrite nth_error_app2 by (rewrite length_firstn; lia).
    rewrite length_firstn, Nat.min_l, Nat.sub_diag by assumption.
    reflexivity. }
  assert (Permutation df (firstn pos rest ++ (col_name, col) :: skipn pos rest))
    as Hperm'.
  { apply (perm_trans Hperm), insert_Permutation. }
  eexists. split; [| split; [| split; [| split; [| split]]]].
  - unfold move_column_inplace, insert. rewrite Hpop.
    apply has_column_false in Hnin. rewrite Hnin.
    apply Nat.leb_le in Hle. rewrite Hle. reflexivity.
  - now apply Hnth.
  - rewrite filter_insert by (cbn; now rewrite String.eqb_refl).
    rewrite Hdf, Hrest, !filter_app. cbn. now rewrite String.eqb_refl.
  - exact Hperm'.
  - intros name. now apply get_column_Permutation.
  - apply (Permutation_NoDup (l := columns df)); [| assumption].
    now apply Permutation_map.
Qed.

Lemma move_column_inplace_moves_witness :
  exists df',
    move_column_inplace
      [("Mouse ID", [Some 1%Q]); ("Tumor size", [Some 2%Q]); ("Group", [Some 3%Q])]%string
      "Group" 0 = (df', None) /\
    nth_error df' 0 = Some ("Group"%string, [Some 3%Q]).
Proof.
  destruct (move_column_inplace_moves
              [("Mouse ID", [Some 1%Q]); ("Tumor size", [Some 2%Q]);
               ("Group", [Some 3%Q])]%string
              "Group" [Some 3%Q] 0) as (df' & Hrun & Hnth & _).
  - repeat constructor; cbn; intuition discriminate.
  - reflexivity.
  - cbn. lia.
  - now exists df'.
Defined.

(** X5. A position beyond the remaining columns makes the call raise
    [IndexError] after the column was taken out: the frame is left without
    the column, its other columns untouched. *)
Theorem move_column_inplace_out_of_bounds
    (df : data_frame) (col_name : string) (col : list cell) (pos : nat) :
  NoDup (columns df) ->
  get_column df col_name = Ok col ->
  (List.length df <= pos)%nat ->
  exists df' msg,
    move_column_inplace df col_name pos = (df', Some (IndexError msg)) /\
    has_column df' col_name = false /\
    df' = filter (fun p => negb (String.eqb (fst p) col_name)) df /\
    S (List.length df') = List.length df.
Proof.
  intros Hnd Hget Hpos.
  destruct (pop_present df col_name col Hget) as (rest & Hpop).
  destruct (pop_split df col_name col rest Hpop)
    as (before & after & Hdf & Hrest & Hbefore).
  assert (Permutation df ((col_name, col) :: rest)) as Hperm.
  { rewrite Hdf, Hrest. apply Permutation_sym, Permutation_middle. }
  assert (NoDup (col_name :: columns rest)) as Hnd'.
  { apply (Permutation_NoDup (l := columns df)); [| assumption].
    change (col_name :: columns rest) with (columns ((col_name, col) :: rest)).
    now apply Permutation_map. }
  inversion Hnd' as [| ? ? Hnin Hndrest]; subst x l.
  assert (List.length df = S (List.length rest)) as Hlen.
  { rewrite (Permutation_length Hperm). reflexivity. }
  exists rest. eexists. split; [| split; [| split]].
  - unfold move_column_inplace, insert. rewrite Hpop.
    apply has_column_false in Hnin. rewrite Hnin.
    replace (pos <=? List.length rest)%nat with false
      by (symmetry; apply Nat.leb_gt; lia).
    reflexivity.
  - now apply has_column_false.
  - rewrite Hdf, filter_app. cbn. rewrite String.eqb_refl. cbn.
    rewrite <- filter_app, <- Hrest. symmetry.
    apply forallb_filter_id. apply forallb_forall. intros [n c] Hin. cbn.
    destruct (String.eqb_spec n col_name) as [-> | _]; [| reflexivity].
    exfalso. apply Hnin. change col_name with (fst (col_name, c)).
    now apply in_map.
  - now rewrite Hlen.
Qed.

Lemma move_column_inplace_out_of_bounds_witness :
  exists df' msg,
    move_column_inplace
      [("Mouse ID", [Some 1%Q]); ("Group", [Some 3%Q])]%string "Group" 2 =
      (df', Some (IndexError msg)) /\
    has_column df' "Group" = false.
Proof.
  destruct (move_column_inplace_out_of_bounds
              [("Mouse ID", [Some 1%Q]); ("Group", [Some 3%Q])]%string
              "Group" [Some 3%Q] 2) as (df' & msg & Hrun & Hno & _).
  - repeat constructor; cbn; intuition discriminate.
  - reflexivity.
  - cbn. lia.
  - now exists df', msg.
Defined.

(** ** Saving the model *)

Section SaveModel.

Lemma list_ascii_of_string_app (s t : string) :
  list_ascii_of_string (s ++ t) = list_ascii_of_string s ++ list_ascii_of_string t.
Proof. induction s as [| a s IH]; cbn; [reflexivity | now rewrite IH]. Qed.

Lemma span_slash_none (l : list Ascii.ascii) :
  ~ In slash l -> span_slash l = (l, []).
Proof.
  induction l as [| a l IH]; [reflexivity |]. intros Hnin.
  cbn [span_slash app]. destruct (Ascii.eqb_spec a slash) as [-> | _].
  - exfalso. apply Hnin. now left.
  - rewrite IH; [reflexivity |]. intros Hin. apply Hnin. now right.
Qed.

Lemma span_slash_first (l rest : list Ascii.ascii) :
  ~ In slash l -> span_slash (l ++ slash :: rest) = (l, slash :: rest).
Proof.
  induction l as [| a l IH]; [reflexivity |]. intros Hnin.
  cbn [span_slash app]. destruct (Ascii.eqb_spec a slash) as [-> | _].
  - exfalso. apply Hnin. now left.
  - rewrite IH; [reflexivity |]. intros Hin. apply Hnin. now right.
Qed.

Lemma os_path_split_file_name (p : string) :
  ~ In slash (list_ascii_of_string p) -> os_path_split p = (EmptyString, p).
Proof.
  intros Hnin. unfold os_path_split.
  rewrite span_slash_none by (now rewrite <- in_rev).
  cbn. now rewrite rev_involutive, string_of_list_ascii_of_string.
Qed.

Lemma os_path_split_folder (folder name : string) (l : list Ascii.ascii)
    (a : Ascii.ascii) :
  list_ascii_of_string folder = l ++ [a] -> a <> slash ->
  ~ In slash (list_ascii_of_string name) ->
  os_path_split (folder ++ String slash name) = (folder, name).
Proof.
  intros Hfolder Ha Hname. unfold os_path_split.
  rewrite list_ascii_of_string_app. cbn [list_ascii_of_string].
  rewrite rev_app_distr. cbn [rev]. rewrite <- app_assoc. cbn [app].
  rewrite span_slash_first by (now rewrite <- in_rev).
  rewrite Hfolder, rev_app_distr. cbn [rev app drop_slashes].
  destruct (Ascii.eqb_spec slash slash) as [_ | Hne]; [| contradiction].
  destruct (Ascii.eqb_spec a slash) as [-> | _]; [contradiction |].
  change (a :: rev l) with (rev [a] ++ rev l).
  rewrite <- rev_app_distr, !rev_involutive, <- Hfolder.
  now rewrite !string_of_list_ascii_of_string.
Qed.

Lemma construct_and_solve_saving_no_path {num : Type} `{Float64Ops num}
    (isdir : string -> bool) (optimize : model num -> Z -> solver_output num)
    (tumor_sizes : list num) (group_sizes : list Z) (max_seconds : Z)
    (print_model_stats : bool) (model_save_path : option string) :
  model_save_path = None \/ model_save_path = Some EmptyString ->
  construct_and_solve_mouse_grouping_model_saving isdir optimize tumor_sizes
    group_sizes max_seconds print_model_stats model_save_path =
  construct_and_solve_mouse_grouping_model optimize tumor_sizes group_sizes
    max_seconds.
Proof.
  unfold construct_and_solve_mouse_grouping_model_saving,
    construct_and_solve_mouse_grouping_model.
  intros [-> | ->]; cbn [String.eqb];
    destruct (max_seconds <? 1); cbn; try reflexivity;
    destruct (construct_mouse_grouping_model tumor_sizes group_sizes)
      as [[[m N] K] | e]; reflexivity.
Qed.

End SaveModel.

(** X6. A save path without a slash names no folder: the folder tested is
    the empty string, so wherever the empty string is no directory (as for
    [os.path.isdir]) a bare file name is refused with [ValueError], whatever
    its suffix. *)
Theorem save_optimization_model_to_file_bare_name
    (isdir : string -> bool) (model_save_path : string) :
  isdir EmptyString = false ->
  ~ In slash (list_ascii_of_string model_save_path) ->
  exists msg,
    save_optimization_model_to_file isdir model_save_path =
      Raise (ValueError msg).
Proof.
  intros Hempty Hbare. unfold save_optimization_model_to_file.
  destruct (endswith model_save_path ".lp" || endswith model_save_path ".mps");
    cbn; [| now eexists].
  rewrite (os_path_split_file_name _ Hbare). cbn. rewrite Hempty. cbn.
  now eexists.
Qed.

Lemma save_optimization_model_to_file_bare_name_witness :
  exists msg,
    save_optimization_model_to_file
      (fun folder => String.eqb folder "out") "mouse_grouping_model.lp" =
      Raise (ValueError msg).
Proof.
  apply (save_optimization_model_to_file_bare_name
           (fun folder => String.eqb folder "out") "mouse_grouping_model.lp").
  - reflexivity.
  - cbn. unfold slash. intuition discriminate.
Defined.

(** X7. For a path [folder/name], where the folder does not end in a slash
    and the name holds none, the folder tested is [folder], and the model is
    saved exactly when the path ends in [.lp] or [.mps] and the folder is a
    directory. *)
Theorem save_optimization_model_to_file_accepts
    (isdir : string -> bool) (folder name : string)
    (l : list Ascii.ascii) (a : Ascii.ascii) :
  list_ascii_of_string folder = l ++ [a] -> a <> slash ->
  ~ In slash (list_ascii_of_string name) ->
  let path := (folder ++ String slash name)%string in
  os_path_split path = (folder, name) /\
  (save_optimization_model_to_file isdir path = Ok tt <->
   (endswith path ".lp" || endswith path ".mps") = true /\
   isdir folder = true).
Proof.
  intros Hfolder Ha Hname path.
  pose proof (os_path_split_folder folder name l a Hfolder Ha Hname) as Hsplit.
  fold path in Hsplit. split; [assumption |].
  unfold save_optimization_model_to_file. rewrite Hsplit. cbn [fst].
  destruct (endswith path ".lp" || endswith path ".mps"); cbn.
  - destruct (isdir folder); cbn; split; intuition discriminate.
  - split; intuition discriminate.
Qed.

Lemma save_optimization_model_to_file_accepts_witness :
  os_path_split "out/mouse_grouping_model.lp" =
    ("out", "mouse_grouping_model.lp")%string /\
  save_optimization_model_to_file
    (fun folder => String.eqb folder "out") "out/mouse_grouping_model.lp" =
    Ok tt.
Proof.
  destruct (save_optimization_model_to_file_accepts
              (fun folder => String.eqb folder "out")
              "out" "mouse_grouping_model.lp"
              (list_ascii_of_string "ou") (Ascii.ascii_of_nat 116))
    as (Hsplit & Hsave).
  - reflexivity.
  - unfold slash. discriminate.
  - cbn. unfold slash. intuition discriminate.
  - split; [exact Hsplit |]. apply Hsave. split; reflexivity.
Defined.

(** X8. A save path that is refused ends the call before the search starts:
    once the time limit and the model are accepted the call raises the
    exception of the save, and no answer of the solver changes the
    outcome. *)
Theorem construct_and_solve_saving_refused_path
    {num : Type} `{Float64Ops num}
    (isdir : string -> bool) (optimize : model num -> Z -> solver_output num)
    (tumor_sizes : list num) (group_sizes : list Z) (max_seconds : Z)
    (print_model_stats : bool) (model_save_path : string) (e : exn) :
  model_save_path <> EmptyString ->
  save_optimization_model_to_file isdir model_save_path = Raise e ->
  construct_and_solve_mouse_grouping_model_saving isdir optimize tumor_sizes
    group_sizes max_seconds print_model_stats (Some model_save_path) =
  (raise_if (max_seconds <? 1)
     (AttributeError "The optimization must run for at least one second.") ;;;
   _ <- construct_mouse_grouping_model tumor_sizes group_sizes ;;
   Raise e).
Proof.
  intros Hne Hsave. unfold construct_and_solve_mouse_grouping_model_saving.
  destruct (max_seconds <? 1); cbn; [reflexivity |].
  destruct (construct_mouse_grouping_model tumor_sizes group_sizes)
    as [[[m N] K] | e']; cbn; [| reflexivity].
  destruct (String.eqb_spec model_save_path EmptyString) as [-> | _];
    [contradiction |].
  now rewrite Hsave.
Qed.

Lemma construct_and_solve_saving_refused_path_witness :
  exists msg,
    construct_and_solve_mouse_grouping_model_saving (fun _ => false)
      (solver_leaving OPTIMAL (Some binary_solution))
      [10; 20; 30]%Q [2; 1] 10 false (Some "model.txt"%string) =
    Raise (ValueError msg).
Proof.
  eexists.
  etransitivity;
    [apply (construct_and_solve_saving_refused_path (fun _ => false)
              (solver_leaving OPTIMAL (Some binary_solution))
              [10; 20; 30]%Q [2; 1] 10 false "model.txt");
     [discriminate | reflexivity] |].
  reflexivity.
Defined.

(** ** The input loader *)

Section LoadedFrame.

Lemma get_column_has (df : data_frame) (name : string) :
  has_column df name = true -> exists c, get_column df name = Ok c.
Proof.
  intros Hhas. apply has_column_In in Hhas.
  induction df as [| [n c] df IH]; cbn in *; [contradiction |].
  destruct (String.eqb_spec n name) as [-> | Hne]; [now eexists |].
  destruct Hhas as [Heq | Hin]; [contradiction | now apply IH].
Qed.

Lemma has_column_get (df : data_frame) (name : string) (c : list cell) :
  get_column df name = Ok c -> has_column df name = true.
Proof.
  intros Hget. apply has_column_In.
  change name with (fst (name, c)). apply in_map.
  now apply get_column_In.
Qed.

Lemma columns_rename (df : data_frame) (k1 v1 k2 v2 : string) :
  columns (rename df k1 v1 k2 v2) = map (renamed k1 v1 k2 v2) (columns df).
Proof.
  unfold columns, rename, renamed. rewrite !map_map.
  apply map_ext. now intros [n c].
Qed.

Lemma cells_rename (df : data_frame) (k1 v1 k2 v2 : string) :
  map snd (rename df k1 v1 k2 v2) = map snd df.
Proof.
  unfold rename. rewrite map_map. apply map_ext. now intros [n c].
Qed.

Lemma get_column_rename_first (df : data_frame) (k1 v1 k2 v2 : string) :
  v1 <> v2 ->
  (forall n, In n (columns df) -> n <> k1 -> n <> k2 -> n <> v1) ->
  get_column df k1 = Raise (KeyError k1) \/
  get_column (rename df k1 v1 k2 v2) v1 = get_column df k1.
Proof.
  intros Hv Hfresh. induction df as [| [n c] df IH]; [now left |].
  cbn [rename map get_column].
  destruct (String.eqb_spec n k1) as [-> | Hn1].
  - right. now rewrite String.eqb_refl.
  - destruct (String.eqb_spec n k2) as [-> | Hn2].
    + destruct (String.eqb_spec v2 v1) as [-> | _]; [contradiction |].
      apply IH. intros m Hin. apply Hfresh. now right.
    + destruct (String.eqb_spec n v1) as [-> | _].
      * exfalso. apply (Hfresh v1); [now left | assumption | assumption
                                     | reflexivity].
      * apply IH. intros m Hin. apply Hfresh. now right.
Qed.

Lemma get_column_rename_second (df : data_frame) (k1 v1 k2 v2 : string) :
  k1 <> k2 -> v1 <> v2 ->
  (forall n, In n (columns df) -> n <> k1 -> n <> k2 -> n <> v2) ->
  get_column df k2 = Raise (KeyError k2) \/
  get_column (rename df k1 v1 k2 v2) v2 = get_column df k2.
Proof.
  intros Hk Hv Hfresh. induction df as [| [n c] df IH]; [now left |].
  cbn [rename map get_column].
  destruct (String.eqb_spec n k1) as [-> | Hn1].
  - destruct (String.eqb_spec v1 v2) as [-> | _]; [contradiction |].
    destruct (String.eqb_spec k1 k2) as [-> | _]; [contradiction |].
    apply IH. intros m Hin. apply Hfresh. now right.
  - destruct (String.eqb_spec n k2) as [-> | Hn2].
    + right. now rewrite String.eqb_refl.
    + destruct (String.eqb_spec n v2) as [-> | _].
      * exfalso. apply (Hfresh v2); [now left | assumption | assumption
                                     | reflexivity].
      * apply IH. intros m Hin. apply Hfresh. now right.
Qed.

Lemma NoDup_columns_rename (df : data_frame) (k1 v1 k2 v2 : string) :
  k1 <> k2 -> v1 <> v2 ->
  (forall n, In n (columns df) -> n <> k1 -> n <> k2 -> n <> v1 /\ n <> v2) ->
  NoDup (columns df) -> NoDup (columns (rename df k1 v1 k2 v2)).
Proof.
  intros Hk Hv Hfresh Hnd. rewrite columns_rename.
  apply NoDup_map_NoDup_ForallPairs; [| assumption].
  intros a b Ha Hb. unfold renamed.
  destruct (String.eqb_spec a k1) as [-> | Ha1],
           (String.eqb_spec b k1) as [-> | Hb1];
    try destruct (String.eqb_spec a k2) as [-> | Ha2];
    try destruct (String.eqb_spec b k2) as [-> | Hb2];
    intros Heq; try congruence; exfalso;
    try (destruct (Hfresh _ Ha Ha1 Ha2); congruence);
    try (destruct (Hfresh _ Hb Hb1 Hb2); congruence).
Qed.

End LoadedFrame.

(** X9. The loader returns a frame exactly when the file is there, the frame
    read from it has both columns under two different names, the tumor sizes
    are pairwise different and none is missing or negative, and no ID is
    missing; the frame returned is the one read, with the two columns
    renamed. *)
Theorem load_and_verify_accepts
    (read_excel : string -> option data_frame)
    (path orig_id orig_size id size : string) (loaded : data_frame) :
  load_and_verify_mouse_id_and_tumor_size_data_frame
    read_excel path orig_id orig_size id size = Ok loaded <->
  exists df ids sizes,
    read_excel path = Some df /\
    get_column df orig_id = Ok ids /\
    get_column df orig_size = Ok sizes /\
    orig_id <> orig_size /\
    distinct_cells sizes = true /\
    isna_sum ids = 0%nat /\
    isna_sum sizes = 0%nat /\
    all_ge0 sizes = true /\
    loaded = rename df orig_id id orig_size size.
Proof.
  unfold load_and_verify_mouse_id_and_tumor_size_data_frame, raise_if. split.
  - destruct (read_excel path) as [df |] eqn:Hread; [| discriminate].
    destruct (negb (has_column df orig_id)); [discriminate |].
    destruct (negb (has_column df orig_size)); [discriminate |].
    destruct (String.eqb_spec orig_id orig_size) as [_ | Hne];
      [discriminate |].
    cbn [bind].
    destruct (get_column df orig_size) as [sizes |] eqn:Hsizes;
      [| discriminate].
    cbn [bind].
    destruct (Nat.eqb_spec (List.length (unique sizes)) (List.length sizes))
      as [Hu | _]; [| discriminate].
    cbn [negb bind].
    destruct (get_column df orig_id) as [ids |] eqn:Hids; [| discriminate].
    cbn [bind].
    destruct (Nat.eqb_spec (isna_sum ids) 0) as [Hi | _]; [| discriminate].
    destruct (Nat.eqb_spec (isna_sum sizes) 0) as [Hs | _]; [| discriminate].
    cbn [negb bind].
    destruct (all_ge0 sizes) eqn:Hge; [| discriminate].
    cbn [negb bind]. intros [= <-].
    exists df, ids, sizes. repeat split; try assumption; try reflexivity.
    now apply unique_length_distinct.
  - intros (df & ids & sizes & -> & Hids & Hsizes & Hne & Hd & Hi & Hs & Hge
            & ->).
    rewrite (has_column_get _ _ _ Hids), (has_column_get _ _ _ Hsizes).
    apply String.eqb_neq in Hne. rewrite Hne. cbn [negb bind].
    rewrite Hsizes, Hids. cbn [bind].
    rewrite (distinct_unique _ Hd), Nat.eqb_refl, Hi, Hs, Hge. reflexivity.
Qed.



(** X11. When the two new names differ and no other column of the file bears
    one of them, the frame returned holds the IDs under the new ID name and
    the tumor sizes under the new size name, cell for cell as they were
    read, and its column names are distinct if those of the file are. *)
Theorem load_and_verify_renamed_columns
    (read_excel : string -> option data_frame)
    (path orig_id orig_size id size : string) (df loaded : data_frame) :
  read_excel path = Some df ->
  load_and_verify_mouse_id_and_tumor_size_data_frame
    read_excel path orig_id orig_size id size = Ok loaded ->
  id <> size ->
  (forall n, In n (columns df) -> n <> orig_id -> n <> orig_size ->
             n <> id /\ n <> size) ->
  get_column loaded id = get_column df orig_id /\
  get_column loaded size = get_column df orig_size /\
  map snd loaded = map snd df /\
  (NoDup (columns df) -> NoDup (columns loaded)).
Proof.
  intros Hread Hload Hv Hfresh.
  destruct (load_and_verify_checks _ _ _ _ _ _ _ Hload)
    as (df' & ids & sizes & Hread' & Hids & Hsizes & _ & _ & _ & _ & ->).
  rewrite Hread in Hread'. injection Hread' as <-.
  assert (orig_id <> orig_size) as Hk.
  { intros ->. revert Hload.
    unfold load_and_verify_mouse_id_and_tumor_size_data_frame, raise_if.
    rewrite Hread, String.eqb_refl.
    destruct (negb (has_column df orig_size)); discriminate. }
  split; [| split; [| split]].
  - destruct (get_column_rename_first df orig_id id orig_size size Hv)
      as [Habs | Heq]; [| congruence | exact Heq].
    intros n Hin H1 H2. now destruct (Hfresh n Hin H1 H2).
  - destruct (get_column_rename_second df orig_id id orig_size size Hk Hv)
      as [Habs | Heq]; [| congruence | exact Heq].
    intros n Hin H1 H2. now destruct (Hfresh n Hin H1 H2).
  - apply cells_rename.
  - now apply NoDup_columns_rename.
Qed.

Lemma load_and_verify_renamed_columns_witness :
  exists loaded,
    get_column loaded "mouse_id" = get_column duplicate_ids "Mouse ID" /\
    get_column loaded "tumor_size" = get_column duplicate_ids "Tumor size".
Proof.
  eexists.
  destruct (load_and_verify_renamed_columns (fun _ => Some duplicate_ids)
              "mice.xlsx" "Mouse ID" "Tumor size" "mouse_id" "tumor_size"
              duplicate_ids _ eq_refl eq_refl) as (Hid & Hsize & _).
  - discriminate.
  - cbn. intros n [<- | [<- | []]] H1 H2; congruence.
  - split; [exact Hid | exact Hsize].
Defined.

(** ** From the planner to the model *)

(** X12. For 3 or more mice (fewer than [2^53]) and a minimum group size
    from 1 up to their number, the sizes that the planner returns are
    accepted by the model builder exactly when there are at least twice the
    minimum group size of mice.  With fewer the planner returns one group of
    all mice, which the builder refuses for want of a second group, whatever
    the tumor sizes. *)
Theorem planned_groups_accepted {num : Type} `{Float64Ops num}
    (tumor_sizes : list num) (min_group_size : Z) :
  let num_mice := Z.of_nat (List.length tumor_sizes) in
  1 <= min_group_size <= num_mice -> 3 <= num_mice < 2 ^ 53 ->
  exists group_sizes,
    compute_group_sizes num_mice min_group_size = Ok group_sizes /\
    if 2 * min_group_size <=? num_mice
    then is_ok (construct_mouse_grouping_model tumor_sizes group_sizes) = true
    else group_sizes = [num_mice] /\
         construct_mouse_grouping_model tumor_sizes group_sizes =
           Raise (AttributeError
                    "There must be at least two groups and none of them can be empty.").
Proof.
  intros num_mice Hm Hn.
  set (k := num_mice / min_group_size).
  set (r := num_mice mod min_group_size).
  assert (0 < k) as Hk by (apply Z.div_str_pos; lia).
  pose proof (Z.mod_pos_bound num_mice min_group_size ltac:(lia)) as Hr.
  pose proof (Z.div_mod num_mice min_group_size ltac:(lia)) as Hdm.
  fold k r in Hdm, Hr.
  assert (k <= num_mice) by nia.
  pose proof (Z.mod_pos_bound r k Hk) as Hrk.
  exists (planned_sizes num_mice min_group_size). split.
  { apply compute_group_sizes_exact; [assumption |].
    apply floor_true_divide_exact; fold k r; lia. }
  destruct (planned_sizes_spec num_mice min_group_size Hm) as (Hsum & _).
  assert (Z.of_nat (List.length (planned_sizes num_mice min_group_size)) = k)
    as Hlen.
  { unfold planned_sizes. fold k r. rewrite length_app, !repeat_length. lia. }
  destruct (Z.leb_spec (2 * min_group_size) num_mice) as [Htwo | Hone].
  - rewrite construct_mouse_grouping_model_accepts.
    assert (2 <= k) by (apply Z.div_le_lower_bound; lia).
    replace (3 <=? List.length tumor_sizes)%nat with true
      by (symmetry; apply Nat.leb_le; lia).
    replace (2 <=? List.length (planned_sizes num_mice min_group_size))%nat
      with true by (symmetry; apply Nat.leb_le; lia).
    cbn [negb andb]. apply Z.eqb_eq. fold num_mice. lia.
  - assert (k = 1) as Hk1 by nia.
    assert (planned_sizes num_mice min_group_size = [num_mice]) as Hp.
    { unfold planned_sizes. fold k r. rewrite Hk1 in *.
      rewrite Z.mod_1_r, Z.div_1_r. cbn [Z.to_nat repeat app].
      change (Z.to_nat (1 - 0)) with 1%nat. cbn [repeat]. f_equal. lia. }
    rewrite Hp. split; [reflexivity |].
    unfold construct_mouse_grouping_model, raise_if.
    replace (3 <=? List.length tumor_sizes)%nat with true
      by (symmetry; apply Nat.leb_le; lia).
    cbn [negb andb bind List.length Nat.leb all_positive forallb].
    replace (0 <? num_mice) with true by (symmetry; apply Z.ltb_lt; lia).
    reflexivity.
Qed.

Lemma planned_groups_accepted_witness :
  (exists group_sizes,
     compute_group_sizes 7 3 = Ok group_sizes /\
     is_ok (construct_mouse_grouping_model
              [1; 2; 3; 4; 5; 6; 7]%Q group_sizes) = true) /\
  (exists group_sizes,
     compute_group_sizes 7 5 = Ok group_sizes /\
     group_sizes = [7] /\
     construct_mouse_grouping_model [1; 2; 3; 4; 5; 6; 7]%Q group_sizes =
       Raise (AttributeError
                "There must be at least two groups and none of them can be empty.")).
Proof.
  split.
  - apply (planned_groups_accepted (num := Q) [1; 2; 3; 4; 5; 6; 7]%Q 3);
      cbn; lia.
  - apply (planned_groups_accepted (num := Q) [1; 2; 3; 4; 5; 6; 7]%Q 5);
      cbn; lia.
Defined.

(** ** Reading a solution of zeros and ones *)

Section BinarySolutions.

Lemma Qisclose_Qeq (a b : Q) : (a == b)%Q -> Qisclose a b = true.
Proof.
  intros Hab. unfold Qisclose. apply Qle_bool_iff.
  assert (Qabs (a - b) == 0)%Q as ->.
  { rewrite Hab. unfold Qminus. rewrite Qplus_opp_r. reflexivity. }
  pose proof (Qabs_nonneg b) as Hb.
  apply Qle_trans with (0 + 0 * Qabs b)%Q; [rewrite Qmult_0_l; discriminate |].
  apply Qplus_le_compat; [discriminate |].
  apply Qmult_le_compat_r; [discriminate | assumption].
Qed.

(** Below 100000 in absolute value, a whole number that [np.isclose] takes
    for the whole number [g] is [g]. *)
Lemma Qisclose_integers (a : Q) (c g : Z) :
  (a == inject_Z c)%Q -> Z.abs g < 100000 ->
  Qisclose a (inject_Z g) = true -> c = g.
Proof.
  intros Ha Hg Hclose. unfold Qisclose in Hclose.
  apply Qle_bool_iff in Hclose. rewrite Ha in Hclose.
  apply Qabs_Qle_condition in Hclose as [Hlo Hhi].
  assert (Qabs (inject_Z g) == inject_Z (Z.abs g))%Q as Habs
    by (unfold Qabs, inject_Z; reflexivity).
  rewrite Habs in Hlo, Hhi.
  unfold Qle, Qminus, Qplus, Qopp, Qmult, inject_Z in Hlo, Hhi.
  cbn [Qnum Qden] in Hlo, Hhi. lia.
Qed.

Lemma filter_map_comm {A B : Type} (p : B -> bool) (f : A -> B) (l : list A) :
  filter p (map f l) = map f (filter (fun a => p (f a)) l).
Proof.
  induction l as [| a l IH]; [reflexivity |]. cbn [map filter].
  destruct (p (f a)); cbn [map]; now rewrite IH.
Qed.

(** The sum of zeros and ones counts the ones. *)
Lemma Qsum_count (f : nat -> Q) (l : list nat) :
  (forall i, In i l -> f i = 0%Q \/ f i = 1%Q) ->
  (Qsum (map f l) ==
   inject_Z (Z.of_nat (List.length (filter (fun i => num_nonzero (f i)) l))))%Q.
Proof.
  intros Hbin. unfold Qsum.
  rewrite (Qsum_binary (map f l) 0%Q).
  - rewrite Qplus_0_l, filter_map_comm, length_map. reflexivity.
  - intros q Hq. apply in_map_iff in Hq as (i & <- & Hi). now apply Hbin.
Qed.

Lemma list_map_nth {A : Type} (l : list A) (d : A) :
  l = map (fun i => nth i l d) (seq 0 (List.length l)).
Proof.
  apply (nth_ext _ _ d d).
  - now rewrite length_map, length_seq.
  - intros i Hi.
    rewrite (nth_indep (map _ _) d (nth 0 l d))
      by (now rewrite length_map, length_seq).
    now rewrite (map_nth (fun i => nth i l d)), seq_nth.
Qed.

Lemma count_occ_map_filter {A : Type} (f : A -> Z) (l : list A) (z : Z) :
  count_occ Z.eq_dec (map f l) z = List.length (filter (fun a => f a =? z) l).
Proof.
  induction l as [| a l IH]; [reflexivity |]. cbn [map count_occ filter].
  destruct (Z.eq_dec (f a) z) as [E | E], (Z.eqb_spec (f a) z);
    try contradiction; cbn [List.length]; now rewrite IH.
Qed.

(** What the validation finds in a solution that holds a grouping as exact
    zeros and ones with every group filled to its size. *)
Lemma binary_grouping_checks
    (group_sizes : list Z) (num_mice num_groups : nat)
    (s : solution Q) (group_of : nat -> nat) :
  List.length group_sizes = num_groups ->
  (forall i, (i < num_mice)%nat -> (group_of i < num_groups)%nat) ->
  (forall i j, (i < num_mice)%nat -> (j < num_groups)%nat ->
     x_val s i j = if (group_of i =? j)%nat then 1%Q else 0%Q) ->
  (forall j, (j < num_groups)%nat ->
     Z.of_nat (List.length (filter (fun i => (group_of i =? j)%nat)
                                   (seq 0 num_mice)))
     = nth j group_sizes 0) ->
  all_isclose (sum_axis1 (x_arr s num_mice num_groups))
              (repeat (num_of_int 1) num_mice) = true /\
  all_isclose (sum_axis0 (x_arr s num_mice num_groups) num_groups)
              (map num_of_int group_sizes) = true /\
  flat_map (fun i => map (fun j => Z.of_nat j + 1)
                         (filter (fun j => num_nonzero (x_val s i j))
                                 (seq 0 num_groups)))
           (seq 0 num_mice)
  = map (fun i => Z.of_nat (group_of i) + 1) (seq 0 num_mice).
Proof.
  intros Hlen Hrange Hx Hfill.
  assert (forall i j, (i < num_mice)%nat -> (j < num_groups)%nat ->
            num_nonzero (x_val s i j) = (group_of i =? j)%nat) as Hnz.
  { intros i j Hi Hj. rewrite (Hx i j Hi Hj).
    now destruct (group_of i =? j)%nat. }
  assert (forall i j, (i < num_mice)%nat -> (j < num_groups)%nat ->
            x_val s i j = 0%Q \/ x_val s i j = 1%Q) as Hbin.
  { intros i j Hi Hj. rewrite (Hx i j Hi Hj).
    destruct (group_of i =? j)%nat; [now right | now left]. }
  assert (forall i, (i < num_mice)%nat ->
            filter (fun j => num_nonzero (x_val s i j)) (seq 0 num_groups)
            = [group_of i]) as Hrow.
  { intros i Hi. apply filter_single; [now apply Hrange |].
    intros j Hj. rewrite (Hnz i j Hi Hj), Nat.eqb_eq. split; congruence. }
  split; [| split].
  - apply rows_check. intros i Hi.
    apply Qisclose_Qeq.
    etransitivity;
      [apply (Qsum_count (fun j => x_val s i j));
       intros j Hj; apply in_seq in Hj; apply Hbin; lia |].
    now rewrite (Hrow i Hi).
  - apply (columns_check s group_sizes num_mice num_groups Hlen).
    intros j Hj. apply Qisclose_Qeq.
    etransitivity;
      [apply (Qsum_count (fun i => x_val s i j));
       intros i Hi; apply in_seq in Hi; apply Hbin; lia |].
    rewrite <- (Hfill j Hj).
    rewrite (filter_ext_in (fun i => num_nonzero (x_val s i j))
                           (fun i => (group_of i =? j)%nat)).
    + reflexivity.
    + intros i Hi. apply in_seq in Hi. apply Hnz; lia.
  - apply (single_labels (fun i j => num_nonzero (x_val s i j)) group_of).
    intros i Hi. apply in_seq in Hi. apply Hrow; lia.
Qed.

End BinarySolutions.

(** X13. In exact arithmetic, a solution that holds a grouping as exact
    zeros and ones (entry [i, j] is 1 when mouse [i] is in group [j]), with
    every group filled to its size and an objective value that matches the
    deviations, is never refused: the labels returned are those of the
    grouping, counted from 1, one per mouse. *)
Theorem extract_solution_round_trip
    (group_sizes : list Z) (num_mice num_groups : nat)
    (st : OptimizationStatus) (s : solution Q) (group_of : nat -> nat) :
  List.length group_sizes = num_groups ->
  (forall i, (i < num_mice)%nat -> (group_of i < num_groups)%nat) ->
  (forall i j, (i < num_mice)%nat -> (j < num_groups)%nat ->
     x_val s i j = if (group_of i =? j)%nat then 1%Q else 0%Q) ->
  (forall j, (j < num_groups)%nat ->
     Z.of_nat (List.length (filter (fun i => (group_of i =? j)%nat)
                                   (seq 0 num_mice)))
     = nth j group_sizes 0) ->
  objective_matches s num_groups ->
  extract_solution group_sizes num_mice num_groups
    {| status := st; values := Some s |} =
  Ok (map (fun i => Z.of_nat (group_of i) + 1) (seq 0 num_mice),
      objective_value s,
      map (fun j => (y_pos_val s j - y_neg_val s j)%Q) (seq 0 num_groups)).
Proof.
  intros Hlen Hrange Hx Hfill Hobj.
  destruct (binary_grouping_checks group_sizes num_mice num_groups s group_of
              Hlen Hrange Hx Hfill) as (Hrows & Hcolumns & Hlabels).
  rewrite extract_solution_run, Hrows, Hcolumns, Hlabels.
  unfold objective_matches in Hobj. rewrite Hobj. reflexivity.
Qed.

Lemma extract_solution_round_trip_witness :
  extract_solution [2; 1] 3 2
    {| status := OPTIMAL; values := Some binary_solution |} =
  Ok ([1; 2; 1], 0%Q, [0 - 0; 0 - 0]%Q).
Proof.
  apply (extract_solution_round_trip [2; 1] 3 2 OPTIMAL binary_solution
           (fun i => if Nat.even i then 0%nat else 1%nat)).
  - reflexivity.
  - intros i Hi. destruct (Nat.even i); lia.
  - intros i j Hi Hj.
    destruct i as [| [| [| i]]], j as [| [| j]]; try lia; reflexivity.
  - intros j Hj. destruct j as [| [| j]]; try lia; reflexivity.
  - reflexivity.
Defined.

(** X14. In exact arithmetic, when a solution of exact zeros and ones is
    accepted and every group size is below 100000 in absolute value, each
    group is filled exactly: the number of mice that bear the label of a
    group is the size asked for it. *)
Theorem extract_solution_group_counts
    (group_sizes : list Z) (num_mice num_groups : nat)
    (st : OptimizationStatus) (s : solution Q)
    (mouse_grouping : list Z) (objective : Q) (deviations : list Q) :
  List.length group_sizes = num_groups ->
  extract_solution group_sizes num_mice num_groups
    {| status := st; values := Some s |}
    = Ok (mouse_grouping, objective, deviations) ->
  (forall i j, (i < num_mice)%nat -> (j < num_groups)%nat ->
               x_val s i j = 0%Q \/ x_val s i j = 1%Q) ->
  Forall (fun g => Z.abs g < 100000) group_sizes ->
  forall j, (j < num_groups)%nat ->
    Z.of_nat (count_occ Z.eq_dec mouse_grouping (Z.of_nat j + 1))
    = nth j group_sizes 0.
Proof.
  intros Hlen Hrun Hbin Hsmall j Hj.
  destruct (extract_solution_exact_binaries _ _ _ _ _ _ _ _ Hrun Hbin)
    as (HlenG & Hlab).
  rewrite extract_solution_run in Hrun. unfold raise_if in Hrun.
  destruct (all_isclose (sum_axis1 _) _); [| discriminate].
  destruct (all_isclose (sum_axis0 _ _) _) eqn:Ec; [| discriminate].
  clear Hrun. apply (columns_check s group_sizes num_mice num_groups Hlen) in Ec.
  specialize (Ec j Hj).
  assert (count_occ Z.eq_dec mouse_grouping (Z.of_nat j + 1)
          = List.length (filter (fun i => num_nonzero (x_val s i j))
                                (seq 0 num_mice))) as ->.
  { rewrite (list_map_nth mouse_grouping 0) at 1.
    rewrite count_occ_map_filter, HlenG. f_equal.
    apply filter_ext_in. intros i Hi. apply in_seq in Hi.
    destruct (Hlab i ltac:(lia)) as (a & Ha & Hnth & Hone & Hzero).
    rewrite Hnth. destruct (Nat.eq_dec j a) as [-> | Hne].
    - rewrite Z.eqb_refl, Hone. reflexivity.
    - rewrite (Hzero j Hj Hne).
      destruct (Z.eqb_spec (Z.of_nat a + 1) (Z.of_nat j + 1)); [lia |].
      reflexivity. }
  apply (Qisclose_integers
           (Qsum (map (fun i => x_val s i j) (seq 0 num_mice)))).
  - apply (Qsum_count (fun i => x_val s i j)).
    intros i Hi. apply in_seq in Hi. apply Hbin; lia.
  - rewrite Forall_forall in Hsmall. apply Hsmall, nth_In. lia.
  - exact Ec.
Qed.

Lemma extract_solution_group_counts_witness :
  Z.of_nat (count_occ Z.eq_dec [1; 2; 1] (Z.of_nat 0 + 1)) = nth 0 [2; 1] 0.
Proof.
  apply (extract_solution_group_counts [2; 1] 3 2 OPTIMAL binary_solution
           [1; 2; 1] 0%Q [0 - 0; 0 - 0]%Q).
  - reflexivity.
  - reflexivity.
  - intros i j Hi Hj.
    destruct i as [| [| [| i]]], j as [| [| j]]; try lia;
      (now left) || (now right).
  - repeat constructor.
  - lia.
Defined.

(** ** The main program *)

Section CoreFacts.

Context {num : Type} `{Float64Ops num}.

Lemma filter_other_columns (df : data_frame) (name : string) :
  ~ In name (columns df) ->
  filter (fun p => negb (String.eqb (fst p) name)) df = df.
Proof.
  induction df as [| [n c] df IH]; [reflexivity |]. cbn. intros Hnin.
  destruct (String.eqb_spec n name) as [-> | _].
  - exfalso. apply Hnin. now left.
  - cbn. f_equal. apply IH. intros Hin. apply Hnin. now right.
Qed.

Lemma pop_middle (before after : data_frame) (name : string) (col : list cell) :
  ~ In name (columns before) ->
  pop (before ++ (name, col) :: after) name = Some (col, before ++ after).
Proof.
  induction before as [| [n c] before IH]; cbn.
  - intros _. now rewrite String.eqb_refl.
  - intros Hnin. destruct (String.eqb_spec n name) as [-> | _].
    + exfalso. apply Hnin. now left.
    + rewrite IH; [reflexivity |]. intros Hin. apply Hnin. now right.
Qed.

Lemma replace_column_absent (df : data_frame) (name : string) (col : list cell) :
  replace_column df name col = None -> ~ In name (columns df).
Proof.
  induction df as [| [n c] df IH]; cbn; [intros _ [] |].
  destruct (String.eqb_spec n name) as [-> | Hne]; [discriminate |].
  destruct (replace_column df name col); [discriminate |].
  intros _ [Heq | Hin]; [contradiction | now apply IH].
Qed.

Lemma replace_column_split (df df' : data_frame) (name : string)
    (col : list cell) :
  replace_column df name col = Some df' ->
  exists before old after,
    df = before ++ (name, old) :: after /\
    df' = before ++ (name, col) :: after /\
    ~ In name (columns before).
Proof.
  revert df'. induction df as [| [n c] df IH]; cbn; [discriminate |].
  intros df'. destruct (String.eqb_spec n name) as [-> | Hne].
  - intros [= <-]. exists [], c, df. repeat split. intros [].
  - destruct (replace_column df name col) as [df'' |]; [| discriminate].
    intros [= <-].
    destruct (IH df'' eq_refl) as (before & old & after & -> & -> & Hnin).
    exists ((n, c) :: before), old, after. repeat split.
    cbn. intros [Heq | Hin]; [contradiction | now apply Hnin].
Qed.

(** Setting a column and moving it to the front: the frame that results has
    the new column first and then the other columns as they were. *)
Lemma set_column_move_front (df df' out : data_frame) (name : string)
    (col : list cell) :
  set_column df name col = Ok df' ->
  move_column_inplace df' name 0 = (out, None) ->
  List.length col = shape0 df /\
  out = (name, col) :: filter (fun p => negb (String.eqb (fst p) name)) df.
Proof.
  unfold set_column, raise_if.
  destruct (Nat.eqb_spec (List.length col) (shape0 df)) as [Hlen | _];
    [| discriminate].
  cbn [negb bind]. intros Hset Hmove. split; [assumption |].
  assert (exists before after,
            df' = before ++ (name, col) :: after /\
            ~ In name (columns before) /\
            filter (fun p => negb (String.eqb (fst p) name)) df =
            filter (fun p => negb (String.eqb (fst p) name)) (before ++ after))
    as (before & after & -> & Hnin & Hfilter).
  { destruct (replace_column df name col) as [df'' |] eqn:Hrep.
    - injection Hset as <-.
      destruct (replace_column_split _ _ _ _ Hrep)
        as (before & old & after & -> & -> & Hnin).
      exists before, after. repeat split; [assumption |].
      rewrite !filter_app. cbn. now rewrite String.eqb_refl.
    - injection Hset as <-. exists df, []. repeat split.
      + now apply (replace_column_absent df name col).
      + now rewrite app_nil_r. }
  unfold move_column_inplace in Hmove. rewrite (pop_middle _ _ _ _ Hnin) in Hmove.
  unfold insert in Hmove.
  destruct (has_column (before ++ after) name) eqn:Hhas; [discriminate |].
  cbn in Hmove. injection Hmove as <-. f_equal.
  rewrite Hfilter. symmetry. apply filter_other_columns.
  now apply has_column_false.
Qed.

Lemma starts_with_app (p l l' : list Ascii.ascii) :
  starts_with p l = true -> starts_with p (l ++ l') = true.
Proof.
  revert l. induction p as [| a p IH]; intros [| b l]; cbn;
    try reflexivity; try discriminate.
  intros [Hab Hp]%andb_true_iff. rewrite Hab. now apply IH.
Qed.

Lemma endswith_app (a b suffix : string) :
  endswith b suffix = true -> endswith (a ++ b) suffix = true.
Proof.
  unfold endswith. rewrite list_ascii_of_string_app, rev_app_distr.
  apply starts_with_app.
Qed.

Lemma os_path_join_folder (folder name : string) (l : list Ascii.ascii)
    (a : Ascii.ascii) :
  list_ascii_of_string folder = l ++ [a] -> a <> slash ->
  ~ In slash (list_ascii_of_string name) ->
  os_path_join folder name = (folder ++ String slash name)%string.
Proof.
  intros Hfolder Ha Hname. unfold os_path_join.
  assert (starts_with [slash] (list_ascii_of_string name) = false) as ->.
  { destruct name as [| b name]; [reflexivity |].
    cbn [list_ascii_of_string starts_with].
    destruct (Ascii.eqb_spec slash b) as [<- | _]; [| reflexivity].
    exfalso. apply Hname. now left. }
  assert (String.eqb folder EmptyString = false) as ->.
  { apply String.eqb_neq. intros ->. now destruct l. }
  assert (endswith folder "/" = false) as ->.
  { unfold endswith. rewrite Hfolder, rev_app_distr.
    cbn [list_ascii_of_string rev app starts_with].
    change (Ascii.Ascii true true true true false true false false)
      with slash.
    destruct (Ascii.eqb_spec slash a) as [<- | _]; [| reflexivity].
    now contradiction Ha. }
  reflexivity.
Qed.

Lemma save_optimization_model_to_file_joined
    (isdir : string -> bool) (folder name : string) (l : list Ascii.ascii)
    (a : Ascii.ascii) :
  list_ascii_of_string folder = l ++ [a] -> a <> slash ->
  ~ In slash (list_ascii_of_string name) ->
  (endswith name ".lp" || endswith name ".mps") = true ->
  isdir folder = true ->
  os_path_join folder name <> EmptyString /\
  save_optimization_model_to_file isdir (os_path_join folder name) = Ok tt.
Proof.
  intros Hfolder Ha Hname Hsuffix Hdir.
  rewrite (os_path_join_folder folder name l a Hfolder Ha Hname). split.
  - destruct folder; [now destruct l | discriminate].
  - unfold save_optimization_model_to_file.
    rewrite (os_path_split_folder folder name l a Hfolder Ha Hname).
    cbn [fst]. rewrite Hdir.
    assert (endswith (folder ++ String slash name) ".lp"
            || endswith (folder ++ String slash name) ".mps" = true) as ->.
    { apply orb_true_iff. apply orb_true_iff in Hsuffix as [Hs | Hs];
        [left | right];
        apply (endswith_app folder (String slash name));
        apply (endswith_app (String slash EmptyString) name _ Hs). }
    reflexivity.
Qed.

End CoreFacts.

Section CoreRuns.

Context {num : Type} `{Float64Ops num}.



Lemma loaded_tumor_size_column
    (read_excel : string -> option data_frame)
    (path orig_id orig_size id size : string) (loaded : data_frame) :
  load_and_verify_mouse_id_and_tumor_size_data_frame
    read_excel path orig_id orig_size id size = Ok loaded ->
  exists column, get_column loaded size = Ok column.
Proof.
  intros Hload. apply get_column_has, has_column_In.
  assert (orig_id <> orig_size) as Hne.
  { intros ->. revert Hload.
    unfold load_and_verify_mouse_id_and_tumor_size_data_frame, raise_if.
    destruct (read_excel path) as [df |]; [| discriminate].
    rewrite String.eqb_refl.
    destruct (negb (has_column df orig_size)); discriminate. }
  destruct (load_and_verify_checks _ _ _ _ _ _ _ Hload)
    as (df & ids & sizes & _ & _ & Hsizes & _ & _ & _ & _ & ->).
  rewrite columns_rename. apply in_map_iff. exists orig_size. split.
  - unfold renamed. apply not_eq_sym, String.eqb_neq in Hne.
    now rewrite Hne, String.eqb_refl.
  - apply has_column_In. now apply (has_column_get df orig_size sizes).
Qed.

Lemma compute_group_sizes_below_minimum (n m : Z) :
  0 <= n < m ->
  compute_group_sizes n m =
    Raise (if n =? 0
           then ValueError "cannot convert float NaN to integer"
           else OverflowError "cannot convert float infinity to integer").
Proof.
  intros Hn. unfold compute_group_sizes, np_divmod, np_repeat.
  replace (m =? 0) with false by (symmetry; apply Z.eqb_neq; lia).
  rewrite Z.div_small, Z.mod_small by lia.
  cbn [Z.ltb Z.compare Z.to_nat repeat bind].
  now rewrite floor_true_divide_by_zero.
Qed.

Lemma planned_sizes_length (n m : Z) :
  1 <= m <= n ->
  Z.of_nat (List.length (planned_sizes n m)) = n / m.
Proof.
  intros Hm. assert (0 < n / m) as Hk by (apply Z.div_str_pos; lia).
  pose proof (Z.mod_pos_bound (n mod m) (n / m) Hk).
  unfold planned_sizes. rewrite length_app, !repeat_length. lia.
Qed.

(** Setting a column of the right length and moving it to the front
    succeeds on a frame with distinct column names. *)
Lemma set_column_then_move (df : data_frame) (name : string) (col : list cell) :
  NoDup (columns df) -> List.length col = shape0 df ->
  exists df',
    set_column df name col = Ok df' /\
    move_column_inplace df' name 0 =
      ((name, col) :: filter (fun p => negb (String.eqb (fst p) name)) df,
       None).
Proof.
  intros Hnd Hlen. unfold set_column, raise_if.
  rewrite Hlen, Nat.eqb_refl. cbn [negb bind].
  assert (forall before after,
            ~ In name (columns before) -> ~ In name (columns after) ->
            move_column_inplace (before ++ (name, col) :: after) name 0 =
              ((name, col) :: before ++ after, None)) as Hmove.
  { intros before after Hb Ha. unfold move_column_inplace, insert.
    rewrite (pop_middle _ _ _ _ Hb).
    replace (has_column (before ++ after) name) with false; [reflexivity |].
    symmetry. apply has_column_false. rewrite columns_app.
    intros [Hin | Hin]%in_app_iff; contradiction. }
  destruct (replace_column df name col) as [df' |] eqn:Hrep.
  - destruct (replace_column_split _ _ _ _ Hrep)
      as (before & old & after & -> & -> & Hb).
    assert (~ In name (columns after)) as Ha.
    { rewrite columns_app in Hnd. cbn in Hnd.
      apply NoDup_remove_2 in Hnd. intros Hin. apply Hnd.
      apply in_or_app. now right. }
    eexists. split; [reflexivity |]. rewrite (Hmove _ _ Hb Ha).
    rewrite !filter_app. cbn [filter fst]. rewrite String.eqb_refl.
    cbn [negb]. now rewrite !filter_other_columns.
  - apply replace_column_absent in Hrep.
    eexists. split; [reflexivity |].
    rewrite (Hmove df [] Hrep (fun H => H)), app_nil_r.
    now rewrite filter_other_columns.
Qed.

End CoreRuns.

(** X15. When the main program gets as far as its outputs, the frame it
    works from has the group column first, one label per row of the input,
    followed by the columns of the loaded frame under their names and in
    their order (a column that bore the name of the group column is gone).
    The input was loaded, the output folder exists and the planner returned
    sizes for the number of rows. *)
Theorem find_optimal_mouse_grouping_result
    {num : Type} `{Float64Ops num}
    (num_of_cell : cell -> num)
    (read_excel : string -> option data_frame)
    (isdir : string -> bool)
    (optimize : model num -> Z -> solver_output num)
    (cfg : MouseGroupingConfig) (out : data_frame) :
  find_optimal_mouse_grouping num_of_cell read_excel isdir optimize cfg
    = inr out ->
  exists loaded group_sizes mouse_grouping,
    load_and_verify_mouse_id_and_tumor_size_data_frame read_excel
      (input_file_path cfg) (orig_id_column_name cfg)
      (orig_tumor_size_column_name cfg)
      (id_column_name cfg) (tumor_size_column_name cfg) = Ok loaded /\
    isdir (output_folder_path cfg) = true /\
    compute_group_sizes (Z.of_nat (shape0 loaded)) (min_group_size cfg)
      = Ok group_sizes /\
    List.length mouse_grouping = shape0 loaded /\
    out = (group_column_name cfg,
           map (fun label => Some (inject_Z label)) mouse_grouping)
          :: filter (fun p => negb (String.eqb (fst p) (group_column_name cfg)))
                    loaded.
Proof.
  unfold find_optimal_mouse_grouping.
  destruct (load_and_verify_mouse_id_and_tumor_size_data_frame _ _ _ _ _ _)
    as [loaded | e] eqn:Hload; [| discriminate].
  destruct (isdir (output_folder_path cfg)) eqn:Hdir; [| discriminate].
  cbn [negb].
  destruct (compute_group_sizes _ _) as [group_sizes | e] eqn:Hplan;
    [| discriminate].
  cbn [bind].
  destruct (get_column loaded (tumor_size_column_name cfg)) as [column | e];
    [| discriminate].
  cbn [bind].
  destruct (construct_and_solve_mouse_grouping_model_saving _ _ _ _ _ _ _)
    as [[[mouse_grouping objective] deviations] | e]; [| discriminate].
  cbn [bind].
  destruct (set_column _ _ _) as [df |] eqn:Hset; [| discriminate].
  destruct (move_column_inplace df (group_column_name cfg) 0)
    as [df' [e |]] eqn:Hmove; [discriminate |].
  intros [= <-].
  destruct (set_column_move_front _ _ _ _ _ Hset Hmove) as (Hlen & Hout).
  exists loaded, group_sizes, mouse_grouping.
  rewrite length_map in Hlen. repeat split; assumption.
Qed.

Lemma find_optimal_mouse_grouping_result_witness :
  exists loaded group_sizes mouse_grouping,
    load_and_verify_mouse_id_and_tumor_size_data_frame
      (fun _ => Some five_mice)
      "mice.xlsx" "Mouse ID" "Tumor size" "mouse_id" "tumor_size" = Ok loaded /\
    true = true /\
    compute_group_sizes (Z.of_nat (shape0 loaded)) 2 = Ok group_sizes /\
    List.length mouse_grouping = shape0 loaded /\
    [("group"%string, [Some (1 # 1); Some (2 # 1); Some (1 # 1); Some (2 # 1);
                       Some (1 # 1)]);
     ("mouse_id"%string,
      [Some (1 # 1); Some (2 # 1); Some (3 # 1); Some (4 # 1); Some (5 # 1)]);
     ("tumor_size"%string,
      [Some (10 # 1); Some (20 # 1); Some (30 # 1); Some (40 # 1);
       Some (50 # 1)])]%Q
    = ("group"%string, map (fun label => Some (inject_Z label)) mouse_grouping)
      :: filter (fun p => negb (String.eqb (fst p) "group")) loaded.
Proof.
  apply (find_optimal_mouse_grouping_result Q_of_cell
           (fun _ => Some five_mice) (fun _ => true)
           (solver_leaving OPTIMAL (Some binary_solution))
           (set_min_group_size 2 (default_config "mice.xlsx" "out"))).
  vm_compute. reflexivity.
Defined.



(** X17. Asking the main program to save the model never changes how the
    run ends, up to the writing of the file itself, when the output folder
    is named without a closing slash and the model file name has no slash
    and ends in [.lp] or [.mps]: the folder was found before the model is
    built, so the save is not refused. *)
Theorem find_optimal_mouse_grouping_save_model
    {num : Type} `{Float64Ops num}
    (num_of_cell : cell -> num)
    (read_excel : string -> option data_frame)
    (isdir : string -> bool)
    (optimize : model num -> Z -> solver_output num)
    (cfg : MouseGroupingConfig) (l : list Ascii.ascii) (a : Ascii.ascii) :
  list_ascii_of_string (output_folder_path cfg) = l ++ [a] -> a <> slash ->
  ~ In slash (list_ascii_of_string (model_file_name cfg)) ->
  (endswith (model_file_name cfg) ".lp"
   || endswith (model_file_name cfg) ".mps") = true ->
  find_optimal_mouse_grouping num_of_cell read_excel isdir optimize
    (set_save_model true cfg) =
  find_optimal_mouse_grouping num_of_cell read_excel isdir optimize
    (set_save_model false cfg).
Proof.
  intros Hfolder Ha Hname Hsuffix.
  unfold find_optimal_mouse_grouping. cbn [set_save_model input_file_path
    output_folder_path min_group_size max_seconds print_model_stats
    save_model model_file_name orig_id_column_name
    orig_tumor_size_column_name id_column_name tumor_size_column_name
    group_column_name].
  destruct (load_and_verify_mouse_id_and_tumor_size_data_frame _ _ _ _ _ _)
    as [loaded | e]; [| reflexivity].
  destruct (isdir (output_folder_path cfg)) eqn:Hdir; [| reflexivity].
  cbn [negb].
  destruct (compute_group_sizes _ _) as [group_sizes | e]; [| reflexivity].
  cbn [bind].
  destruct (get_column loaded (tumor_size_column_name cfg)) as [column | e];
    [| reflexivity].
  cbn [bind].
  destruct (save_optimization_model_to_file_joined isdir _ _ l a
              Hfolder Ha Hname Hsuffix Hdir) as (Hne & Hsave).
  assert (construct_and_solve_mouse_grouping_model_saving isdir optimize
            (map num_of_cell column) group_sizes (max_seconds cfg)
            (print_model_stats cfg)
            (Some (os_path_join (output_folder_path cfg) (model_file_name cfg)))
          = construct_and_solve_mouse_grouping_model_saving isdir optimize
              (map num_of_cell column) group_sizes (max_seconds cfg)
              (print_model_stats cfg) None) as ->; [| reflexivity].
  unfold construct_and_solve_mouse_grouping_model_saving.
  apply String.eqb_neq in Hne. rewrite Hne, Hsave. reflexivity.
Qed.

Lemma find_optimal_mouse_grouping_save_model_witness :
  find_optimal_mouse_grouping Q_of_cell
    (fun _ => Some five_mice) (fun _ => true)
    (solver_leaving OPTIMAL (Some binary_solution))
    (set_save_model true (default_config "mice.xlsx" "out")) =
  find_optimal_mouse_grouping Q_of_cell
    (fun _ => Some five_mice) (fun _ => true)
    (solver_leaving OPTIMAL (Some binary_solution))
    (set_save_model false (default_config "mice.xlsx" "out")).
Proof.
  apply (find_optimal_mouse_grouping_save_model Q_of_cell
           (fun _ => Some five_mice) (fun _ => true)
           (solver_leaving OPTIMAL (Some binary_solution))
           (default_config "mice.xlsx" "out")
           (list_ascii_of_string "ou") (Ascii.ascii_of_nat 116)).
  - reflexivity.
  - unfold slash. discriminate.
  - cbn. unfold slash. intuition discriminate.
  - reflexivity.
Defined.

(** X18. With fewer mice than the minimum group size the main program ends
    in an exception of the planner's float division by zero groups: an
    [OverflowError], or a [ValueError] when the sheet has no row at all. *)
Theorem find_optimal_mouse_grouping_fewer_than_minimum
    {num : Type} `{Float64Ops num}
    (num_of_cell : cell -> num)
    (read_excel : string -> option data_frame)
    (isdir : string -> bool)
    (optimize : model num -> Z -> solver_output num)
    (cfg : MouseGroupingConfig) (loaded : data_frame) :
  load_and_verify_mouse_id_and_tumor_size_data_frame read_excel
    (input_file_path cfg) (orig_id_column_name cfg)
    (orig_tumor_size_column_name cfg)
    (id_column_name cfg) (tumor_size_column_name cfg) = Ok loaded ->
  isdir (output_folder_path cfg) = true ->
  Z.of_nat (shape0 loaded) < min_group_size cfg ->
  find_optimal_mouse_grouping num_of_cell read_excel isdir optimize cfg =
    inl (Builtin
           (if (shape0 loaded =? 0)%nat
            then ValueError "cannot convert float NaN to integer"
            else OverflowError "cannot convert float infinity to integer")).
Proof.
  intros Hload Hdir Hfew.
  unfold find_optimal_mouse_grouping. rewrite Hload, Hdir. cbn [negb].
  rewrite compute_group_sizes_below_minimum by lia. cbn [bind].
  destruct (Nat.eqb_spec (shape0 loaded) 0) as [-> | Hpos]; [reflexivity |].
  replace (Z.of_nat (shape0 loaded) =? 0) with false
    by (symmetry; apply Z.eqb_neq; lia).
  reflexivity.
Qed.

Lemma find_optimal_mouse_grouping_fewer_than_minimum_witness :
  find_optimal_mouse_grouping Q_of_cell
    (fun _ => Some duplicate_ids) (fun _ => true)
    (solver_leaving OPTIMAL (Some binary_solution))
    (default_config "mice.xlsx" "out") =
  inl (Builtin (OverflowError "cannot convert float infinity to integer")).
Proof.
  apply (find_optimal_mouse_grouping_fewer_than_minimum Q_of_cell
           (fun _ => Some duplicate_ids) (fun _ => true)
           (solver_leaving OPTIMAL (Some binary_solution))
           (default_config "mice.xlsx" "out")
           [("mouse_id"%string, [Some (1 # 1); Some (1 # 1)]);
            ("tumor_size"%string, [Some (10 # 1); Some (20 # 1)])]%Q).
  - reflexivity.
  - reflexivity.
  - cbn. lia.
Defined.

(** X19. The program from end to end, in exact arithmetic: for a loaded
    frame of distinct column names and equally long columns, with at least
    three mice and twice the minimum group size, a time limit of a second or
    more and no model to save, a solver that leaves a grouping as exact
    zeros and ones, with every planned group filled to its size and a
    matching objective value, makes the program produce the frame with that
    grouping's labels, counted from 1, in front of the loaded columns. *)
Theorem find_optimal_mouse_grouping_groups
    (num_of_cell : cell -> Q)
    (read_excel : string -> option data_frame)
    (isdir : string -> bool)
    (optimize : model Q -> Z -> solver_output Q)
    (cfg : MouseGroupingConfig) (loaded : data_frame)
    (s : solution Q) (group_of : nat -> nat) :
  load_and_verify_mouse_id_and_tumor_size_data_frame read_excel
    (input_file_path cfg) (orig_id_column_name cfg)
    (orig_tumor_size_column_name cfg)
    (id_column_name cfg) (tumor_size_column_name cfg) = Ok loaded ->
  isdir (output_folder_path cfg) = true ->
  NoDup (columns loaded) ->
  (forall name column, In (name, column) loaded ->
                       List.length column = shape0 loaded) ->
  save_model cfg = false ->
  let num_mice := shape0 loaded in
  let group_sizes := planned_sizes (Z.of_nat num_mice) (min_group_size cfg) in
  let num_groups := List.length group_sizes in
  1 <= min_group_size cfg ->
  2 * min_group_size cfg <= Z.of_nat num_mice ->
  3 <= Z.of_nat num_mice < 2 ^ 53 ->
  1 <= max_seconds cfg ->
  (forall m t, values (optimize m t) = Some s) ->
  (forall i, (i < num_mice)%nat -> (group_of i < num_groups)%nat) ->
  (forall i j, (i < num_mice)%nat -> (j < num_groups)%nat ->
     x_val s i j = if (group_of i =? j)%nat then 1%Q else 0%Q) ->
  (forall j, (j < num_groups)%nat ->
     Z.of_nat (List.length (filter (fun i => (group_of i =? j)%nat)
                                   (seq 0 num_mice)))
     = nth j group_sizes 0) ->
  objective_matches s num_groups ->
  find_optimal_mouse_grouping num_of_cell read_excel isdir optimize cfg =
    inr ((group_column_name cfg,
          map (fun i => Some (inject_Z (Z.of_nat (group_of i) + 1)))
              (seq 0 num_mice))
         :: filter (fun p => negb (String.eqb (fst p) (group_column_name cfg)))
                   loaded).
Proof.
  intros Hload Hdir Hnd Hrows Hsave num_mice group_sizes num_groups
    Hm Htwo Hn Hsec Hsolver Hrange Hx Hfill Hobj.
  assert (1 <= min_group_size cfg <= Z.of_nat num_mice) as Hmn by lia.
  pose proof (planned_sizes_length _ _ Hmn) as Hlen. fold group_sizes in Hlen.
  destruct (planned_sizes_spec _ _ Hmn) as (Hsum & _). fold group_sizes in Hsum.
  assert (2 <= Z.of_nat num_mice / min_group_size cfg) as Hk
    by (apply Z.div_le_lower_bound; lia).
  pose proof (Z.mod_pos_bound (Z.of_nat num_mice) (min_group_size cfg)
                ltac:(lia)) as Hr.
  assert (Z.of_nat num_mice / min_group_size cfg <= Z.of_nat num_mice) as Hkn.
  { apply Z.div_le_upper_bound; nia. }
  unfold find_optimal_mouse_grouping. rewrite Hload, Hdir, Hsave. cbn [negb].
  fold num_mice.
  rewrite (compute_group_sizes_exact _ _ Hmn)
    by (apply floor_true_divide_exact; lia).
  fold group_sizes. cbn [bind].
  destruct (loaded_tumor_size_column _ _ _ _ _ _ _ Hload) as (column & Hcol).
  rewrite Hcol. cbn [bind].
  assert (List.length (map num_of_cell column) = num_mice) as Hts.
  { rewrite length_map. apply (Hrows _ _ (get_column_In _ _ _ Hcol)). }
  rewrite construct_and_solve_saving_no_path by (now left).
  destruct (construct_mouse_grouping_model (map num_of_cell column) group_sizes)
    as [[[mdl N] K] | e] eqn:Hbuild.
  2:{ exfalso.
      pose proof (construct_mouse_grouping_model_accepts
                    (map num_of_cell column) group_sizes) as Hacc.
      rewrite Hbuild, Hts in Hacc. cbn [is_ok] in Hacc.
      replace (3 <=? num_mice)%nat with true in Hacc
        by (symmetry; apply Nat.leb_le; lia).
      replace (2 <=? List.length group_sizes)%nat with true in Hacc
        by (symmetry; apply Nat.leb_le; lia).
      rewrite Hsum, Z.eqb_refl in Hacc. discriminate. }
  destruct (construct_mouse_grouping_model_dims _ _ _ _ _ Hbuild) as (-> & ->).
  destruct (construct_and_solve_run optimize _ _ _ _ _ _ Hsec Hbuild)
    as (-> & _).
  rewrite Hts. fold num_groups.
  destruct (optimize mdl (max_seconds cfg)) as [st v] eqn:Hout.
  pose proof (Hsolver mdl (max_seconds cfg)) as Hv. rewrite Hout in Hv.
  cbn [values] in Hv. subst v.
  destruct (binary_grouping_checks group_sizes num_mice num_groups s group_of
              eq_refl Hrange Hx Hfill) as (Hr1 & Hc1 & Hlabels).
  rewrite extract_solution_run, Hr1, Hc1, Hlabels.
  unfold objective_matches in Hobj. rewrite Hobj. cbn [negb raise_if bind].
  rewrite map_map.
  destruct (set_column_then_move loaded (group_column_name cfg)
              (map (fun i => Some (inject_Z (Z.of_nat (group_of i) + 1)))
                   (seq 0 num_mice)) Hnd)
    as (df' & -> & ->); [| reflexivity].
  now rewrite length_map, length_seq.
Qed.

Lemma find_optimal_mouse_grouping_groups_witness :
  find_optimal_mouse_grouping Q_of_cell
    (fun _ => Some five_mice) (fun _ => true)
    (solver_leaving OPTIMAL (Some binary_solution))
    (set_min_group_size 2 (default_config "mice.xlsx" "out")) =
  inr [("group"%string, [Some (1 # 1); Some (2 # 1); Some (1 # 1); Some (2 # 1);
                         Some (1 # 1)]);
       ("mouse_id"%string,
        [Some (1 # 1); Some (2 # 1); Some (3 # 1); Some (4 # 1); Some (5 # 1)]);
       ("tumor_size"%string,
        [Some (10 # 1); Some (20 # 1); Some (30 # 1); Some (40 # 1);
         Some (50 # 1)])]%Q.
Proof.
  apply (find_optimal_mouse_grouping_groups Q_of_cell
           (fun _ => Some five_mice) (fun _ => true)
           (solver_leaving OPTIMAL (Some binary_solution))
           (set_min_group_size 2 (default_config "mice.xlsx" "out"))
           [("mouse_id"%string,
             [Some (1 # 1); Some (2 # 1); Some (3 # 1); Some (4 # 1);
              Some (5 # 1)]);
            ("tumor_size"%string,
             [Some (10 # 1); Some (20 # 1); Some (30 # 1); Some (40 # 1);
              Some (50 # 1)])]%Q
           binary_solution (fun i => if Nat.even i then 0%nat else 1%nat)).
  - reflexivity.
  - reflexivity.
  - repeat constructor; cbn; intuition discriminate.
  - intros name column [[= <- <-] | [[= <- <-] | []]]; reflexivity.
  - reflexivity.
  - cbn. lia.
  - cbn. lia.
  - cbn. lia.
  - cbn. lia.
  - reflexivity.
  - intros i Hi. destruct (Nat.even i); vm_compute; lia.
  - intros i j Hi Hj. vm_compute in Hi, Hj.
    destruct i as [| [| [| [| [| i]]]]], j as [| [| j]]; try lia; reflexivity.
  - intros j Hj. vm_compute in Hj.
    destruct j as [| [| j]]; try lia; reflexivity.
  - reflexivity.
Defined.

(** ** What the model means *)

Section ModelMeaning.

Lemma Qsum_acc (l : list Q) (a : Q) : (fold_left Qplus l a == a + Qsum l)%Q.
Proof.
  unfold Qsum. revert a. induction l as [| x l IH]; intros a; cbn.
  - lra.
  - rewrite (IH (a + x)%Q), (IH (0 + x)%Q). lra.
Qed.

Lemma Qsum_cons (a : Q) (l : list Q) : (Qsum (a :: l) == a + Qsum l)%Q.
Proof. unfold Qsum at 1. cbn. rewrite Qsum_acc. lra. Qed.

Lemma Qsum_map_ext {A : Type} (f g : A -> Q) (l : list A) :
  (forall a, In a l -> (f a == g a)%Q) ->
  (Qsum (map f l) == Qsum (map g l))%Q.
Proof.
  induction l as [| a l IH]; intros Hfg; [reflexivity |].
  cbn [map]. rewrite !Qsum_cons, (Hfg a) by now left.
  rewrite IH by (intros b Hb; apply Hfg; now right). reflexivity.
Qed.

Lemma Qsum_map_le {A : Type} (f g : A -> Q) (l : list A) :
  (forall a, In a l -> (f a <= g a)%Q) ->
  (Qsum (map f l) <= Qsum (map g l))%Q.
Proof.
  induction l as [| a l IH]; intros Hfg; [apply Qle_refl |].
  cbn [map]. rewrite !Qsum_cons.
  apply Qplus_le_compat; [apply Hfg; now left |].
  apply IH. intros b Hb. apply Hfg. now right.
Qed.

Lemma Qsum_pairs {A : Type} (f : Q * var -> Q) (u v : A -> Q * var)
    (l : list A) :
  (Qsum (map f (flat_map (fun a => [u a; v a]) l))
   == Qsum (map (fun a => f (u a) + f (v a)) l))%Q.
Proof.
  induction l as [| a l IH]; [reflexivity |].
  cbn [flat_map app map]. rewrite !Qsum_cons, IH. lra.
Qed.

Lemma Qsum_indicator {A : Type} (c : A -> Q) (b : A -> bool) (l : list A) :
  (Qsum (map (fun a => c a * (if b a then 1 else 0)) l)
   == Qsum (map c (filter b l)))%Q.
Proof.
  induction l as [| a l IH]; [reflexivity |].
  cbn [map filter]. rewrite Qsum_cons, IH.
  destruct (b a); cbn [map]; [rewrite Qsum_cons |]; lra.
Qed.

Lemma Qsum_ones {A : Type} (l : list A) :
  (Qsum (map (fun _ => 1) l) == inject_Z (Z.of_nat (List.length l)))%Q.
Proof.
  induction l as [| a l IH]; [reflexivity |].
  cbn [map List.length]. rewrite Qsum_cons, IH, Nat2Z.inj_succ.
  unfold Z.succ. rewrite inject_Z_plus. change (inject_Z 1) with 1%Q. lra.
Qed.

Lemma Qsum_binary_nonneg {A : Type} (f : A -> Q) (l : list A) :
  (forall a, In a l -> (f a == 0 \/ f a == 1)%Q) ->
  (0 <= Qsum (map f l))%Q.
Proof.
  induction l as [| a l IH]; intros Hbin; [apply Qle_refl |].
  cbn [map]. rewrite Qsum_cons.
  specialize (IH (fun b Hb => Hbin b (or_intror Hb))).
  destruct (Hbin a (or_introl eq_refl)) as [E | E]; rewrite E; lra.
Qed.

Lemma Qsum_binary_zero {A : Type} (f : A -> Q) (l : list A) :
  (forall a, In a l -> (f a == 0 \/ f a == 1)%Q) ->
  (Qsum (map f l) == 0)%Q ->
  forall a, In a l -> (f a == 0)%Q.
Proof.
  induction l as [| a l IH]; intros Hbin Hsum b Hb; [contradiction |].
  cbn [map] in Hsum. rewrite Qsum_cons in Hsum.
  pose proof (Qsum_binary_nonneg f l (fun c Hc => Hbin c (or_intror Hc)))
    as Hpos.
  destruct (Hbin a (or_introl eq_refl)) as [E | E]; rewrite E in Hsum.
  - destruct Hb as [<- | Hb]; [exact E |].
    apply IH; [intros c Hc; apply Hbin; now right | lra | exact Hb].
  - lra.
Qed.

(** Zeros and ones that sum to 1 hold a single one. *)
Lemma Qsum_binary_one {A : Type} (f : A -> Q) (l : list A) :
  (forall a, In a l -> (f a == 0 \/ f a == 1)%Q) ->
  (Qsum (map f l) == 1)%Q ->
  exists a, In a l /\ (f a == 1)%Q /\
            forall b, In b l -> b <> a -> (f b == 0)%Q.
Proof.
  induction l as [| a l IH]; intros Hbin Hsum.
  - cbn in Hsum. unfold Qsum in Hsum. cbn in Hsum. lra.
  - cbn [map] in Hsum. rewrite Qsum_cons in Hsum.
    destruct (Hbin a (or_introl eq_refl)) as [E | E]; rewrite E in Hsum.
    + destruct IH as (c & Hc & Hone & Hzero);
        [intros b Hb; apply Hbin; now right | lra |].
      exists c. split; [now right |]. split; [exact Hone |].
      intros b [<- | Hb] Hne; [exact E | now apply Hzero].
    + exists a. split; [now left |]. split; [exact E |].
      intros b [<- | Hb] Hne; [contradiction |].
      apply (Qsum_binary_zero f l); [| lra | exact Hb].
      intros c Hc. apply Hbin. now right.
Qed.

(** The value of a sum of variables with coefficient 1. *)
Lemma eval_xsum_ones {A : Type} (p : point) (v : A -> var) (l : list A) :
  (eval p (xsum (map (fun a => term_of (v a)) l))
   == Qsum (map (fun a => p (v a)) l))%Q.
Proof.
  unfold eval, xsum, term_of. cbn [terms const fst snd num_of_int Q_ops].
  rewrite map_map. cbn [fst snd]. change (inject_Z 0) with 0%Q.
  rewrite Qplus_0_r. apply Qsum_map_ext. intros a _.
  change (inject_Z 1) with 1%Q. lra.
Qed.

End ModelMeaning.

(** X20. What a point that satisfies the built model says: every mouse has
    the value 1 for one group and 0 for the others, the values of a group
    sum to its size, the difference of the two proxy variables of a group is
    the sum of the centered tumor sizes weighted by the group's values, and
    the objective is at least the sum over the groups of the absolute values
    of these sums. *)
Theorem construct_mouse_grouping_model_feasible_points
    (tumor_sizes : list Q) (group_sizes : list Z)
    (m : model Q) (num_mice num_groups : nat) (p : point) :
  construct_mouse_grouping_model tumor_sizes group_sizes
    = Ok (m, num_mice, num_groups) ->
  feasible p m ->
  let d := fun i => nth i (tumor_size_differences tumor_sizes) 0%Q in
  let deviation := fun j =>
    Qsum (map (fun i => d i * p (x_var i j))%Q (seq 0 num_mice)) in
  (forall i, (i < num_mice)%nat ->
     exists j, (j < num_groups)%nat /\ (p (x_var i j) == 1)%Q /\
       forall j', (j' < num_groups)%nat -> j' <> j ->
                  (p (x_var i j') == 0)%Q) /\
  (forall j, (j < num_groups)%nat ->
     (Qsum (map (fun i => p (x_var i j)) (seq 0 num_mice))
      == inject_Z (nth j group_sizes 0%Z))%Q) /\
  (forall j, (j < num_groups)%nat ->
     (p (y_pos_var j) - p (y_neg_var j) == deviation j)%Q) /\
  (Qsum (map (fun j => Qabs (deviation j)) (seq 0 num_groups))
   <= eval p (objective m))%Q.
Proof.
  intros Hbuild [Hvars Hconstrs] d deviation.
  unfold construct_mouse_grouping_model, raise_if in Hbuild.
  destruct (negb (3 <=? _)%nat && _); [discriminate |].
  destruct (negb (2 <=? _)%nat && _); [discriminate |].
  destruct (negb (_ =? _)); [discriminate |].
  cbn [bind] in Hbuild. injection Hbuild as <- <- <-.
  set (N := List.length tumor_sizes) in *.
  set (K := List.length group_sizes) in *.
  cbn [vars constrs objective] in *.
  rewrite Forall_forall in Hvars, Hconstrs.
  assert (forall i j, (i < N)%nat -> (j < K)%nat ->
            (p (x_var i j) == 0 \/ p (x_var i j) == 1)%Q) as Hbin.
  { intros i j Hi Hj.
    destruct (Hvars (add_var BINARY 0 (x_var i j))) as [_ Hb]; [| exact Hb].
    apply in_or_app. left. apply in_flat_map. exists i.
    split; [apply in_seq; lia |]. apply in_map_iff. exists j.
    split; [reflexivity | apply in_seq; lia]. }
  assert (forall j, (j < K)%nat ->
            (0 <= p (y_pos_var j) /\ 0 <= p (y_neg_var j))%Q) as Hy.
  { intros j Hj. split.
    - destruct (Hvars (add_var CONTINUOUS 0 (y_pos_var j))) as [Hlb _];
        [| exact Hlb].
      apply in_or_app. right. apply in_or_app. left. apply in_map_iff.
      exists j. split; [reflexivity | apply in_seq; lia].
    - destruct (Hvars (add_var CONTINUOUS 0 (y_neg_var j))) as [Hlb _];
        [| exact Hlb].
      apply in_or_app. right. apply in_or_app. right. apply in_map_iff.
      exists j. split; [reflexivity | apply in_seq; lia]. }
  assert (forall j, (j < K)%nat ->
            (p (y_pos_var j) - p (y_neg_var j) == deviation j)%Q) as Hdev.
  { intros j Hj.
    pose proof (Hconstrs _ (in_or_app _ _ _ (or_intror (in_or_app _ _ _
                  (or_intror (in_map _ _ j (proj2 (in_seq K 0 j)
                     (conj (Nat.le_0_l j) Hj)))))))) as Hc.
    cbn [lhs rhs] in Hc. unfold eval, xsum, term_of in Hc.
    cbn [terms const fst snd map num_of_int Q_ops] in Hc.
    rewrite map_map in Hc. cbn [fst snd] in Hc.
    rewrite !Qsum_cons in Hc. unfold Qsum at 2 in Hc. cbn [fold_left] in Hc.
    change (inject_Z 0) with 0%Q in Hc. change (inject_Z 1) with 1%Q in Hc.
    change (inject_Z (-1)) with (-1)%Q in Hc.
    unfold deviation, d. lra. }
  split; [| split; [| split]].
  - intros i Hi.
    pose proof (Hconstrs _ (in_or_app _ _ _ (or_intror (in_or_app _ _ _
                  (or_introl (in_map _ _ i (proj2 (in_seq N 0 i)
                     (conj (Nat.le_0_l i) Hi)))))))) as Hc.
    cbn [lhs rhs] in Hc. rewrite eval_xsum_ones in Hc.
    unfold eval, constant in Hc. cbn [terms const map] in Hc.
    change (Qsum []) with 0%Q in Hc. change (inject_Z 1) with 1%Q in Hc.
    destruct (Qsum_binary_one (fun j => p (x_var i j)) (seq 0 K))
      as (j & Hj & Hone & Hzero).
    + intros j Hj. apply in_seq in Hj. apply Hbin; lia.
    + rewrite Hc. lra.
    + apply in_seq in Hj. exists j. split; [lia |]. split; [exact Hone |].
      intros j' Hj' Hne. apply Hzero; [apply in_seq; lia | exact Hne].
  - intros j Hj.
    pose proof (Hconstrs _ (in_or_app _ _ _ (or_introl
                  (in_map _ _ j (proj2 (in_seq K 0 j)
                     (conj (Nat.le_0_l j) Hj)))))) as Hc.
    cbn [lhs rhs] in Hc. rewrite eval_xsum_ones in Hc.
    unfold eval, constant in Hc. cbn [terms const map] in Hc.
    change (Qsum []) with 0%Q in Hc. rewrite Hc. lra.
  - exact Hdev.
  - unfold eval, xsum. cbn [terms const]. change (inject_Z 0) with 0%Q.
    rewrite Qplus_0_r, Qsum_pairs.
    apply Qsum_map_le. intros j Hj. apply in_seq in Hj.
    rewrite <- (Hdev j) by lia. destruct (Hy j ltac:(lia)) as [Hp Hn].
    unfold term_of. cbn [fst snd num_of_int Q_ops].
    change (inject_Z 1) with 1%Q.
    apply Qabs_case; intros _; lra.
Qed.

Lemma construct_mouse_grouping_model_feasible_points_witness :
  exists m : model Q,
    construct_mouse_grouping_model [10; 20; 30]%Q [2; 1]
      = Ok (m, 3%nat, 2%nat) /\
    feasible (point_of binary_solution) m /\
    (Qsum (map (fun i => point_of binary_solution (x_var i 0)) (seq 0 3))
     == inject_Z 2)%Q.
Proof.
  destruct (construct_mouse_grouping_model [10; 20; 30]%Q [2; 1])
    as [[[m N] K] | e] eqn:Hbuild;
    [| vm_compute in Hbuild; discriminate].
  pose proof Hbuild as Hm. vm_compute in Hm. injection Hm as Hm HN HK.
  subst N K.
  assert (feasible (point_of binary_solution) m) as Hfeas.
  { rewrite <- Hm. split; cbn [vars constrs];
      repeat (apply Forall_cons); try apply Forall_nil;
      try reflexivity;
      (split;
       [vm_compute; discriminate
       | first [left; reflexivity | right; reflexivity | exact I]]). }
  destruct (construct_mouse_grouping_model_feasible_points
              [10; 20; 30]%Q [2; 1] m 3 2 (point_of binary_solution)
              Hbuild Hfeas) as (_ & Hsizes & _).
  exists m. split; [reflexivity |]. split; [exact Hfeas |].
  apply (Hsizes 0%nat). lia.
Defined.

(** X21. Every grouping that fills the groups to their sizes is a point of
    the built model: with 1 for the group of each mouse and 0 elsewhere,
    and the proxy variables of a group set to the positive and the negative
    part of the sum of the centered tumor sizes of its mice, all variables
    are in range and all constraints hold, and the objective is the sum
    over the groups of the absolute values of these sums. *)
Theorem construct_mouse_grouping_model_grouping_feasible
    (tumor_sizes : list Q) (group_sizes : list Z)
    (m : model Q) (num_mice num_groups : nat) (group_of : nat -> nat) :
  construct_mouse_grouping_model tumor_sizes group_sizes
    = Ok (m, num_mice, num_groups) ->
  (forall i, (i < num_mice)%nat -> (group_of i < num_groups)%nat) ->
  (forall j, (j < num_groups)%nat ->
     Z.of_nat (List.length (filter (fun i => (group_of i =? j)%nat)
                                   (seq 0 num_mice)))
     = nth j group_sizes 0) ->
  let d := fun i => nth i (tumor_size_differences tumor_sizes) 0%Q in
  let deviation := fun j =>
    Qsum (map d (filter (fun i => (group_of i =? j)%nat) (seq 0 num_mice))) in
  exists p : point,
    feasible p m /\
    (forall i j, p (x_var i j) = if (group_of i =? j)%nat then 1%Q else 0%Q) /\
    (forall j, (p (y_pos_var j) - p (y_neg_var j) == deviation j)%Q) /\
    (eval p (objective m)
     == Qsum (map (fun j => Qabs (deviation j)) (seq 0 num_groups)))%Q.
Proof.
  intros Hbuild Hrange Hfill d deviation.
  unfold construct_mouse_grouping_model, raise_if in Hbuild.
  destruct (negb (3 <=? _)%nat && _); [discriminate |].
  destruct (negb (2 <=? _)%nat && _); [discriminate |].
  destruct (negb (_ =? _)); [discriminate |].
  cbn [bind] in Hbuild. injection Hbuild as <- <- <-.
  set (N := List.length tumor_sizes) in *.
  set (K := List.length group_sizes) in *.
  set (p := fun v =>
         match v with
         | x_var i j => if (group_of i =? j)%nat then 1%Q else 0%Q
         | y_pos_var j => if Qle_bool 0 (deviation j) then deviation j else 0%Q
         | y_neg_var j =>
             if Qle_bool 0 (deviation j) then 0%Q else (- deviation j)%Q
         end).
  assert (forall j, (0 <= p (y_pos_var j) /\ 0 <= p (y_neg_var j) /\
                     p (y_pos_var j) - p (y_neg_var j) == deviation j /\
                     p (y_pos_var j) + p (y_neg_var j) == Qabs (deviation j))%Q)
    as Hy.
  { intros j. cbn [p].
    destruct (Qle_bool 0 (deviation j)) eqn:E.
    - apply Qle_bool_iff in E. rewrite (Qabs_pos _ E).
      repeat split; lra.
    - assert (deviation j < 0)%Q as Hneg.
      { apply Qnot_le_lt. intros Hle. apply Qle_bool_iff in Hle. congruence. }
      rewrite (Qabs_neg (deviation j)) by lra. repeat split; lra. }
  exists p. split; [split |]; [| | split; [| split]].
  - cbn [vars]. rewrite !Forall_app. repeat split.
    + apply Forall_forall. intros v Hv.
      apply in_flat_map in Hv as (i & _ & Hv).
      apply in_map_iff in Hv as (j & <- & _).
      unfold in_range. cbn [add_var decl_lb decl_var decl_type p].
      change (inject_Z 0) with 0%Q.
      destruct (group_of i =? j)%nat; split;
        (lra || (now left) || (now right)).
    + apply Forall_forall. intros v Hv.
      apply in_map_iff in Hv as (j & <- & _).
      unfold in_range. cbn [add_var decl_lb decl_var decl_type].
      change (inject_Z 0) with 0%Q. split; [apply (Hy j) | exact I].
    + apply Forall_forall. intros v Hv.
      apply in_map_iff in Hv as (j & <- & _).
      unfold in_range. cbn [add_var decl_lb decl_var decl_type].
      change (inject_Z 0) with 0%Q. split; [apply (Hy j) | exact I].
  - cbn [constrs]. rewrite !Forall_app. repeat split.
    + apply Forall_forall. intros c Hc.
      apply in_map_iff in Hc as (j & <- & Hj). apply in_seq in Hj.
      cbn [lhs rhs]. rewrite eval_xsum_ones.
      unfold eval, constant. cbn [terms const map p].
      change (Qsum []) with 0%Q. rewrite Qplus_0_l, <- (Hfill j) by lia.
      rewrite <- Qsum_ones, <- (Qsum_indicator (fun _ => 1%Q)).
      apply Qsum_map_ext. intros i _.
      destruct (group_of i =? j)%nat; lra.
    + apply Forall_forall. intros c Hc.
      apply in_map_iff in Hc as (i & <- & Hi). apply in_seq in Hi.
      cbn [lhs rhs]. rewrite eval_xsum_ones.
      unfold eval, constant. cbn [terms const map p].
      change (Qsum []) with 0%Q. rewrite Qplus_0_l.
      change (inject_Z 1) with
        (inject_Z (Z.of_nat (List.length [group_of i]))).
      rewrite <- (filter_single (fun j => (group_of i =? j)%nat) K (group_of i))
        by (try (apply Hrange; lia);
            intros j _; rewrite Nat.eqb_eq; split; congruence).
      rewrite <- Qsum_ones, <- (Qsum_indicator (fun _ => 1%Q)).
      apply Qsum_map_ext. intros j _.
      destruct (group_of i =? j)%nat; lra.
    + apply Forall_forall. intros c Hc.
      apply in_map_iff in Hc as (j & <- & Hj).
      cbn [lhs rhs]. unfold eval, xsum, term_of.
      cbn [terms const fst snd map num_of_int Q_ops].
      rewrite map_map. cbn [fst snd].
      rewrite !Qsum_cons. change (Qsum []) with 0%Q.
      change (inject_Z 0) with 0%Q. change (inject_Z 1) with 1%Q.
      change (inject_Z (-1)) with (-1)%Q.
      destruct (Hy j) as (_ & _ & Hdiff & _).
      transitivity (deviation j); [| lra].
      rewrite Qplus_0_r. unfold deviation.
      rewrite <- (Qsum_indicator d). apply Qsum_map_ext. intros i _.
      cbn [p]. reflexivity.
  - intros i j. reflexivity.
  - intros j. apply (Hy j).
  - unfold eval, xsum. cbn [objective terms const].
    change (inject_Z 0) with 0%Q.
    rewrite Qplus_0_r, Qsum_pairs. apply Qsum_map_ext. intros j _.
    unfold term_of. cbn [fst snd num_of_int Q_ops].
    change (inject_Z 1) with 1%Q.
    destruct (Hy j) as (_ & _ & _ & Habs). rewrite <- Habs. lra.
Qed.

Lemma construct_mouse_grouping_model_grouping_feasible_witness :
  exists (m : model Q) (p : point),
    construct_mouse_grouping_model [10; 20; 30]%Q [2; 1]
      = Ok (m, 3%nat, 2%nat) /\
    feasible p m /\
    (eval p (objective m) == 0)%Q.
Proof.
  destruct (construct_mouse_grouping_model [10; 20; 30]%Q [2; 1])
    as [[[m N] K] | e] eqn:Hbuild;
    [| vm_compute in Hbuild; discriminate].
  destruct (construct_mouse_grouping_model_dims _ _ _ _ _ Hbuild) as (-> & ->).
  destruct (construct_mouse_grouping_model_grouping_feasible
              [10; 20; 30]%Q [2; 1] m 3 2
              (fun i => if Nat.even i then 0%nat else 1%nat) Hbuild)
    as (p & Hfeas & _ & _ & Hobj).
  - intros i Hi. destruct (Nat.even i); lia.
  - intros j Hj. destruct j as [| [| j]]; try lia; reflexivity.
  - exists m, p. split; [reflexivity |]. split; [exact Hfeas |].
    rewrite Hobj. reflexivity.
Defined.

(** ** The cell formats of the output file *)

Section Formats.

Lemma get_loc_found (columns : list string) (name : string) :
  In name columns ->
  exists idx, get_loc columns name = Ok idx /\
              nth_error columns idx = Some name.
Proof.
  induction columns as [| c columns IH]; [contradiction |]. cbn [get_loc].
  intros Hin. destruct (String.eqb_spec c name) as [-> | Hne].
  - now exists 0%nat.
  - destruct Hin as [Heq | Hin]; [contradiction |].
    destruct (IH Hin) as (idx & -> & Hnth). now exists (S idx).
Qed.

Lemma get_loc_missing (columns : list string) (name : string) :
  ~ In name columns -> get_loc columns name = Raise (KeyError name).
Proof.
  induction columns as [| c columns IH]; [reflexivity |]. cbn [get_loc].
  intros Hnin. destruct (String.eqb_spec c name) as [-> | Hne].
  - exfalso. apply Hnin. now left.
  - rewrite IH; [reflexivity |]. intros Hin. apply Hnin. now right.
Qed.

Lemma columns_filter_other (df : data_frame) (group name : string) :
  In name (columns (filter (fun p => negb (String.eqb (fst p) group)) df)) <->
  In name (columns df) /\ name <> group.
Proof.
  unfold columns. rewrite !in_map_iff. split.
  - intros ([n c] & Hn & Hin). cbn in Hn. subst n.
    apply filter_In in Hin as [Hin Hne]. cbn in Hne. split.
    + now exists (name, c).
    + intros ->. rewrite String.eqb_refl in Hne. discriminate.
  - intros (([n c] & Hn & Hin) & Hne). cbn in Hn. subst n.
    exists (name, c). split; [reflexivity |]. apply filter_In.
    split; [assumption |]. cbn. apply negb_true_iff.
    now apply String.eqb_neq.
Qed.

Lemma loaded_columns
    (read_excel : string -> option data_frame)
    (path orig_id orig_size id size : string) (loaded : data_frame) :
  load_and_verify_mouse_id_and_tumor_size_data_frame
    read_excel path orig_id orig_size id size = Ok loaded ->
  In id (columns loaded) /\ In size (columns loaded).
Proof.
  intros Hload.
  assert (orig_id <> orig_size) as Hne.
  { intros ->. revert Hload.
    unfold load_and_verify_mouse_id_and_tumor_size_data_frame, raise_if.
    destruct (read_excel path) as [df |]; [| discriminate].
    rewrite String.eqb_refl.
    destruct (negb (has_column df orig_size)); discriminate. }
  destruct (load_and_verify_checks _ _ _ _ _ _ _ Hload)
    as (df & ids & sizes & _ & Hids & Hsizes & _ & _ & _ & _ & ->).
  rewrite columns_rename. split; apply in_map_iff.
  - exists orig_id. split; [unfold renamed; now rewrite String.eqb_refl |].
    apply has_column_In. now apply (has_column_get df orig_id ids).
  - exists orig_size. split.
    + unfold renamed. apply not_eq_sym, String.eqb_neq in Hne.
      now rewrite Hne, String.eqb_refl.
    + apply has_column_In. now apply (has_column_get df orig_size sizes).
Qed.

End Formats.

(** X22. The number formats of a sheet are set when the frame has a column
    for every name in the dictionary of formats, each at the index where the
    frame has that column and in the order of the dictionary; otherwise
    [KeyError] names the first column that the frame lacks. *)
Theorem modify_column_number_formats_found
    (columns : list string) (formats : list (string * cell_format)) :
  match modify_column_number_formats columns formats with
  | Ok calls =>
      map snd calls = map snd formats /\
      Forall2 (fun call f => nth_error columns (fst call) = Some (fst f))
              calls formats
  | Raise e =>
      exists before name fmt after,
        formats = before ++ (name, fmt) :: after /\
        e = KeyError name /\ ~ In name columns /\
        Forall (fun f => In (fst f) columns) before
  end.
Proof.
  induction formats as [| [name fmt] formats IH];
    cbn [modify_column_number_formats].
  - split; [reflexivity | constructor].
  - destruct (in_dec string_dec name columns) as [Hin | Hnin].
    + destruct (get_loc_found columns name Hin) as (idx & -> & Hnth).
      cbn [bind].
      destruct (modify_column_number_formats columns formats) as [calls | e];
        cbn [bind].
      * destruct IH as (Hfmt & Hidx). split.
        -- cbn. now rewrite Hfmt.
        -- now constructor.
      * destruct IH as (before & name' & fmt' & after & -> & -> & Hnin & Hall).
        exists ((name, fmt) :: before), name', fmt', after.
        repeat split; [assumption |]. now constructor.
    + rewrite (get_loc_missing columns name Hnin). cbn [bind].
      exists [], name, fmt, formats. repeat split; [assumption | constructor].
Qed.

(** X23. The sheet of mice of the output file gets its number formats under
    the names [group], [mouse_id] and [tumor_size]: for the frame of a run
    whose group column is named [group], they are set when the ID and the
    tumor size bear these default names, and the export ends in [KeyError]
    when the loaded frame has no column [mouse_id], as with another ID
    name in the configuration. *)
Theorem mouse_grouping_sheet_formats
    (read_excel : string -> option data_frame)
    (cfg : MouseGroupingConfig) (loaded : data_frame) (labels : list cell)
    (formats : list (string * cell_format)) :
  load_and_verify_mouse_id_and_tumor_size_data_frame read_excel
    (input_file_path cfg) (orig_id_column_name cfg)
    (orig_tumor_size_column_name cfg)
    (id_column_name cfg) (tumor_size_column_name cfg) = Ok loaded ->
  dict_get get_column_formats_by_sheet_name "mouse_grouping" = Ok formats ->
  group_column_name cfg = "group"%string ->
  let out :=
    (group_column_name cfg, labels)
    :: filter (fun p => negb (String.eqb (fst p) (group_column_name cfg)))
              loaded in
  (id_column_name cfg = "mouse_id"%string ->
   tumor_size_column_name cfg = "tumor_size"%string ->
   is_ok (modify_column_number_formats (columns out) formats) = true) /\
  (~ In "mouse_id"%string (columns loaded) ->
   modify_column_number_formats (columns out) formats =
     Raise (KeyError "mouse_id")).
Proof.
  intros Hload [= <-] Hgroup out.
  destruct (loaded_columns _ _ _ _ _ _ _ Hload) as (Hid & Hsize).
  unfold out. rewrite Hgroup.
  cbn [columns map fst modify_column_number_formats get_loc].
  rewrite String.eqb_refl. cbn [bind].
  change (String.eqb "group" "mouse_id") with false.
  change (String.eqb "group" "tumor_size") with false. cbn iota.
  fold (columns (filter (fun p => negb (String.eqb (fst p) "group")) loaded)).
  split.
  - intros Hidn Hsizen. rewrite Hidn in Hid. rewrite Hsizen in Hsize.
    destruct (get_loc_found
                (columns (filter (fun p => negb (String.eqb (fst p) "group"))
                                 loaded)) "mouse_id")
      as (i & -> & _);
      [apply columns_filter_other; split; [assumption | discriminate] |].
    destruct (get_loc_found
                (columns (filter (fun p => negb (String.eqb (fst p) "group"))
                                 loaded)) "tumor_size")
      as (j & -> & _);
      [apply columns_filter_other; split; [assumption | discriminate] |].
    reflexivity.
  - intros Hnin. rewrite get_loc_missing; [reflexivity |].
    intros Hin. apply columns_filter_other in Hin as [Hin _]. contradiction.
Qed.

Lemma mouse_grouping_sheet_formats_witness :
  is_ok (modify_column_number_formats
           ["group"; "mouse_id"; "tumor_size"]%string
           [("group", [("num_format", "#0")]);
            ("mouse_id", [("num_format", "#0")]);
            ("tumor_size", [("num_format", "#,##0.00")])]%string) = true.
Proof.
  apply (mouse_grouping_sheet_formats (fun _ => Some five_mice)
           (default_config "mice.xlsx" "out")
           [("mouse_id"%string,
             [Some (1 # 1); Some (2 # 1); Some (3 # 1); Some (4 # 1);
              Some (5 # 1)]);
            ("tumor_size"%string,
             [Some (10 # 1); Some (20 # 1); Some (30 # 1); Some (40 # 1);
              Some (50 # 1)])]%Q
           []);
    reflexivity.
Defined.

(** ** The exceptions of the main program *)

Section Exceptions.

Context {num : Type} `{Float64Ops num}.

Lemma loader_raises_file_or_value_error
    (read_excel : string -> option data_frame)
    (path orig_id orig_size id size : string) (e : exn) :
  load_and_verify_mouse_id_and_tumor_size_data_frame
    read_excel path orig_id orig_size id size = Raise e ->
  (exists msg, e = FileNotFoundError msg) \/ (exists msg, e = ValueError msg).
Proof.
  unfold load_and_verify_mouse_id_and_tumor_size_data_frame, raise_if.
  destruct (read_excel path) as [df |];
    [intros Hrun; right; revert Hrun | intros [= <-]; left; now eexists].
  destruct (has_column df orig_id) eqn:Hid; cbn [negb bind];
    [| intros [= <-]; now eexists].
  destruct (has_column df orig_size) eqn:Hsize; cbn [negb bind];
    [| intros [= <-]; now eexists].
  destruct (String.eqb orig_id orig_size); cbn [bind];
    [intros [= <-]; now eexists |].
  destruct (get_column_has _ _ Hid) as (ids & ->).
  destruct (get_column_has _ _ Hsize) as (sizes & ->). cbn [bind].
  repeat match goal with
         | |- context [if negb ?b then _ else _] =>
             destruct b; cbn [negb bind]; [| intros [= <-]; now eexists]
         end.
  discriminate.
Qed.

Lemma compute_group_sizes_exceptions (n m : Z) (e : exn) :
  compute_group_sizes n m = Raise e -> planner_failure e.
Proof.
  unfold compute_group_sizes, planner_failure.
  destruct (np_divmod n m) as [k r]. unfold np_repeat.
  destruct (k <? 0); cbn [bind]; [intros [= <-]; tauto |].
  unfold floor_true_divide, Float64.to_int.
  destruct (Float64.floor _); cbn [bind];
    try (intros [= <-]; tauto).
  unfold py_assert.
  repeat match goal with
         | |- context [if ?b then Ok tt else Raise AssertionError] =>
             destruct b; cbn [bind]; [| intros [= <-]; tauto]
         end.
  discriminate.
Qed.

Lemma construct_mouse_grouping_model_exceptions
    (tumor_sizes : list num) (group_sizes : list Z) (e : exn) :
  construct_mouse_grouping_model tumor_sizes group_sizes = Raise e ->
  exists msg, e = AttributeError msg \/ e = ValueError msg.
Proof.
  unfold construct_mouse_grouping_model, raise_if.
  destruct (negb (3 <=? _)%nat && _); cbn [bind];
    [intros [= <-]; eexists; now left |].
  destruct (negb (2 <=? _)%nat && _); cbn [bind];
    [intros [= <-]; eexists; now left |].
  destruct (negb (_ =? _)); cbn [bind];
    [intros [= <-]; eexists; now right | discriminate].
Qed.

Lemma extract_solution_exceptions
    (group_sizes : list Z) (num_mice num_groups : nat)
    (out : solver_output num) (e : exn) :
  extract_solution group_sizes num_mice num_groups out = Raise e ->
  exists msg, e = TypeError msg \/ e = ValueError msg.
Proof.
  unfold extract_solution, raise_if.
  destruct (values out) as [s |]; [| intros [= <-]; eexists; now left].
  destruct (negb (all_isclose (sum_axis1 _) _)); cbn [bind];
    [intros [= <-]; eexists; now right |].
  destruct (negb (all_isclose (sum_axis0 _ _) _)); cbn [bind];
    [intros [= <-]; eexists; now right |].
  destruct (negb (num_isclose _ _)); cbn [bind];
    [intros [= <-]; eexists; now right | discriminate].
Qed.

Lemma save_optimization_model_to_file_exceptions
    (isdir : string -> bool) (path : string) (e : exn) :
  save_optimization_model_to_file isdir path = Raise e ->
  exists msg, e = ValueError msg.
Proof.
  unfold save_optimization_model_to_file, raise_if.
  destruct (negb (endswith path ".lp" || endswith path ".mps")); cbn [bind];
    [intros [= <-]; now eexists |].
  destruct (negb (isdir _)); cbn [bind];
    [intros [= <-]; now eexists | discriminate].
Qed.

Lemma construct_and_solve_saving_exceptions
    (isdir : string -> bool) (optimize : model num -> Z -> solver_output num)
    (tumor_sizes : list num) (group_sizes : list Z) (seconds : Z)
    (stats : bool) (path : option string) (e : exn) :
  construct_and_solve_mouse_grouping_model_saving isdir optimize tumor_sizes
    group_sizes seconds stats path = Raise e ->
  exists msg, e = AttributeError msg \/ e = ValueError msg \/ e = TypeError msg.
Proof.
  unfold construct_and_solve_mouse_grouping_model_saving, raise_if.
  destruct (seconds <? 1); cbn [bind];
    [intros [= <-]; eexists; now left |].
  destruct (construct_mouse_grouping_model tumor_sizes group_sizes)
    as [[[m N] K] | e'] eqn:Hbuild; cbn [bind].
  - assert (forall r : result unit,
              (forall e0, r = Raise e0 -> exists msg, e0 = ValueError msg) ->
              (r ;;; extract_solution group_sizes N K (optimize m seconds))
                = Raise e ->
              exists msg, e = AttributeError msg \/ e = ValueError msg
                          \/ e = TypeError msg) as Hrest.
    { intros [[] | e0] Hr; cbn [bind].
      - intros Hx. apply extract_solution_exceptions in Hx as (msg & [-> | ->]);
          eexists; tauto.
      - intros [= <-]. destruct (Hr e0 eq_refl) as (msg & ->).
        eexists. right. now left. }
    destruct path as [path |]; [destruct (String.eqb path EmptyString) |];
      apply Hrest; try discriminate.
    intros e0. apply save_optimization_model_to_file_exceptions.
  - intros [= <-].
    apply construct_mouse_grouping_model_exceptions in Hbuild
      as (msg & [-> | ->]); eexists; tauto.
Qed.

End Exceptions.

(** X24. The main program, up to the frame with the grouping, never ends in
    [KeyError] or [IndexError]: the columns it looks up are those that the
    loader has made, and the group column is moved to a position that
    exists. *)
Theorem find_optimal_mouse_grouping_exceptions
    {num : Type} `{Float64Ops num}
    (num_of_cell : cell -> num)
    (read_excel : string -> option data_frame)
    (isdir : string -> bool)
    (optimize : model num -> Z -> solver_output num)
    (cfg : MouseGroupingConfig) (e : py_exn) :
  find_optimal_mouse_grouping num_of_cell read_excel isdir optimize cfg
    = inl e ->
  (forall msg, e <> Builtin (KeyError msg)) /\
  (forall msg, e <> IndexError msg).
Proof.
  unfold find_optimal_mouse_grouping.
  destruct (load_and_verify_mouse_id_and_tumor_size_data_frame _ _ _ _ _ _)
    as [loaded | e0] eqn:Hload.
  2:{ intros [= <-].
      destruct (loader_raises_file_or_value_error _ _ _ _ _ _ _ Hload)
        as [(msg & ->) | (msg & ->)]; split; intros; discriminate. }
  destruct (isdir (output_folder_path cfg)); cbn [negb];
    [| intros [= <-]; split; intros; discriminate].
  destruct (compute_group_sizes _ _) as [group_sizes | e0] eqn:Hplan;
    cbn [bind].
  2:{ intros [= <-].
      destruct (compute_group_sizes_exceptions _ _ _ Hplan)
        as [-> | [-> | [-> | ->]]]; split; intros; discriminate. }
  destruct (loaded_tumor_size_column _ _ _ _ _ _ _ Hload) as (column & ->).
  cbn [bind].
  destruct (construct_and_solve_mouse_grouping_model_saving _ _ _ _ _ _ _)
    as [[[mouse_grouping objective] deviations] | e0] eqn:Hsolve; cbn [bind].
  2:{ intros [= <-].
      destruct (construct_and_solve_saving_exceptions _ _ _ _ _ _ _ _ Hsolve)
        as (msg & [-> | [-> | ->]]); split; intros; discriminate. }
  unfold set_column, raise_if.
  destruct (negb (_ =? _)%nat); cbn [bind];
    [intros [= <-]; split; intros; discriminate |].
  set (col := map (fun label => Some (inject_Z label)) mouse_grouping).
  destruct (replace_column loaded (group_column_name cfg) col) as [df' |]
    eqn:Hrep.
  - destruct (replace_column_split _ _ _ _ Hrep)
      as (before & old & after & _ & -> & Hnin).
    unfold move_column_inplace. rewrite (pop_middle _ _ _ _ Hnin).
    unfold insert. destruct (has_column (before ++ after) _);
      [intros [= <-]; split; intros; discriminate |].
    cbn. discriminate.
  - apply replace_column_absent in Hrep.
    unfold move_column_inplace. rewrite (pop_middle _ _ _ _ Hrep).
    unfold insert. destruct (has_column (loaded ++ []) _);
      [intros [= <-]; split; intros; discriminate |].
    cbn. discriminate.
Qed.

Lemma find_optimal_mouse_grouping_exceptions_witness :
  (forall msg,
     Builtin (AttributeError
                "There must be at least two groups and none of them can be empty.")
     <> Builtin (KeyError msg)) /\
  (forall msg,
     Builtin (AttributeError
                "There must be at least two groups and none of them can be empty.")
     <> IndexError msg).
Proof.
  apply (find_optimal_mouse_grouping_exceptions Q_of_cell
           (fun _ => Some five_mice) (fun _ => true)
           (solver_leaving OPTIMAL (Some binary_solution))
           (default_config "mice.xlsx" "out")).
  reflexivity.
Defined.

(** ** The table of groups *)

Section GroupTable.

Lemma group_cells_length (groups values : list cell) (k : Q) :
  List.length groups = List.length values ->
  List.length (group_cells groups values k)
  = List.length (filter (fun c => cell_eqb c (Some k)) groups).
Proof.
  unfold group_cells. rewrite length_map. revert values.
  induction groups as [| g groups IH]; intros [| v values] Hlen;
    try discriminate; [reflexivity |].
  cbn [combine filter fst]. injection Hlen as Hlen.
  destruct (cell_eqb g (Some k)); cbn [List.length]; now rewrite IH.
Qed.

End GroupTable.

(** X25. The number of mice that the table of groups reports for a group is
    the number of distinct IDs among the rows of the group: it never exceeds
    the number of rows of the group, and equals it exactly when no two mice
    of the group share an ID, which the loader does not rule out. *)
Theorem num_mice_in_group_counts_distinct_ids (groups ids : list cell) :
  List.length groups = List.length ids ->
  Forall2
    (fun k n =>
       let rows := List.length (filter (fun c => cell_eqb c (Some k)) groups) in
       (n <= rows)%nat /\
       (n = rows <-> distinct_cells (group_cells groups ids k) = true))
    (groupby_keys groups) (num_mice_in_group groups ids).
Proof.
  intros Hlen. unfold num_mice_in_group, mouse_ids_in_group.
  rewrite map_map.
  induction (groupby_keys groups) as [| k keys IH]; cbn [map]; constructor;
    [| exact IH].
  cbn zeta. rewrite <- (group_cells_length groups ids k Hlen). split.
  - apply unique_length_le.
  - split.
    + apply unique_length_distinct.
    + intros Hd. now rewrite (distinct_unique _ Hd).
Qed.

Lemma num_mice_in_group_counts_distinct_ids_witness :
  Forall2
    (fun k n =>
       let rows :=
         List.length (filter (fun c => cell_eqb c (Some k))
                             [Some (1 # 1); Some (1 # 1); Some (2 # 1)]%Q) in
       (n <= rows)%nat /\
       (n = rows <->
        distinct_cells
          (group_cells [Some (1 # 1); Some (1 # 1); Some (2 # 1)]%Q
                       [Some (7 # 1); Some (7 # 1); Some (8 # 1)]%Q k) = true))
    [1 # 1; 2 # 1]%Q [1; 1]%nat.
Proof.
  apply (num_mice_in_group_counts_distinct_ids
           [Some (1 # 1); Some (1 # 1); Some (2 # 1)]%Q
           [Some (7 # 1); Some (7 # 1); Some (8 # 1)]%Q).
  reflexivity.
Defined.
